(** * zmysql: the result-materialisation engine, embedded in Rocq

    A shallow embedding of the Go package [zmysql] / [smysql]: the
    NULL-safe scan adapter, the row materialisers [Find] / [First], the
    scalar path [FirstCol], the multi-result-set dispatcher
    [FindMultipleProc], the generic retrievals [firstColAny] /
    [findArray] / [findMap], and the write and JSON paths [Exec] /
    [ExecByte].

    The package-level functions of [mysql_select.go] / [mysql_exec.go]
    and the methods of [smysql.MySQLClient] run the same code, once over
    the global [mysql_client] and once over the receiver; both are
    embedded by one definition that takes the client as an argument. *)

From Stdlib Require Import ssreflect ZArith SpecFloat Ascii String.
From stdpp Require Import base numbers option list gmap fin_maps strings pretty sorting.

Set Warnings "-register-all,-rewrite-rw,-clear-no-such-hyp".

Local Open Scope string_scope.
Local Open Scope list_scope.
Local Open Scope Z_scope.

(** ** Outcomes of a Go call

    A Go function of this package returns a value together with an
    [error]; the error is represented by its message.  Run-time panics
    raised by [reflect] or by an index expression are a third outcome. *)

Inductive outcome (A : Type) : Type :=
| Ok (a : A)
| Err (e : string)
| Panic (msg : string).
Arguments Ok {A} a.
Arguments Err {A} e.
Arguments Panic {A} msg.

Global Instance outcome_ret : MRet outcome := λ A a, Ok a.

Global Instance outcome_bind : MBind outcome := λ A B f m,
  match m with
  | Ok a => f a
  | Err e => Err e
  | Panic p => Panic p
  end.

(** [fmt.Errorf(prefix + "%v", err)]: a returned error is wrapped, a
    panic unwinds through the caller unchanged. *)
Definition wrapErr {A} (prefix : string) (m : outcome A) : outcome A :=
  match m with
  | Err e => Err (prefix +:+ e)
  | other => other
  end.

Definition is_Ok {A} (m : outcome A) : bool :=
  match m with Ok _ => true | _ => false end.

(** ** reflect.Kind and the types the engine inspects *)

Module reflect.
Inductive Kind :=
| Invalid | Bool
| Int | Int8 | Int16 | Int32 | Int64
| Uint | Uint8 | Uint16 | Uint32 | Uint64 | Uintptr
| Float32 | Float64 | Complex64 | Complex128
| Array | Chan | Func | Interface | Map | Pointer | Slice
| String | Struct | UnsafePointer.
End reflect.
Abbreviation Kind := reflect.Kind.

Global Instance Kind_eq_dec : EqDecision Kind.
Proof. solve_decision. Defined.

(** [Kind.String()], as printed by the [%s] verb. *)
Definition Kind_String (k : Kind) : string :=
  match k with
  | reflect.Invalid => "invalid" | reflect.Bool => "bool"
  | reflect.Int => "int" | reflect.Int8 => "int8" | reflect.Int16 => "int16" | reflect.Int32 => "int32"
  | reflect.Int64 => "int64"
  | reflect.Uint => "uint" | reflect.Uint8 => "uint8" | reflect.Uint16 => "uint16"
  | reflect.Uint32 => "uint32" | reflect.Uint64 => "uint64" | reflect.Uintptr => "uintptr"
  | reflect.Float32 => "float32" | reflect.Float64 => "float64"
  | reflect.Complex64 => "complex64" | reflect.Complex128 => "complex128"
  | reflect.Array => "array" | reflect.Chan => "chan" | reflect.Func => "func"
  | reflect.Interface => "interface" | reflect.Map => "map" | reflect.Pointer => "ptr"
  | reflect.Slice => "slice" | reflect.String => "string" | reflect.Struct => "struct"
  | reflect.UnsafePointer => "unsafe.Pointer"
  end.

(** A [reflect.Type].  A struct type lists, per field in declaration
    order, the value of its [db] tag ([field.Tag.Get("db")], empty when
    the tag is absent) and the field's type.  [TBasic k] is a type of
    kind [k] whose inner structure the engine never inspects; with
    [k = reflect.Struct] it is a struct type none of whose fields carries a [db]
    tag (such as [time.Time]), other than the four [sql.Null*] structs
    that the type switches of the package single out: these are the
    struct types [sql_NullString], [sql_NullInt64], [sql_NullFloat64]
    and [sql_NullBool] below.  Fields are exported, hence settable, as
    the package's documentation requires. *)
Inductive GoType :=
| TBasic (k : Kind)
| TSlice (elem : GoType)
| TPtr (elem : GoType)
| TStruct (name : string) (fields : list (string * GoType)).

Definition Kind_of (t : GoType) : Kind :=
  match t with
  | TBasic k => k
  | TSlice _ => reflect.Slice
  | TPtr _ => reflect.Pointer
  | TStruct _ _ => reflect.Struct
  end.

(** Type identity, as [reflect.Value.Set] checks it. *)
Fixpoint GoType_eqb (a b : GoType) : bool :=
  match a, b with
  | TBasic k1, TBasic k2 => bool_decide (k1 = k2)
  | TSlice a', TSlice b' => GoType_eqb a' b'
  | TPtr a', TPtr b' => GoType_eqb a' b'
  | TStruct n1 f1, TStruct n2 f2 =>
      bool_decide (n1 = n2) &&
      (fix fields_eqb (l1 l2 : list (string * GoType)) : bool :=
         match l1, l2 with
         | [], [] => true
         | (tag1, t1) :: r1, (tag2, t2) :: r2 =>
             bool_decide (tag1 = tag2) && GoType_eqb t1 t2 && fields_eqb r1 r2
         | _, _ => false
         end) f1 f2
  | _, _ => false
  end.

(** ** Values *)

(** A [float64]: an IEEE-754 binary64 datum ([prec = 53], [emax = 1024]). *)
Definition float64 := spec_float.
Definition float_zero : float64 := S754_zero false.

(** What the driver hands to [Scan] for one column ([driver.Value]). *)
Inductive DriverValue :=
| DNull
| DInt64 (z : Z)
| DFloat64 (f : float64)
| DBool (b : bool)
| DBytes (s : string)
| DString (s : string)
| DTime (unix_nanos : Z).

(** The contents of a Go variable.  [VSlice None] is the nil slice,
    [VSlice (Some [])] an empty, non-nil one.  [VOther d] stands for a
    value of a type outside the basic kinds, named by the driver value
    it was decoded from; [VOther DNull] is the zero value of such a type. *)
Inductive Value :=
| VBool (b : bool)
| VInt (z : Z)
| VUint (z : Z)
| VFloat (f : float64)
| VString (s : string)
| VStruct (fields : list Value)
| VSlice (elems : option (list Value))
| VNil
| VOther (d : DriverValue).

Definition is_signed (k : Kind) : bool :=
  match k with reflect.Int | reflect.Int8 | reflect.Int16 | reflect.Int32 | reflect.Int64 => true | _ => false end.

Definition is_unsigned (k : Kind) : bool :=
  match k with reflect.Uint | reflect.Uint8 | reflect.Uint16 | reflect.Uint32 | reflect.Uint64 => true | _ => false end.

Definition zero_of_kind (k : Kind) : Value :=
  match k with
  | reflect.Bool => VBool false
  | reflect.Int | reflect.Int8 | reflect.Int16 | reflect.Int32 | reflect.Int64 => VInt 0
  | reflect.Uint | reflect.Uint8 | reflect.Uint16 | reflect.Uint32 | reflect.Uint64 | reflect.Uintptr => VUint 0
  | reflect.Float32 | reflect.Float64 => VFloat float_zero
  | reflect.String => VString ""
  | reflect.Struct => VStruct []
  | reflect.Slice => VSlice None
  | reflect.Chan | reflect.Func | reflect.Interface | reflect.Map | reflect.Pointer | reflect.UnsafePointer | reflect.Invalid => VNil
  | reflect.Complex64 | reflect.Complex128 | reflect.Array => VOther DNull
  end.

(** The zero value of a type: what [reflect.New(t).Elem()] holds. *)
Fixpoint zero_value (t : GoType) : Value :=
  match t with
  | TBasic k => zero_of_kind k
  | TSlice _ => VSlice None
  | TPtr _ => VNil
  | TStruct _ fields => VStruct (List.map (λ f, zero_value (snd f)) fields)
  end.

(** ** Library behaviour the engine relies on

    [database/sql]'s [convertAssign], a destination type's own [Scan]
    method, [strconv.Quote] and [encoding/json]'s leaf encoders are not
    part of this repository.  They are an interface of the development:
    every theorem holds for each implementation of it. *)
Class GoRuntime := {
  (** [convertAssign(&string, src)] for a non-nil [src]; it cannot fail. *)
  asString : DriverValue → string;
  (** [convertAssign(&int64, src)] for a non-nil [src]. *)
  asInt64 : DriverValue → string + Z;
  (** [convertAssign(&float64, src)] for a non-nil [src]. *)
  asFloat64 : DriverValue → string + float64;
  (** [convertAssign(&bool, src)] for a non-nil [src]. *)
  asBool : DriverValue → string + bool;
  (** [convertAssign(dest, src)] for [dest] a pointer to a variable of a
      type outside the basic kinds, holding [old]: the new contents. *)
  scanCustom : GoType → Value → DriverValue → string + Value;
  (** [strconv.Quote], the [%q] verb. *)
  strconv_Quote : string → string;
  (** [json.Marshal] of one driver-native value. *)
  json_value : DriverValue → string + string;
  (** [encoding/json]'s encoding of an object key. *)
  json_key : string → string;
}.

(** ** The NULL-safe scan adapter *)

(** A scan target, told apart by its dynamic type as the type switches
    of the package tell it apart: a pointer to one of the four
    [sql.Null*] structs, or a pointer to a variable of any other type
    ([reflect.New(fieldType)]). *)
Inductive Scanner :=
| NullString (String_ : string) (Valid : bool)
| NullInt64 (Int64_ : Z) (Valid : bool)
| NullFloat64 (Float64_ : float64) (Valid : bool)
| NullBool (Bool_ : bool) (Valid : bool)
| PtrTo (t : GoType) (v : Value).

(** [&sql.NullString{}] *)
Definition new_NullString : Scanner := NullString "" false.

(** The four struct types of [database/sql] behind the scan targets.
    A field may be declared with one of them; their members carry no
    [db] tag. *)
Definition sql_NullString : GoType :=
  TStruct "sql.NullString" [("", TBasic reflect.String); ("", TBasic reflect.Bool)].

Definition sql_NullInt64 : GoType :=
  TStruct "sql.NullInt64" [("", TBasic reflect.Int64); ("", TBasic reflect.Bool)].

Definition sql_NullFloat64 : GoType :=
  TStruct "sql.NullFloat64" [("", TBasic reflect.Float64); ("", TBasic reflect.Bool)].

Definition sql_NullBool : GoType :=
  TStruct "sql.NullBool" [("", TBasic reflect.Bool); ("", TBasic reflect.Bool)].

(** [reflect.New(fieldType).Interface()]: a pointer to a fresh variable
    of the field's type.  For a field declared with one of the four
    types above, this pointer is a [*sql.NullString] (and so on): the
    type switches of the package take it for a scan target of their
    own. *)
Definition reflect_New (fieldType : GoType) : Scanner :=
  if GoType_eqb fieldType sql_NullString then NullString "" false
  else if GoType_eqb fieldType sql_NullInt64 then NullInt64 0 false
  else if GoType_eqb fieldType sql_NullFloat64 then NullFloat64 float_zero false
  else if GoType_eqb fieldType sql_NullBool then NullBool false false
  else PtrTo fieldType (zero_value fieldType).

Definition createNullScanner (fieldType : GoType) : Scanner :=
  match Kind_of fieldType with
  | reflect.String => NullString "" false
  | reflect.Int | reflect.Int8 | reflect.Int16 | reflect.Int32 | reflect.Int64 => NullInt64 0 false
  | reflect.Uint | reflect.Uint8 | reflect.Uint16 | reflect.Uint32 | reflect.Uint64 => NullInt64 0 false
  | reflect.Float32 | reflect.Float64 => NullFloat64 float_zero false
  | reflect.Bool => NullBool false false
  | _ => reflect_New fieldType
  end.

(** *** The setters of [reflect.Value]

    A field is addressed through its kind.  Each setter panics on a
    field of another kind; the integer and float setters store the
    argument converted to the field's width ([int] and [uint] being 64
    bits wide). *)

Definition int_bits (k : Kind) : Z :=
  match k with
  | reflect.Int8 | reflect.Uint8 => 8
  | reflect.Int16 | reflect.Uint16 => 16
  | reflect.Int32 | reflect.Uint32 => 32
  | _ => 64
  end.

Definition wrap_unsigned (bits x : Z) : Z := x mod 2 ^ bits.

Definition wrap_signed (bits x : Z) : Z :=
  (x + 2 ^ (bits - 1)) mod 2 ^ bits - 2 ^ (bits - 1).

(** The conversion [uint64(x)] of an [int64]. *)
Definition uint64 (x : Z) : Z := wrap_unsigned 64 x.

(** The conversion [float32(x)], kept as a [float64] datum: rounding to
    nearest even at [prec = 24], [emax = 128]. *)
Definition float32_round (x : float64) : float64 :=
  match x with
  | S754_finite s m e => binary_round 24 128 s m e
  | other => other
  end.

Definition setter_panic {A} (method : string) (k : Kind) : outcome A :=
  Panic ("reflect: call of reflect.Value." +:+ method +:+ " on " +:+
         Kind_String k +:+ " Value").

Definition SetString (k : Kind) (x : string) : outcome Value :=
  match k with
  | reflect.String => Ok (VString x)
  | _ => setter_panic "SetString" k
  end.

Definition SetInt (k : Kind) (x : Z) : outcome Value :=
  if is_signed k then Ok (VInt (wrap_signed (int_bits k) x))
  else setter_panic "SetInt" k.

Definition SetUint (k : Kind) (x : Z) : outcome Value :=
  if is_unsigned k || bool_decide (k = reflect.Uintptr)
  then Ok (VUint (wrap_unsigned (int_bits k) x))
  else setter_panic "SetUint" k.

Definition SetFloat (k : Kind) (x : float64) : outcome Value :=
  match k with
  | reflect.Float32 => Ok (VFloat (float32_round x))
  | reflect.Float64 => Ok (VFloat x)
  | _ => setter_panic "SetFloat" k
  end.

Definition SetBool (k : Kind) (x : bool) : outcome Value :=
  match k with
  | reflect.Bool => Ok (VBool x)
  | _ => setter_panic "SetBool" k
  end.

(** [field.Set(value)] for a [value] of type [t]. *)
Definition Set_ (fieldType t : GoType) (value : Value) : outcome Value :=
  if GoType_eqb t fieldType then Ok value
  else Panic "reflect.Set: value is not assignable to the field's type".

(** [setFieldFromNullScanner(field, scanner, fieldType)].  [field] is
    the current content of the addressed field, whose type is
    [fieldType] at every call site; the result is its new content. *)
Definition setFieldFromNullScanner
    (field : Value) (scanner : Scanner) (fieldType : GoType) : outcome Value :=
  let k := Kind_of fieldType in
  match scanner with
  | NullString s valid =>
      if valid then
        if negb (bool_decide (k = reflect.String))
        then Err ("cannot convert string to " +:+ Kind_String k)
        else SetString k s
      else SetString k ""
  | NullInt64 i valid =>
      if valid then
        if is_signed k then SetInt k i
        else if is_unsigned k then
          if i <? 0
          then Err "cannot convert negative value to unsigned type"
          else SetUint k (uint64 i)
        else Err ("cannot convert int64 to " +:+ Kind_String k)
      else
        if is_signed k then SetInt k 0
        else if is_unsigned k then SetUint k 0
        else Ok field
  | NullFloat64 f valid =>
      if valid then
        if negb (bool_decide (k = reflect.Float32)) && negb (bool_decide (k = reflect.Float64))
        then Err ("cannot convert float64 to " +:+ Kind_String k)
        else SetFloat k f
      else SetFloat k float_zero
  | NullBool b valid =>
      if valid then
        if negb (bool_decide (k = reflect.Bool))
        then Err ("cannot convert bool to " +:+ Kind_String k)
        else SetBool k b
      else SetBool k false
  | PtrTo t value => Set_ fieldType t value
  end.

(** ** The driver: statements and row cursors ([database/sql]) *)

Definition Row := list DriverValue.

(** One result set as the server delivers it: whether [Columns] fails,
    the column names, the rows, and the error (if any) that ends the
    iteration after those rows. *)
Record ResultSet := {
  rs_columns_err : option string;
  rs_columns : list string;
  rs_rows : list Row;
  rs_err : option string;
}.

(** A [*sql.Rows]: the state of the current result set, and the result
    sets still to come. *)
Record Rows := {
  columns_err : option string;
  columns : list string;
  pending : list Row;
  lasterr : option string;
  nextSets : list ResultSet;
}.

Definition Rows_open (s : ResultSet) (more : list ResultSet) : Rows :=
  {| columns_err := rs_columns_err s; columns := rs_columns s;
     pending := rs_rows s; lasterr := rs_err s; nextSets := more |}.

Record SqlResult := {
  RowsAffected : string + Z;
  LastInsertId : string + Z;
}.

Record Stmt := {
  Stmt_Query : list DriverValue → string + Rows;
  Stmt_Exec : list DriverValue → string + SqlResult;
}.

Record SqlDB := {
  Prepare : string → string + Stmt;
}.

(** [MySQLClient].  The pool settings play no part in a query, and
    [debugLog] only writes the query to the log when [debug] is set.
    The table [fields] memoises [getFieldsMapping] under the lock [mu];
    it starts empty and only [getFieldsMapping] writes to it, so a
    lookup returns what the loop computes
    ([getFieldsMapping_cached_refines]) and the engine is embedded over
    the function the table caches. *)
Record MySQLClient := {
  DB : SqlDB;
  debug : bool;
}.

(** A library call returning [(value, error)]. *)
Definition call {A} (r : string + A) : outcome A :=
  match r with
  | inl e => Err e
  | inr a => Ok a
  end.

(** [rows.Columns()] *)
Definition Rows_Columns (rows : Rows) : outcome (list string) :=
  match columns_err rows with
  | Some e => Err e
  | None => Ok (columns rows)
  end.

(** [rows.Next()]: the row it makes current for [Scan], if there is one. *)
Definition Rows_Next (rows : Rows) : option (Row * Rows) :=
  match pending rows with
  | row :: rest =>
      Some (row, {| columns_err := columns_err rows; columns := columns rows;
                    pending := rest; lasterr := lasterr rows;
                    nextSets := nextSets rows |})
  | [] => None
  end.

(** [rows.Err()], consulted once [Next] has returned false. *)
Definition Rows_Err (rows : Rows) : option string := lasterr rows.

(** [rows.NextResultSet()].  An error that ends the current result set
    closes the cursor, whether [Next] has met it or the rows left
    unread are discarded now: there is no next result set then. *)
Definition Rows_NextResultSet (rows : Rows) : option Rows :=
  match lasterr rows, nextSets rows with
  | None, s :: more => Some (Rows_open s more)
  | _, _ => None
  end.

(** [for rows.Next() { body }]: one iteration per pending row; the loop
    state is threaded, and a returned error leaves the loop. *)
Fixpoint for_rows_Next {S : Type} (body : Row → S → outcome S)
    (pending : list Row) (s : S) : outcome S :=
  match pending with
  | [] => Ok s
  | row :: rest => s' ← body row s; for_rows_Next body rest s'
  end.

(** The [CALL] text of a stored procedure. *)
Fixpoint strings_Repeat (s : string) (count : nat) : string :=
  match count with
  | O => ""
  | S n => s +:+ strings_Repeat s n
  end.

Definition strings_TrimSuffix (s suffix : string) : string :=
  if String.prefix (String.rev suffix) (String.rev s)
  then String.substring 0 (String.length s - String.length suffix) s
  else s.

Definition procQuery (procName : string) (args : list DriverValue) : string :=
  let placeholders :=
    strings_TrimSuffix (strings_Repeat "?," (length args)) "," in
  "CALL `" +:+ procName +:+ "`(" +:+ placeholders +:+ ")".

(** A destination passed as [any]. *)
Inductive GoAny :=
| AnyNil
| AnyPtr (elem : GoType) (p : option nat)
| AnyValue (t : GoType) (v : Value).

(** [reflect.ValueOf(dest).Kind()] *)
Definition ValueOf_Kind (dest : GoAny) : Kind :=
  match dest with
  | AnyNil => reflect.Invalid
  | AnyPtr _ _ => reflect.Pointer
  | AnyValue t _ => Kind_of t
  end.

(** [reflect.ValueOf(dest).Elem().Kind()], for [dest] of pointer kind. *)
Definition Elem_Kind (dest : GoAny) : Kind :=
  match dest with
  | AnyPtr t (Some _) => Kind_of t
  | _ => reflect.Invalid
  end.

(** ** The type mapping *)

(** [t.String()]: the name of a struct type, the name of its kind for a
    predeclared type, and the type expression for a slice or a
    pointer. *)
Fixpoint Type_String (t : GoType) : string :=
  match t with
  | TBasic k => Kind_String k
  | TSlice elem => "[]" +:+ Type_String elem
  | TPtr elem => "*" +:+ Type_String elem
  | TStruct name _ => name
  end.

(** The fields [t.NumField()] and [t.Field(i)] range over. *)
Definition struct_fields (t : GoType) : outcome (list (string * GoType)) :=
  match t with
  | TStruct _ fields => Ok fields
  | TBasic reflect.Struct => Ok []
  | _ => Panic ("reflect: NumField of non-struct type " +:+ Type_String t)
  end.

Definition getFieldsMapping (t : GoType) : outcome (gmap string nat) :=
  fields ← struct_fields t;
  Ok (fold_left
        (λ (mapping : gmap string nat) (f : nat * (string * GoType)),
           let dbTag := fst (snd f) in
           if bool_decide (dbTag = "") then mapping else <[dbTag := fst f]> mapping)
        (imap pair fields) ∅).

(** The table [client.fields] and the function as the code runs it: a
    hit returns the stored mapping, a miss computes it and stores it. *)
Fixpoint fields_lookup (fields : list (GoType * gmap string nat)) (t : GoType)
    : option (gmap string nat) :=
  match fields with
  | [] => None
  | (t', mapping) :: rest =>
      if GoType_eqb t' t then Some mapping else fields_lookup rest t
  end.

Definition getFieldsMapping_cached (fields : list (GoType * gmap string nat))
    (t : GoType) : outcome (gmap string nat) * list (GoType * gmap string nat) :=
  match fields_lookup fields t with
  | Some mapping => (Ok mapping, fields)
  | None =>
      match getFieldsMapping t with
      | Ok mapping => (Ok mapping, (t, mapping) :: fields)
      | failed => (failed, fields)
      end
  end.

(** Every stored mapping is the one the loop computes. *)
Definition fields_consistent (fields : list (GoType * gmap string nat)) : Prop :=
  ∀ t mapping, fields_lookup fields t = Some mapping →
               getFieldsMapping t = Ok mapping.

(** A run of calls of [getFieldsMapping] on one client: each call sees
    the table the calls before it left. *)
Fixpoint getFieldsMapping_calls (fields : list (GoType * gmap string nat))
    (ts : list GoType) : list (outcome (gmap string nat)) :=
  match ts with
  | [] => []
  | t :: later =>
      let '(mapping, fields') := getFieldsMapping_cached fields t in
      mapping :: getFieldsMapping_calls fields' later
  end.

(** [t.Field(i).Type] *)
Definition Type_Field (t : GoType) (i : nat) : outcome GoType :=
  fields ← struct_fields t;
  match fields !! i with
  | Some f => Ok (snd f)
  | None => Panic "reflect: Field index out of bounds"
  end.

(** [v.Field(i)] on a struct value, and the store through it. *)
Definition Value_Field (v : Value) (i : nat) : outcome Value :=
  match v with
  | VStruct fields =>
      match fields !! i with
      | Some f => Ok f
      | None => Panic "reflect: Field index out of range"
      end
  | _ => Panic "reflect: call of reflect.Value.Field on non-struct Value"
  end.

Definition Value_SetField (v : Value) (i : nat) (x : Value) : Value :=
  match v with
  | VStruct fields => VStruct (<[i := x]> fields)
  | other => other
  end.

Section Engine.
Context `{GoRuntime}.

(** ** Scanning a row *)

(** [convertAssign(dest, src)] on one scan target.  The [Scan] method of
    each [sql.Null*] struct stores the zero value with [Valid = false]
    for a nil source. *)
Definition convertAssign (dest : Scanner) (src : DriverValue) : string + Scanner :=
  match dest with
  | NullString _ _ =>
      match src with
      | DNull => inr (NullString "" false)
      | _ => inr (NullString (asString src) true)
      end
  | NullInt64 _ _ =>
      match src with
      | DNull => inr (NullInt64 0 false)
      | _ => match asInt64 src with
             | inl e => inl e
             | inr i => inr (NullInt64 i true)
             end
      end
  | NullFloat64 _ _ =>
      match src with
      | DNull => inr (NullFloat64 float_zero false)
      | _ => match asFloat64 src with
             | inl e => inl e
             | inr f => inr (NullFloat64 f true)
             end
      end
  | NullBool _ _ =>
      match src with
      | DNull => inr (NullBool false false)
      | _ => match asBool src with
             | inl e => inl e
             | inr b => inr (NullBool b true)
             end
      end
  | PtrTo t old =>
      match scanCustom t old src with
      | inl e => inl e
      | inr v => inr (PtrTo t v)
      end
  end.

Fixpoint scan_columns (index : nat) (columns : list string)
    (lastcols : Row) (dest : list Scanner) : outcome (list Scanner) :=
  match lastcols, dest with
  | sv :: svs, d :: ds =>
      match convertAssign d sv with
      | inl err =>
          Err ("sql: Scan error on column index " +:+ pretty index +:+
               ", name " +:+ strconv_Quote (default "" (columns !! index)) +:+
               ": " +:+ err)
      | inr d' =>
          ds' ← scan_columns (S index) columns svs ds;
          Ok (d' :: ds')
      end
  | _, _ => Ok []
  end.

(** [rows.Scan(dest...)] on the row [lastcols] that [Next] made current:
    the scan targets after the call. *)
Definition Rows_Scan (columns : list string) (lastcols : Row)
    (dest : list Scanner) : outcome (list Scanner) :=
  if negb (length dest =? length lastcols)%nat
  then Err ("sql: expected " +:+ pretty (length lastcols) +:+
            " destination arguments in Scan, not " +:+ pretty (length dest))
  else scan_columns 0 columns lastcols dest.

(** ** The row materialiser *)

(** The scan target of one column: the adapter of the mapped field, or a
    [sql.NullString] that swallows an unmapped column. *)
Definition columnScanner (t : GoType) (fieldsMapping : gmap string nat)
    (col : string) : outcome Scanner :=
  match fieldsMapping !! col with
  | Some fieldIndex =>
      fieldType ← Type_Field t fieldIndex;
      Ok (createNullScanner fieldType)
  | None => Ok new_NullString
  end.

Definition make_scanDest (t : GoType) (fieldsMapping : gmap string nat)
    (columns : list string) : outcome (list Scanner) :=
  mapM (columnScanner t fieldsMapping) columns.

(** One turn of [for i, col := range columns]: set the field mapped to
    [col], if any, from [scanDest[i]]. *)
Definition setColumn (t : GoType) (fieldsMapping : gmap string nat)
    (item : Value) (col : string) (scanner : Scanner) : outcome Value :=
  match fieldsMapping !! col with
  | Some fieldIndex =>
      field ← Value_Field item fieldIndex;
      fieldType ← Type_Field t fieldIndex;
      v ← wrapErr ("failed to set field " +:+ col +:+ ": ")
            (setFieldFromNullScanner field scanner fieldType);
      Ok (Value_SetField item fieldIndex v)
  | None => Ok item
  end.

(** The whole [for i, col := range columns] loop over a struct [item].
    The fields are set in place: next to the outcome stands the struct
    as the loop leaves it, also when it stops at an error. *)
Fixpoint setColumns (t : GoType) (fieldsMapping : gmap string nat)
    (columns : list string) (scanDest : list Scanner) (item : Value)
    : outcome unit * Value :=
  match columns, scanDest with
  | [], _ => (Ok (), item)
  | col :: cols, scanner :: scanners =>
      match setColumn t fieldsMapping item col scanner with
      | Ok item' => setColumns t fieldsMapping cols scanners item'
      | Err e => (Err e, item)
      | Panic p => (Panic p, item)
      end
  | _ :: _, [] => (Panic "runtime error: index out of range", item)
  end.

(** The body of [for rows.Next()] in [scanRows]; the loop state is the
    scan targets, reused from row to row, and the accumulated [results]. *)
Definition scanRows_body (sliceElemType : GoType)
    (fieldsMapping : gmap string nat) (columns : list string)
    (row : Row) (st : list Scanner * list Value)
    : outcome (list Scanner * list Value) :=
  let '(scanDest, results) := st in
  let newItem := zero_value sliceElemType in
  scanDest' ← wrapErr "failed to scan row: " (Rows_Scan columns row scanDest);
  match setColumns sliceElemType fieldsMapping columns scanDest' newItem with
  | (Ok _, newItem') => Ok (scanDest', (results ++ [newItem'])%list)
  | (Err e, _) => Err e
  | (Panic p, _) => Panic p
  end.

(** Everything [scanRows] does before its final assignment. *)
Definition scanRows_results (rows : Rows) (sliceElemType : GoType)
    : outcome (list Value) :=
  columns ← wrapErr "failed to get columns: " (Rows_Columns rows);
  fieldsMapping ← getFieldsMapping sliceElemType;
  scanDest ← make_scanDest sliceElemType fieldsMapping columns;
  st ← for_rows_Next (scanRows_body sliceElemType fieldsMapping columns)
         (pending rows) (scanDest, []);
  match Rows_Err rows with
  | Some e => Err ("rows iteration error: " +:+ e)
  | None => Ok (snd st)
  end.

(** [scanRows(rows, destValue, sliceElemType)], with [destValue] the
    pointer to the caller's slice at location [dest] of the store. *)
Definition scanRows (rows : Rows) (dest : nat) (sliceElemType : GoType)
    (store : gmap nat Value) : outcome unit * gmap nat Value :=
  match scanRows_results rows sliceElemType with
  | Ok results => (Ok (), <[dest := VSlice (Some results)]> store)
  | Err e => (Err e, store)
  | Panic p => (Panic p, store)
  end.

(** [Find(dest, query, args...)] *)
Definition Find (client : MySQLClient) (dest : GoAny) (query : string)
    (args : list DriverValue) (store : gmap nat Value)
    : outcome unit * gmap nat Value :=
  if negb (bool_decide (ValueOf_Kind dest = reflect.Pointer))
     || negb (bool_decide (Elem_Kind dest = reflect.Slice))
  then (Err "dest must be a pointer to a slice", store)
  else
    match dest with
    | AnyPtr (TSlice sliceElemType) (Some l) =>
        match Prepare (DB client) query with
        | inl e => (Err ("failed to prepare query: " +:+ e), store)
        | inr stmt =>
            match Stmt_Query stmt args with
            | inl e => (Err ("failed to execute query: " +:+ e), store)
            | inr rows => scanRows rows l sliceElemType store
            end
        end
    | _ => (Panic "reflect: Elem of a type without element type", store)
    end.

(** [FindProc(dest, procName, args...)] *)
Definition FindProc (client : MySQLClient) (dest : GoAny) (procName : string)
    (args : list DriverValue) (store : gmap nat Value)
    : outcome unit * gmap nat Value :=
  Find client dest (procQuery procName args) args store.

(** The set-up shared by the one-row paths: the column list, the type
    mapping and one scan target per column. *)
Definition prepare_scan (rows : Rows) (structType : GoType)
    : outcome (list string * gmap string nat * list Scanner) :=
  columns ← wrapErr "failed to get columns: " (Rows_Columns rows);
  fieldsMapping ← getFieldsMapping structType;
  scanDest ← make_scanDest structType fieldsMapping columns;
  Ok (columns, fieldsMapping, scanDest).

(** [First(dest, query, args...)].  An error return carries
    [found = false]; it is the outcome [Err].  The fields are set
    directly on the caller's struct, at location [l] of the store. *)
Definition First (client : MySQLClient) (dest : GoAny) (query : string)
    (args : list DriverValue) (store : gmap nat Value)
    : outcome bool * gmap nat Value :=
  if negb (bool_decide (ValueOf_Kind dest = reflect.Pointer))
     || negb (bool_decide (Elem_Kind dest = reflect.Struct))
  then (Err "dest must be a pointer to a struct", store)
  else
    match dest with
    | AnyPtr structType (Some l) =>
        match Prepare (DB client) query with
        | inl e => (Err ("failed to prepare query: " +:+ e), store)
        | inr stmt =>
            match Stmt_Query stmt args with
            | inl e => (Err ("failed to execute query: " +:+ e), store)
            | inr rows =>
                match prepare_scan rows structType with
                | Ok (columns, fieldsMapping, scanDest) =>
                    match Rows_Next rows with
                    | Some (row, _) =>
                        match wrapErr "failed to scan row: "
                                (Rows_Scan columns row scanDest) with
                        | Ok scanDest' =>
                            match store !! l with
                            | Some item =>
                                let '(r, item') :=
                                  setColumns structType fieldsMapping columns
                                    scanDest' item in
                                (r ≫= λ _, Ok true, <[l := item']> store)
                            | None =>
                                (Panic "runtime error: invalid memory address", store)
                            end
                        | Err e => (Err e, store)
                        | Panic p => (Panic p, store)
                        end
                    | None => (Ok false, store)
                    end
                | Err e => (Err e, store)
                | Panic p => (Panic p, store)
                end
            end
        end
    | _ => (Panic "reflect: Elem of a nil pointer", store)
    end.

(** [FirstProc(dest, procName, args...)] *)
Definition FirstProc (client : MySQLClient) (dest : GoAny) (procName : string)
    (args : list DriverValue) (store : gmap nat Value)
    : outcome bool * gmap nat Value :=
  First client dest (procQuery procName args) args store.

(** [FirstCol(dest, query, args...)].  Only the kind of [dest] is
    checked up front; the pointer is followed once a row has arrived,
    and the value is set in the caller's variable at location [l]. *)
Definition FirstCol (client : MySQLClient) (dest : GoAny) (query : string)
    (args : list DriverValue) (store : gmap nat Value)
    : outcome bool * gmap nat Value :=
  if negb (bool_decide (ValueOf_Kind dest = reflect.Pointer))
  then (Err "dest must be a pointer to a basic type", store)
  else
    match Prepare (DB client) query with
    | inl e => (Err ("failed to prepare query: " +:+ e), store)
    | inr stmt =>
        match Stmt_Query stmt args with
        | inl e => (Err ("failed to execute query: " +:+ e), store)
        | inr rows =>
            match wrapErr "failed to get columns: " (Rows_Columns rows) with
            | Ok columns =>
                if negb (length columns =? 1)%nat
                then (Err ("expected a single column result, but got " +:+
                           pretty (length columns) +:+ " columns"), store)
                else
                  match Rows_Next rows with
                  | Some (row, _) =>
                      match dest with
                      | AnyPtr t (Some l) =>
                          let scanner := createNullScanner t in
                          match wrapErr "failed to scan column: "
                                  (Rows_Scan columns row [scanner]) with
                          | Ok scanned =>
                              match head scanned, store !! l with
                              | Some scanner', Some field =>
                                  match wrapErr "failed to set value: "
                                          (setFieldFromNullScanner field scanner' t) with
                                  | Ok v => (Ok true, <[l := v]> store)
                                  | Err e => (Err e, store)
                                  | Panic p => (Panic p, store)
                                  end
                              | None, _ =>
                                  (Panic "runtime error: index out of range", store)
                              | _, None =>
                                  (Panic "runtime error: invalid memory address", store)
                              end
                          | Err e => (Err e, store)
                          | Panic p => (Panic p, store)
                          end
                      | _ =>
                          (Panic "reflect: call of reflect.Value.Type on zero Value",
                           store)
                      end
                  | None => (Ok false, store)
                  end
            | Err e => (Err e, store)
            | Panic p => (Panic p, store)
            end
        end
    end.

(** [FirstColProc(dest, procName, args...)] *)
Definition FirstColProc (client : MySQLClient) (dest : GoAny) (procName : string)
    (args : list DriverValue) (store : gmap nat Value)
    : outcome bool * gmap nat Value :=
  FirstCol client dest (procQuery procName args) args store.

(** ** The multi-result-set dispatcher *)

(** The single-struct branch of [FindMultipleProc]: at most one row of
    the current result set is read into a new item, which is then
    assigned to the destination at [l]. *)
Definition dispatch_struct (rows : Rows) (l : nat) (structType : GoType)
    (store : gmap nat Value) : outcome unit * gmap nat Value :=
  match prepare_scan rows structType with
  | Ok (columns, fieldsMapping, scanDest) =>
      match Rows_Next rows with
      | Some (row, _) =>
          match wrapErr "failed to scan row: " (Rows_Scan columns row scanDest) with
          | Ok scanDest' =>
              let newItem := zero_value structType in
              match setColumns structType fieldsMapping columns scanDest' newItem with
              | (Ok _, newItem') => (Ok (), <[l := newItem']> store)
              | (Err e, _) => (Err e, store)
              | (Panic p, _) => (Panic p, store)
              end
          | Err e => (Err e, store)
          | Panic p => (Panic p, store)
          end
      | None => (Ok (), store)
      end
  | Err e => (Err e, store)
  | Panic p => (Panic p, store)
  end.

(** One result set into [dest[index]]. *)
Definition dispatch_one (d : GoAny) (index : nat) (rows : Rows)
    (store : gmap nat Value) : outcome unit * gmap nat Value :=
  if negb (bool_decide (ValueOf_Kind d = reflect.Pointer))
  then (Err ("dest[" +:+ pretty index +:+ "] must be a pointer"), store)
  else
    let kind := Elem_Kind d in
    if negb (bool_decide (kind = reflect.Slice)) && negb (bool_decide (kind = reflect.Struct))
    then (Err ("dest[" +:+ pretty index +:+
               "] must be a pointer to a struct or slice"), store)
    else
      match d with
      | AnyPtr (TSlice sliceElemType) (Some l) =>
          match scanRows rows l sliceElemType store with
          | (Err e, store') =>
              (Err ("failed to scan result set " +:+ pretty index +:+ ": " +:+ e),
               store')
          | other => other
          end
      | AnyPtr t (Some l) =>
          if bool_decide (kind = reflect.Slice)
          then (Panic "reflect: Elem of a type without element type", store)
          else dispatch_struct rows l t store
      | _ => (Panic "reflect: Elem of a nil pointer", store)
      end.

(** The loop [for index := 0; ; index++] of [FindMultipleProc], entered
    with the cursor [rows] on result set number [index]; [sets] are the
    result sets that follow the current one, [nextSets rows].  The two
    inner matches are [rows.NextResultSet()]
    ([FindMultipleProc_loop_NextResultSet]). *)
Fixpoint FindMultipleProc_loop (dest : list GoAny) (sets : list ResultSet)
    (rows : Rows) (index : nat) (store : gmap nat Value) {struct sets}
    : outcome unit * gmap nat Value :=
  match dest !! index with
  | None =>
      (Err ("too many result sets, expected " +:+ pretty (length dest)), store)
  | Some d =>
      match dispatch_one d index rows store with
      | (Ok _, store') =>
          match lasterr rows, sets with
          | None, s :: more =>
              FindMultipleProc_loop dest more (Rows_open s more) (S index) store'
          | _, _ => (Ok (), store')
          end
      | failed => failed
      end
  end.

(** [FindMultipleProc(dest, procName, args...)] *)
Definition FindMultipleProc (client : MySQLClient) (dest : list GoAny)
    (procName : string) (args : list DriverValue) (store : gmap nat Value)
    : outcome unit * gmap nat Value :=
  if bool_decide (length dest = 0%nat)
  then (Err "dest cannot be empty", store)
  else
    match Prepare (DB client) (procQuery procName args) with
    | inl e => (Err ("failed to prepare query: " +:+ e), store)
    | inr stmt =>
        match Stmt_Query stmt args with
        | inl e => (Err ("failed to execute query: " +:+ e), store)
        | inr rows => FindMultipleProc_loop dest (nextSets rows) rows 0 store
        end
    end.

(** ** Generic scalar and array retrieval *)

(** The type set [int64 | string] of the generic functions. *)
Inductive ElemType := T_int64 | T_string.

(** [var zero T] *)
Definition zeroT (T : ElemType) : Value :=
  match T with
  | T_int64 => VInt 0
  | T_string => VString ""
  end.

(** The type argument [T] as a [reflect.Type]. *)
Definition ElemType_type (T : ElemType) : GoType :=
  match T with
  | T_int64 => TBasic reflect.Int64
  | T_string => TBasic reflect.String
  end.

(** Reading a scan target back as a [*sql.NullInt64] / [*sql.NullString];
    the type assertion panics on any other target. *)
Definition as_NullInt64 (sc : option Scanner) : outcome (Z * bool) :=
  match sc with
  | Some (NullInt64 i valid) => Ok (i, valid)
  | Some _ => Panic "interface conversion: interface {} is not *sql.NullInt64"
  | None => Panic "runtime error: index out of range"
  end.

Definition as_NullString (sc : option Scanner) : outcome (string * bool) :=
  match sc with
  | Some (NullString s valid) => Ok (s, valid)
  | Some _ => Panic "interface conversion: interface {} is not *sql.NullString"
  | None => Panic "runtime error: index out of range"
  end.

(** [firstColAny[T](client, query, args...)].  The Go triple
    [(value, found, error)] is [Ok (value, found)] when the error is nil;
    every error return carries the zero value and [found = false]. *)
Definition firstColAny (T : ElemType) (client : MySQLClient) (query : string)
    (args : list DriverValue) : outcome (Value * bool) :=
  stmt ← wrapErr "failed to prepare query: " (call (Prepare (DB client) query));
  rows ← wrapErr "failed to execute query: " (call (Stmt_Query stmt args));
  columns ← wrapErr "failed to get columns: " (Rows_Columns rows);
  if negb (length columns =? 1)%nat
  then Err ("expected a single column result, but got " +:+
            pretty (length columns) +:+ " columns")
  else
    match Rows_Next rows with
    | Some (row, _) =>
        match T with
        | T_int64 =>
            scanned ← wrapErr "failed to scan column: "
                        (Rows_Scan columns row [NullInt64 0 false]);
            '(nullInt, valid) ← as_NullInt64 (head scanned);
            if (valid : bool) then Ok (VInt nullInt, true)
            else Ok (zeroT T, true)
        | T_string =>
            scanned ← wrapErr "failed to scan column: "
                        (Rows_Scan columns row [NullString "" false]);
            '(nullStr, valid) ← as_NullString (head scanned);
            if (valid : bool) then Ok (VString nullStr, true)
            else Ok (zeroT T, true)
        end
    | None => Ok (zeroT T, false)
    end.

(** [firstColProcAny[T](client, procName, args...)] *)
Definition firstColProcAny (T : ElemType) (client : MySQLClient)
    (procName : string) (args : list DriverValue) : outcome (Value * bool) :=
  firstColAny T client (procQuery procName args) args.

(** [append(results, x)] on a slice that may be nil. *)
Definition append {A} (s : option (list A)) (x : A) : option (list A) :=
  Some (app (default [] s) [x]).

(** [len(s)] *)
Definition len {A} (s : option (list A)) : nat := length (default [] s).

(** The scan targets [findArray] builds for one row. *)
Definition findArray_scanDest (T : ElemType) (fieldIndex : nat)
    (columns : list string) : list Scanner :=
  imap (λ i _,
          if bool_decide (i = fieldIndex) then
            match T with
            | T_int64 => NullInt64 0 false
            | T_string => NullString "" false
            end
          else new_NullString) columns.

(** The body of [for rows.Next()] in [findArray]. *)
Definition findArray_body (T : ElemType) (fieldIndex : nat)
    (columns : list string) (row : Row) (results : option (list Value))
    : outcome (option (list Value)) :=
  let scanDest := findArray_scanDest T fieldIndex columns in
  scanDest' ← wrapErr "failed to scan row: " (Rows_Scan columns row scanDest);
  match T with
  | T_int64 =>
      '(nullInt, valid) ← as_NullInt64 (scanDest' !! fieldIndex);
      if (valid : bool) then Ok (append results (VInt nullInt))
      else Ok results
  | T_string =>
      '(nullStr, valid) ← as_NullString (scanDest' !! fieldIndex);
      if (valid : bool) then Ok (append results (VString nullStr))
      else Ok results
  end.

(** [findArray[T](client, fieldName, query, args...)]: [Ok None] is the
    return [(nil, nil)]. *)
Definition findArray (T : ElemType) (client : MySQLClient) (fieldName : string)
    (query : string) (args : list DriverValue) : outcome (option (list Value)) :=
  stmt ← wrapErr "failed to prepare query: " (call (Prepare (DB client) query));
  rows ← wrapErr "failed to execute query: " (call (Stmt_Query stmt args));
  columns ← wrapErr "failed to get columns: " (Rows_Columns rows);
  match list_find (λ col, col = fieldName) columns with
  | None => Err ("field '" +:+ fieldName +:+ "' not found in query results")
  | Some (fieldIndex, _) =>
      results ← for_rows_Next (findArray_body T fieldIndex columns)
                  (pending rows) None;
      match Rows_Err rows with
      | Some e => Err ("rows iteration error: " +:+ e)
      | None => if bool_decide (len results = 0%nat) then Ok None else Ok results
      end
  end.

(** [findProcArray[T](client, fieldName, procName, args...)] *)
Definition findProcArray (T : ElemType) (client : MySQLClient)
    (fieldName procName : string) (args : list DriverValue)
    : outcome (option (list Value)) :=
  findArray T client fieldName (procQuery procName args) args.

(** ** Key-value map retrieval *)

(** [fmt.Sscanf(s, "%d", &val)] for an [int64] operand: leading blanks
    are skipped (a newline among them is an error), one sign is
    accepted, at least one decimal digit is required and the longest run
    of digits is taken; the number must fit 64 bits.  Input after the
    number is left unread.  A string is a sequence of bytes, read as
    UTF-8.  The blanks are those of [fmt]: U+0009..U+000D and U+0020,
    and, in two or three bytes, U+0085, U+00A0, U+1680,
    U+2000..U+200A, U+2028, U+2029, U+202F, U+205F and U+3000. *)
Definition is_space (c : ascii) : bool :=
  let n := nat_of_ascii c in
  ((9 <=? n) && (n <=? 13) || (n =? 32))%nat.

(** After the lead byte [0xC2]: U+0085 and U+00A0. *)
Definition is_space2 (b : ascii) : bool :=
  let y := nat_of_ascii b in
  ((y =? 133) || (y =? 160))%nat.

(** After a lead byte [0xE1], [0xE2] or [0xE3]. *)
Definition is_space3 (a b c : ascii) : bool :=
  let x := nat_of_ascii a in
  let y := nat_of_ascii b in
  let z := nat_of_ascii c in
  ((x =? 225) && (y =? 154) && (z =? 128)
   || (x =? 226) && (y =? 128)
      && ((128 <=? z) && (z <=? 138) || (z =? 168) || (z =? 169) || (z =? 175))
   || (x =? 226) && (y =? 129) && (z =? 159)
   || (x =? 227) && (y =? 128) && (z =? 128))%nat.

Definition is_digit (c : ascii) : bool :=
  let n := nat_of_ascii c in
  ((48 <=? n) && (n <=? 57))%nat.

Fixpoint SkipSpace (s : string) : option string :=
  match s with
  | EmptyString => Some EmptyString
  | String c rest =>
      if bool_decide (nat_of_ascii c = 10%nat) then None
      else if is_space c then SkipSpace rest
      else if (nat_of_ascii c =? 194)%nat then
        match rest with
        | String c2 rest2 => if is_space2 c2 then SkipSpace rest2 else Some s
        | EmptyString => Some s
        end
      else if ((225 <=? nat_of_ascii c) && (nat_of_ascii c <=? 227))%nat then
        match rest with
        | String c2 (String c3 rest3) =>
            if is_space3 c c2 c3 then SkipSpace rest3 else Some s
        | _ => Some s
        end
      else Some s
  end.

Fixpoint scanNumber (acc : Z) (s : string) : Z :=
  match s with
  | EmptyString => acc
  | String c rest =>
      if is_digit c
      then scanNumber (10 * acc + (Z.of_nat (nat_of_ascii c) - 48)) rest
      else acc
  end.

Definition Sscanf_d (str : string) : option Z :=
  s ← SkipSpace str;
  let '(negative, s1) :=
    match s with
    | String "-" rest => (true, rest)
    | String "+" rest => (false, rest)
    | _ => (false, s)
    end in
  match s1 with
  | String c _ =>
      if is_digit c then
        let magnitude := scanNumber 0 s1 in
        let i := if negative then - magnitude else magnitude in
        if (- 2 ^ 63 <=? i) && (i <=? 2 ^ 63 - 1) then Some i else None
      else None
  | EmptyString => None
  end.

(** A type argument of [findMap]: exactly [int64], exactly [string], or
    any other type. *)
Inductive TypeParam :=
| P_int64
| P_string
| P_other (t : GoType).

Definition reflect_Type (P : TypeParam) : GoType :=
  match P with
  | P_int64 => TBasic reflect.Int64
  | P_string => TBasic reflect.String
  | P_other t => t
  end.

(** A key of the returned map.  [KeyZero] is the zero value of a key
    type other than [int64] and [string]. *)
Inductive MapKey :=
| KeyInt (i : Z)
| KeyStr (s : string)
| KeyZero.

Global Instance MapKey_eq_dec : EqDecision MapKey.
Proof. solve_decision. Defined.

Global Instance MapKey_countable : Countable MapKey.
Proof.
  refine (inj_countable'
    (λ k, match k with
          | KeyInt i => inl (inl i)
          | KeyStr s => inl (inr s)
          | KeyZero => inr ()
          end)
    (λ x : Z + string + unit,
       match x with
       | inl (inl i) => KeyInt i
       | inl (inr s) => KeyStr s
       | inr _ => KeyZero
       end) _).
  by intros [].
Defined.

(** [var key T] *)
Definition zeroKey (K : TypeParam) : MapKey :=
  match K with
  | P_int64 => KeyInt 0
  | P_string => KeyStr ""
  | P_other _ => KeyZero
  end.

(** The two indices found by the loop over [columns]; it has no
    [break], so the last column of a given name wins. *)
Definition lastIndexOf (name : string) (columns : list string) : option nat :=
  fold_left
    (λ (found : option nat) (c : nat * string),
       if bool_decide (snd c = name) then Some (fst c) else found)
    (imap pair columns) None.

(** The key of a row: [(key, keyValid)] as the switch over the key's
    scan target leaves them. *)
Definition findMap_key (K : TypeParam) (keyScanner : option Scanner)
    : outcome (MapKey * bool) :=
  match keyScanner with
  | None => Panic "runtime error: index out of range"
  | Some (NullString s valid) =>
      if valid then
        match K with
        | P_string => Ok (KeyStr s, true)
        | P_int64 =>
            match Sscanf_d s with
            | Some val => Ok (KeyInt val, true)
            | None => Ok (zeroKey K, true)
            end
        | P_other _ => Ok (zeroKey K, true)
        end
      else Ok (zeroKey K, false)
  | Some (NullInt64 i valid) =>
      if valid then
        match K with
        | P_int64 => Ok (KeyInt i, true)
        | P_string => Ok (KeyStr (pretty i), true)
        | P_other _ => Ok (zeroKey K, true)
        end
      else Ok (zeroKey K, false)
  | Some _ => Ok (zeroKey K, false)
  end.

(** The value of a row. *)
Definition findMap_value (Y : TypeParam) (valueField : string)
    (valueIndex : option nat) (fieldsMapping : gmap string nat)
    (columns : list string) (scanDest : list Scanner) : outcome Value :=
  let yType := reflect_Type Y in
  let isStructType := bool_decide (Kind_of yType = reflect.Struct) in
  if bool_decide (valueField = "") && isStructType then
    let newStruct := zero_value yType in
    match setColumns yType fieldsMapping columns scanDest newStruct with
    | (Ok _, newStruct') => Ok newStruct'
    | (Err e, _) => Err e
    | (Panic p, _) => Panic p
    end
  else
    match valueIndex with
    | None => Panic "runtime error: index out of range [-1]"
    | Some valueIndex =>
        '(text, valid) ← as_NullString (scanDest !! valueIndex);
        if (valid : bool) then
          match Y with
          | P_string => Ok (VString text)
          | P_int64 =>
              match Sscanf_d text with
              | Some val => Ok (VInt val)
              | None => Ok (zero_value yType)
              end
          | P_other _ => Ok (zero_value yType)
          end
        else Ok (zero_value yType)
    end.

(** The scan targets [findMap] builds for one row: the adapters of the
    mapped fields when the whole row is the value, a [sql.NullString]
    per column otherwise. *)
Definition findMap_scanDest (Y : TypeParam) (valueField : string)
    (fieldsMapping : gmap string nat) (columns : list string)
    : outcome (list Scanner) :=
  let yType := reflect_Type Y in
  let isStructType := bool_decide (Kind_of yType = reflect.Struct) in
  mapM (λ col,
          if isStructType && bool_decide (valueField = "")
          then columnScanner yType fieldsMapping col
          else Ok new_NullString) columns.

(** The body of [for rows.Next()] in [findMap]. *)
Definition findMap_body (K Y : TypeParam) (valueField : string)
    (keyIndex : nat) (valueIndex : option nat)
    (fieldsMapping : gmap string nat) (columns : list string)
    (row : Row) (result : gmap MapKey Value) : outcome (gmap MapKey Value) :=
  scanDest ← findMap_scanDest Y valueField fieldsMapping columns;
  scanDest' ← wrapErr "failed to scan row: " (Rows_Scan columns row scanDest);
  '(key, keyValid) ← findMap_key K (scanDest' !! keyIndex);
  if negb keyValid then Ok result
  else
    value ← findMap_value Y valueField valueIndex fieldsMapping columns scanDest';
    Ok (<[key := value]> result).

(** [findMap[T, Y](client, keyField, valueField, query, args...)]:
    [Ok None] is the return [(nil, nil)]. *)
Definition findMap (K Y : TypeParam) (client : MySQLClient)
    (keyField valueField query : string) (args : list DriverValue)
    : outcome (option (gmap MapKey Value)) :=
  if bool_decide (keyField = "") then Err "keyField cannot be empty"
  else
    stmt ← wrapErr "failed to prepare query: " (call (Prepare (DB client) query));
    rows ← wrapErr "failed to execute query: " (call (Stmt_Query stmt args));
    columns ← wrapErr "failed to get columns: " (Rows_Columns rows);
    let keyIndex := lastIndexOf keyField columns in
    let valueIndex :=
      if bool_decide (valueField = "") then None
      else lastIndexOf valueField columns in
    match keyIndex with
    | None => Err ("key field '" +:+ keyField +:+ "' not found in query results")
    | Some keyIndex =>
        if negb (bool_decide (valueField = "")) && negb (bool_decide (is_Some valueIndex))
        then Err ("value field '" +:+ valueField +:+ "' not found in query results")
        else
          let yType := reflect_Type Y in
          fieldsMapping ←
            (if bool_decide (Kind_of yType = reflect.Struct) then getFieldsMapping yType
             else Ok ∅);
          result ← for_rows_Next
                     (findMap_body K Y valueField keyIndex valueIndex
                        fieldsMapping columns)
                     (pending rows) ∅;
          match Rows_Err rows with
          | Some e => Err ("rows iteration error: " +:+ e)
          | None =>
              if bool_decide (size result = 0%nat) then Ok None
              else Ok (Some result)
          end
    end.

(** [findProcMap[T, Y](client, keyField, valueField, procName, args...)] *)
Definition findProcMap (K Y : TypeParam) (client : MySQLClient)
    (keyField valueField procName : string) (args : list DriverValue)
    : outcome (option (gmap MapKey Value)) :=
  findMap K Y client keyField valueField (procQuery procName args) args.

(** ** The write path *)

(** [Exec(query, args...)] *)
Definition Exec (client : MySQLClient) (query : string)
    (args : list DriverValue) : outcome bool :=
  stmt ← wrapErr "failed to prepare query: " (call (Prepare (DB client) query));
  result ← wrapErr "failed to execute query: " (call (Stmt_Exec stmt args));
  rowsAffected ← wrapErr "failed to get affected rows: " (call (RowsAffected result));
  Ok (0 <? rowsAffected).

(** [ExecFindLastId(query, args...)] *)
Definition ExecFindLastId (client : MySQLClient) (query : string)
    (args : list DriverValue) : outcome Z :=
  stmt ← wrapErr "failed to prepare query: " (call (Prepare (DB client) query));
  result ← wrapErr "failed to execute query: " (call (Stmt_Exec stmt args));
  lastId ← wrapErr "failed to get last insert id: " (call (LastInsertId result));
  Ok lastId.

(** ** Raw JSON projection *)

(** [IS_LIST_TYPE], an [int8]. *)
Definition HAS_ONE : Z := 1.
Definition HAS_LIST : Z := 2.

(** [rows.Scan(rowPointers...)] where every target is a [*any]: each
    column's driver value is stored as it is, so only the count of
    targets can be wrong. *)
Definition Rows_Scan_any (lastcols : Row) (targets : nat) : outcome (list DriverValue) :=
  if negb (targets =? length lastcols)%nat
  then Err ("sql: expected " +:+ pretty (length lastcols) +:+
            " destination arguments in Scan, not " +:+ pretty targets)
  else Ok lastcols.

(** [rowMap[col] = rowData[i]] for every column; a repeated column name
    keeps its last value. *)
Definition make_rowMap (columns : list string) (rowData : list DriverValue)
    : gmap string DriverValue :=
  fold_left
    (λ (rowMap : gmap string DriverValue) (c : string * DriverValue),
       <[fst c := snd c]> rowMap)
    (zip columns rowData) ∅.

(** The body of [for rows.Next()] in [ExecByte]. *)
Definition ExecByte_body (columns : list string) (row : Row)
    (resultData : option (list (gmap string DriverValue)))
    : outcome (option (list (gmap string DriverValue))) :=
  rowData ← wrapErr "failed to scan row: " (Rows_Scan_any row (length columns));
  Ok (append resultData (make_rowMap columns rowData)).

(** Object members are encoded in the order of their keys. *)
Definition key_le (a b : string * DriverValue) : Prop := String.le (fst a) (fst b).

Global Instance key_le_dec : RelDecision key_le.
Proof. intros a b. unfold key_le. apply _. Defined.

(** [json.Marshal] of a [map[string]any] holding driver values. *)
Definition json_Marshal_map (m : gmap string DriverValue) : outcome string :=
  members ← mapM (λ kv : string * DriverValue,
                    encoded ← call (json_value (snd kv));
                    Ok (json_key (fst kv) +:+ ":" +:+ encoded))
             (merge_sort key_le (map_to_list m));
  Ok ("{" +:+ String.concat "," members +:+ "}").

(** [json.Marshal] of a [[]map[string]any]; the nil slice encodes as
    the JSON value [null]. *)
Definition json_Marshal_slice (s : option (list (gmap string DriverValue)))
    : outcome string :=
  match s with
  | None => Ok "null"
  | Some maps =>
      elements ← mapM json_Marshal_map maps;
      Ok ("[" +:+ String.concat "," elements +:+ "]")
  end.

(** [ExecByte(query, isList, args...)] *)
Definition ExecByte (client : MySQLClient) (query : string) (isList : Z)
    (args : list DriverValue) : outcome string :=
  stmt ← wrapErr "failed to prepare query: " (call (Prepare (DB client) query));
  rows ← wrapErr "failed to execute query: " (call (Stmt_Query stmt args));
  columns ← wrapErr "failed to get columns: " (Rows_Columns rows);
  resultData ← for_rows_Next (ExecByte_body columns) (pending rows) None;
  match Rows_Err rows with
  | Some e => Err ("rows iteration error: " +:+ e)
  | None =>
      if bool_decide (isList = HAS_ONE) && (1 <=? len resultData)%nat then
        match head (default [] resultData) with
        | Some first =>
            wrapErr "failed to marshal single result data: "
              (json_Marshal_map first)
        | None => Panic "runtime error: index out of range [0]"
        end
      else
        wrapErr "failed to marshal result data: " (json_Marshal_slice resultData)
  end.

(** [ExecProcByte(procName, isList, args...)] *)
Definition ExecProcByte (client : MySQLClient) (procName : string) (isList : Z)
    (args : list DriverValue) : outcome string :=
  ExecByte client (procQuery procName args) isList args.

End Engine.

(** ** A reference runtime

    An implementation of [GoRuntime] on which the definitions can be
    run.  Integers, booleans, text and byte strings convert as
    [database/sql] and [encoding/json] convert them (for names and text
    without characters that need escaping).  The textual forms of
    floating-point numbers and of times are not covered: where Go would
    format one, this implementation answers with an error, or with the
    empty string where no error can be returned. *)
Module Reference.

Definition quote (s : string) : string :=
  String (ascii_of_nat 34) (s +:+ String (ascii_of_nat 34) EmptyString).

Fixpoint all_digits (s : string) : bool :=
  match s with
  | EmptyString => true
  | String c rest => is_digit c && all_digits rest
  end.

(** [strconv.ParseInt(s, 10, 64)] *)
Definition ParseInt (s : string) : option Z :=
  let '(negative, digits) :=
    match s with
    | String "-" rest => (true, rest)
    | String "+" rest => (false, rest)
    | _ => (false, s)
    end in
  match digits with
  | EmptyString => None
  | _ =>
      if all_digits digits then
        let magnitude := scanNumber 0 digits in
        let i := if negative then - magnitude else magnitude in
        if (- 2 ^ 63 <=? i) && (i <=? 2 ^ 63 - 1) then Some i else None
      else None
  end.

Definition ref_asString (src : DriverValue) : string :=
  match src with
  | DBytes s | DString s => s
  | DInt64 i => pretty i
  | DBool b => if b then "true" else "false"
  | _ => ""
  end.

Definition ref_asInt64 (src : DriverValue) : string + Z :=
  let invalid (type_ text : string) : string + Z :=
    inl ("converting driver.Value type " +:+ type_ +:+ " (" +:+ quote text +:+
         ") to a int64: invalid syntax") in
  match src with
  | DInt64 i => inr i
  | DBytes s =>
      match ParseInt s with
      | Some i => inr i
      | None => invalid "[]uint8" s
      end
  | DString s =>
      match ParseInt s with
      | Some i => inr i
      | None => invalid "string" s
      end
  | DBool b => invalid "bool" (if b then "true" else "false")
  | _ => inl "converting driver.Value to a int64: not covered"
  end.

Definition ref_asFloat64 (src : DriverValue) : string + float64 :=
  match src with
  | DFloat64 f => inr f
  | DInt64 i => inr (binary_normalize 53 1024 i 0 false)
  | _ => inl "converting driver.Value to a float64: not covered"
  end.

(** [strconv.ParseBool] *)
Definition ParseBool (s : string) : option bool :=
  if bool_decide (s ∈ ["1"; "t"; "T"; "TRUE"; "true"; "True"]) then Some true
  else if bool_decide (s ∈ ["0"; "f"; "F"; "FALSE"; "false"; "False"])
  then Some false
  else None.

Definition ref_asBool (src : DriverValue) : string + bool :=
  let refused (text : string) : string + bool :=
    inl ("sql/driver: couldn't convert " +:+ text +:+ " into type bool") in
  match src with
  | DBool b => inr b
  | DInt64 1 => inr true
  | DInt64 0 => inr false
  | DInt64 i => refused (pretty i)
  | DBytes s | DString s =>
      match ParseBool s with
      | Some b => inr b
      | None => refused (quote s)
      end
  | _ => inl "sql/driver: couldn't convert the value into type bool"
  end.

(** A destination of another type takes the driver value as it is, and
    refuses NULL. *)
Definition ref_scanCustom (t : GoType) (old : Value) (src : DriverValue)
    : string + Value :=
  match src with
  | DNull => inl "unsupported Scan, storing driver.Value type <nil>"
  | _ => inr (VOther src)
  end.

(** Base64, the JSON encoding of a [[]byte]. *)
Definition base64_char (n : N) : ascii :=
  if (n <? 26)%N then ascii_of_N (65 + n)
  else if (n <? 52)%N then ascii_of_N (97 + (n - 26))
  else if (n <? 62)%N then ascii_of_N (48 + (n - 52))
  else if (n =? 62)%N then "+"%char
  else "/"%char.

Fixpoint base64 (s : string) : string :=
  match s with
  | EmptyString => ""
  | String a EmptyString =>
      let n := (N_of_ascii a * 65536)%N in
      String (base64_char (n / 262144))
        (String (base64_char (n / 4096 mod 64)) "==")
  | String a (String b EmptyString) =>
      let n := (N_of_ascii a * 65536 + N_of_ascii b * 256)%N in
      String (base64_char (n / 262144))
        (String (base64_char (n / 4096 mod 64))
           (String (base64_char (n / 64 mod 64)) "="))
  | String a (String b (String c rest)) =>
      let n := (N_of_ascii a * 65536 + N_of_ascii b * 256 + N_of_ascii c)%N in
      String (base64_char (n / 262144))
        (String (base64_char (n / 4096 mod 64))
           (String (base64_char (n / 64 mod 64))
              (String (base64_char (n mod 64)) (base64 rest))))
  end.

Definition ref_json_value (v : DriverValue) : string + string :=
  match v with
  | DNull => inr "null"
  | DInt64 i => inr (pretty i)
  | DBool b => inr (if b then "true" else "false")
  | DString s => inr (quote s)
  | DBytes s => inr (quote (base64 s))
  | _ => inl "json: not covered"
  end.

Global Instance runtime : GoRuntime := {|
  asString := ref_asString;
  asInt64 := ref_asInt64;
  asFloat64 := ref_asFloat64;
  asBool := ref_asBool;
  scanCustom := ref_scanCustom;
  strconv_Quote := quote;
  json_value := ref_json_value;
  json_key := quote;
|}.

(** A statement that answers with the given cursor, and a client whose
    every query text prepares to it. *)
Definition stmt_returning (rows : Rows) : Stmt :=
  {| Stmt_Query := λ _, inr rows;
     Stmt_Exec := λ _, inl "not a write statement" |}.

Definition client_returning (rows : Rows) : MySQLClient :=
  {| DB := {| Prepare := λ _, inr (stmt_returning rows) |}; debug := false |}.

(** A statement that reports [n] affected rows, and its client. *)
Definition result_affecting (n : Z) : SqlResult :=
  {| RowsAffected := inr n; LastInsertId := inr 0 |}.

Definition stmt_affecting (n : Z) : Stmt :=
  {| Stmt_Query := λ _, inl "not a query";
     Stmt_Exec := λ _, inr (result_affecting n) |}.

Definition client_affecting (n : Z) : MySQLClient :=
  {| DB := {| Prepare := λ _, inr (stmt_affecting n) |}; debug := false |}.

(** A cursor over one result set. *)
Definition one_set (cols : list string) (rows : list Row) : Rows :=
  {| columns_err := None; columns := cols; pending := rows;
     lasterr := None; nextSets := [] |}.

End Reference.

(** * Notions used in the statements *)

Section Notions.
Context `{GoRuntime}.

(** The NULL policy in the words of the specification: per kind of
    destination field, the value a NULL column is to leave in it. *)
Definition spec_null_value (k : Kind) : option Value :=
  match k with
  | reflect.String => Some (VString "")
  | reflect.Float32 | reflect.Float64 => Some (VFloat (S754_zero false))
  | reflect.Bool => Some (VBool false)
  | reflect.Int | reflect.Int8 | reflect.Int16 | reflect.Int32
  | reflect.Int64 => Some (VInt 0)
  | reflect.Uint | reflect.Uint8 | reflect.Uint16 | reflect.Uint32
  | reflect.Uint64 => Some (VUint 0)
  | _ => None
  end.

(** A scan target is allocated once per query and overwritten by every
    row: its state when a row arrives is what the rows before left. *)
Fixpoint scan_history (scanner : Scanner) (history : list DriverValue)
    : string + Scanner :=
  match history with
  | [] => inr scanner
  | src :: later =>
      match convertAssign scanner src with
      | inl e => inl e
      | inr scanner' => scan_history scanner' later
      end
  end.

(** Two scan targets of the same Go type. *)
Definition same_target (a b : Scanner) : Prop :=
  match a, b with
  | NullString _ _, NullString _ _ => True
  | NullInt64 _ _, NullInt64 _ _ => True
  | NullFloat64 _ _, NullFloat64 _ _ => True
  | NullBool _ _, NullBool _ _ => True
  | PtrTo t _, PtrTo t' _ => t = t'
  | _, _ => False
  end.

(** What a successful run of [scanRows] went through: every step
    before the final assignment succeeded, on every row. *)
Definition scanRows_succeeded (rows : Rows) (sliceElemType : GoType)
    (results : list Value) : Prop :=
  ∃ fieldsMapping scanDest scanDest',
    columns_err rows = None ∧
    getFieldsMapping sliceElemType = Ok fieldsMapping ∧
    make_scanDest sliceElemType fieldsMapping (columns rows) = Ok scanDest ∧
    for_rows_Next (scanRows_body sliceElemType fieldsMapping (columns rows))
      (pending rows) (scanDest, []) = Ok (scanDest', results) ∧
    lasterr rows = None ∧
    length results = length (pending rows).

(** The scan target a column is entitled to: the adapter of the field
    it is mapped to, or a [sql.NullString]. *)
Definition target_for (t : GoType) (fieldsMapping : gmap string nat)
    (col : string) (scanner : Scanner) : Prop :=
  match fieldsMapping !! col with
  | Some i => ∃ fieldType,
      Type_Field t i = Ok fieldType ∧
      same_target (createNullScanner fieldType) scanner
  | None => same_target new_NullString scanner
  end.





(** The fields of one item set, column by column, from the scan targets
    of a row: [fields_set t mapping cols targets item item'] holds when
    every column mapped to a field had that field set without error,
    in the order of the columns, and [item'] is the item after it. *)
Inductive fields_set (t : GoType) (mapping : gmap string nat)
    : list string → list Scanner → Value → Value → Prop :=
  | fields_set_done targets item :
      fields_set t mapping [] targets item item
  | fields_set_unmapped col cols target targets item item' :
      mapping !! col = None →
      fields_set t mapping cols targets item item' →
      fields_set t mapping (col :: cols) (target :: targets) item item'
  | fields_set_mapped col cols target targets item item' i field fieldType v :
      mapping !! col = Some i →
      Value_Field item i = Ok field →
      Type_Field t i = Ok fieldType →
      setFieldFromNullScanner field target fieldType = Ok v →
      fields_set t mapping cols targets (Value_SetField item i v) item' →
      fields_set t mapping (col :: cols) (target :: targets) item item'.

(** The rows that went through: [materialised t mapping cols targets
    rows targets' items] holds when each of [rows], in order, was
    scanned into the targets the row before it left and had the fields
    of a fresh item set from them, all without error; [items] are the
    items made, one per row, and [targets'] the targets after the last
    row. *)
Inductive materialised (t : GoType) (mapping : gmap string nat)
    (cols : list string)
    : list Scanner → list Row → list Scanner → list Value → Prop :=
  | materialised_none targets :
      materialised t mapping cols targets [] targets []
  | materialised_row targets row targets' item rows targets'' items :
      Rows_Scan cols row targets = Ok targets' →
      fields_set t mapping cols targets' (zero_value t) item →
      materialised t mapping cols targets' rows targets'' items →
      materialised t mapping cols targets (row :: rows) targets'' (item :: items).

(** The element a non-NULL driver value becomes. *)
Definition convert_elem (T : ElemType) (v : DriverValue) : string + Value :=
  match T with
  | T_int64 =>
      match asInt64 v with
      | inl e => inl e
      | inr i => inr (VInt i)
      end
  | T_string => inr (VString (asString v))
  end.

(** What a row contributes to the array: nothing when the named column
    is NULL, its converted value otherwise. *)
Definition kept_value (T : ElemType) (fieldIndex : nat) (row : Row) : option Value :=
  match row !! fieldIndex with
  | Some DNull => None
  | Some v =>
      match convert_elem T v with
      | inr x => Some x
      | inl _ => None
      end
  | None => None
  end.

(** A row that [Scan] accepts: one value per column, and a named column
    that is NULL or converts to [T]. *)
Definition row_scans (T : ElemType) (fieldIndex ncols : nat) (row : Row) : Prop :=
  length row = ncols ∧
  ∀ v, row !! fieldIndex = Some v → v ≠ DNull → ∃ x, convert_elem T v = inr x.

(** [nil] for no element, the slice otherwise. *)
Definition nil_if_empty {A} (l : list A) : option (list A) :=
  match l with
  | [] => None
  | _ => Some l
  end.

(** The list output in the words of the specification: a JSON array of
    the row objects, possibly empty. *)
Definition spec_json_array (objects : list string) : string :=
  "[" +:+ String.concat "," objects +:+ "]".

(** With a value column named, every scan target is a
    [sql.NullString]: keys and values arrive as text. *)
Definition scan_text (v : DriverValue) : Scanner :=
  match v with
  | DNull => NullString "" false
  | _ => NullString (asString v) true
  end.

(** The key a textual, non-NULL key column yields. *)
Definition text_key (K : TypeParam) (s : string) : MapKey :=
  match K with
  | P_string => KeyStr s
  | P_int64 =>
      match Sscanf_d s with
      | Some val => KeyInt val
      | None => KeyInt 0
      end
  | P_other _ => KeyZero
  end.

(** The value a textual value column yields. *)
Definition text_value (Y : TypeParam) (v : DriverValue) : Value :=
  match v with
  | DNull => zero_value (reflect_Type Y)
  | _ =>
      match Y with
      | P_string => VString (asString v)
      | P_int64 =>
          match Sscanf_d (asString v) with
          | Some val => VInt val
          | None => zero_value (reflect_Type Y)
          end
      | P_other _ => zero_value (reflect_Type Y)
      end
  end.

(** What one row does to the map when a value column is named. *)
Definition findMap_text_row (K Y : TypeParam) (keyIndex valueIndex : nat)
    (result : gmap MapKey Value) (row : Row) : gmap MapKey Value :=
  match row !! keyIndex with
  | Some DNull | None => result
  | Some kv =>
      <[text_key K (asString kv) :=
          text_value Y (default DNull (row !! valueIndex))]> result
  end.





(** A cursor over the current result set cut down to one row. *)
Definition only_row (rows : Rows) (row : Row) : Rows :=
  {| columns_err := columns_err rows; columns := columns rows;
     pending := [row]; lasterr := None; nextSets := nextSets rows |}.

(** A field whose scan target is one of the [sql.Null*] structs. *)
Definition null_scanned (fieldType : GoType) : Prop :=
  is_Some (spec_null_value (Kind_of fieldType)).

(** A scan target that keeps nothing of the row before: [Scan]
    overwrites both members of a [sql.Null*] struct. *)
Definition stateless (scanner : Scanner) : Prop :=
  match scanner with
  | PtrTo _ _ => False
  | _ => True
  end.

(** What a row offers for the key [k] when a value column is named:
    its value, when its key column is not NULL and reads as [k]. *)
Definition findMap_text_entry (K Y : TypeParam) (keyIndex valueIndex : nat)
    (k : MapKey) (row : Row) : option Value :=
  match row !! keyIndex with
  | Some DNull | None => None
  | Some kv =>
      if bool_decide (text_key K (asString kv) = k)
      then Some (text_value Y (default DNull (row !! valueIndex)))
      else None
  end.

(** A text that does not go on with a decimal digit. *)
Definition no_digit_ahead (s : string) : Prop :=
  match s with
  | String c _ => is_digit c = false
  | EmptyString => True
  end.

End Notions.

(** ** Sample types and data *)

(** A record type with a signed, a textual and an unsigned column, and
    a field without [db] tag. *)
Definition example_User : GoType :=
  TStruct "User"
    [("id", TBasic reflect.Int64); ("name", TBasic reflect.String);
     ("age", TBasic reflect.Uint8); ("", TBasic reflect.Int)].

Definition example_Stats : GoType :=
  TStruct "Stats" [("total", TBasic reflect.Int)].

Definition example_Summary : GoType :=
  TStruct "Summary" [("summary", TBasic reflect.String)].


Definition example_store : gmap nat Value :=
  {[0%nat := VSlice None;
    1%nat := VStruct [VInt 0];
    2%nat := VStruct [VString "untouched"]]}.

Definition example_users_set : ResultSet :=
  {| rs_columns_err := None; rs_columns := ["id"; "name"];
     rs_rows := [[DInt64 1; DBytes "John"]; [DInt64 2; DNull]];
     rs_err := None |}.

Definition example_total_set : ResultSet :=
  {| rs_columns_err := None; rs_columns := ["total"];
     rs_rows := [[DInt64 2]]; rs_err := None |}.

Definition example_summary_set : ResultSet :=
  {| rs_columns_err := None; rs_columns := ["summary"];
     rs_rows := [[DBytes "fine"]]; rs_err := None |}.

(** Cursors and clients the statements are tried on. *)
Definition empty_users : Rows :=
  Reference.one_set ["id"; "name"; "age"] [].

Definition empty_users_client : MySQLClient :=
  Reference.client_returning empty_users.

Definition kept_user : Value :=
  VStruct [VInt 7; VString "kept"; VUint 30; VInt 1].


Definition null_id : Rows := Reference.one_set ["id"] [[DNull]].

Definition null_id_client : MySQLClient := Reference.client_returning null_id.

Definition no_change_client : MySQLClient := Reference.client_affecting 0.

Definition null_scores : Rows :=
  Reference.one_set ["id"; "score"] [[DInt64 1; DNull]; [DInt64 3; DNull]].

Definition null_scores_client : MySQLClient :=
  Reference.client_returning null_scores.

Definition two_users : Rows :=
  Reference.one_set ["id"; "name"]
    [[DInt64 1; DString "John"]; [DInt64 2; DString "Jane"]].

Definition two_users_client : MySQLClient :=
  Reference.client_returning two_users.

Definition names_cities : Rows :=
  Reference.one_set ["name"; "city"]
    [[DBytes "7"; DBytes "Oslo"]; [DBytes "abc"; DBytes "Rome"]].

Definition names_cities_client : MySQLClient :=
  Reference.client_returning names_cities.

Definition one_bad_key_client : MySQLClient :=
  Reference.client_returning
    (Reference.one_set ["name"; "city"] [[DBytes "abc"; DBytes "Rome"]]).

Definition users_only : Rows := Rows_open example_users_set [].


Definition four_sets : Rows :=
  Rows_open example_users_set
    [example_total_set; example_summary_set; example_summary_set].

(** The type mapping of [example_User]. *)
Definition example_User_mapping : gmap string nat :=
  {["id" := 0%nat; "name" := 1%nat; "age" := 2%nat]}.

Definition john_row : Row := [DInt64 1; DString "John"].

Definition john_only_client : MySQLClient :=
  Reference.client_returning (only_row two_users john_row).

Definition zero_user_store : gmap nat Value :=
  {[3%nat := zero_value example_User]}.

Definition kept_user_store : gmap nat Value := {[3%nat := kept_user]}.

(** Single-column results: no row, and the text of a number. *)
Definition no_id : Rows := Reference.one_set ["id"] [].

Definition no_id_client : MySQLClient := Reference.client_returning no_id.

Definition seven_id_client : MySQLClient :=
  Reference.client_returning (Reference.one_set ["id"] [[DBytes "7"]]).

Definition counter_store : gmap nat Value := {[5%nat := VInt 42]}.

Definition users_only_client : MySQLClient :=
  Reference.client_returning users_only.

(** A key that comes twice, and a key column that is NULL. *)
Definition repeated_key : Rows :=
  Reference.one_set ["code"; "city"]
    [[DBytes "a"; DBytes "Oslo"]; [DBytes "b"; DBytes "Rome"];
     [DBytes "a"; DBytes "Bern"]].

Definition repeated_key_client : MySQLClient :=
  Reference.client_returning repeated_key.

Definition null_key : Rows :=
  Reference.one_set ["code"; "city"] [[DNull; DBytes "Oslo"]].

Definition null_key_client : MySQLClient := Reference.client_returning null_key.

(** A record keyed by a floating-point column. *)
Definition example_Price : GoType :=
  TStruct "Price" [("price", TBasic reflect.Float64); ("label", TBasic reflect.String)].

Definition example_Price_mapping : gmap string nat :=
  {["price" := 0%nat; "label" := 1%nat]}.

Definition prices : Rows :=
  Reference.one_set ["price"; "label"]
    [[DFloat64 (S754_finite false 3 (-1)); DBytes "cheap"]].

Definition prices_client : MySQLClient := Reference.client_returning prices.

(** ** Tactics for literal column lists *)

(** Membership in a literal list of columns, column by column. *)
Ltac each_column Hcol :=
  repeat (apply elem_of_cons in Hcol as [->|Hcol]; [by vm_compute|]);
  by apply elem_of_nil in Hcol.

(** A name that is none of a literal list of columns. *)
Ltac not_a_column :=
  let Hin := fresh "Hin" in
  intros Hin;
  repeat (apply elem_of_cons in Hin as [Hin|Hin]; [discriminate Hin|]);
  by apply elem_of_nil in Hin.

(** * Lemmas on outcomes *)

Lemma bind_Ok_inv {A B} (m : outcome A) (f : A → outcome B) (b : B) :
  m ≫= f = Ok b → ∃ a, m = Ok a ∧ f a = Ok b.
Proof. destruct m as [a| |]; [by exists a|done..]. Qed.

Lemma bind_Ok {A B} (a : A) (f : A → outcome B) : Ok a ≫= f = f a.
Proof. done. Qed.

Lemma wrapErr_Ok_inv {A} (prefix : string) (m : outcome A) (a : A) :
  wrapErr prefix m = Ok a → m = Ok a.
Proof. by destruct m. Qed.

(** * Properties of the NULL-safe scan adapter *)

Section Adapter.
Context `{GoRuntime}.

Lemma same_target_trans a b c :
  same_target a b → same_target b c → same_target a c.
Proof. destruct a, b, c; simpl; try tauto; congruence. Qed.

Lemma convertAssign_same_target dest src dest' :
  convertAssign dest src = inr dest' → same_target dest dest'.
Proof.
  destruct dest; simpl; intros Hscan;
    repeat case_match; simplify_eq; done.
Qed.

Lemma scan_history_same_target history : ∀ scanner scanner',
  scan_history scanner history = inr scanner' → same_target scanner scanner'.
Proof.
  induction history as [|src later IH]; simpl; intros scanner scanner' Hscan.
  - simplify_eq. destruct scanner'; done.
  - destruct (convertAssign scanner src) as [e|mid] eqn:Hstep; [done|].
    eapply same_target_trans; [by eapply convertAssign_same_target|by apply IH].
Qed.

(** C1. For a destination field of string, float, bool, signed or
    unsigned integer kind, the scan target made by [createNullScanner],
    in whatever state earlier rows left it, accepts a SQL NULL without
    error, and [setFieldFromNullScanner] then stores the zero value of
    the field's kind: the empty string, 0.0, false, 0. *)
Theorem null_column_sets_zero_value
    (fieldType : GoType) (field : Value) (history : list DriverValue)
    (scanner : Scanner) (v : Value) :
  spec_null_value (Kind_of fieldType) = Some v →
  scan_history (createNullScanner fieldType) history = inr scanner →
  ∃ scanner',
    convertAssign scanner DNull = inr scanner' ∧
    setFieldFromNullScanner field scanner' fieldType = Ok v ∧
    v = zero_value fieldType.
Proof.
  intros Hspec Hhist.
  apply scan_history_same_target in Hhist.
  destruct fieldType as [k| | |]; simpl in Hspec; try discriminate.
  unfold createNullScanner in Hhist; simpl in Hhist.
  destruct k; simpl in Hspec; try discriminate; simplify_eq;
    destruct scanner; simpl in Hhist; try contradiction;
    (eexists; split; [reflexivity|split; reflexivity]).
Qed.

(** C7. A valid negative value held by the integer scan target is never
    stored in a field of unsigned-integer kind: the set fails with an
    error, whatever the field held before. *)
Theorem negative_into_unsigned_is_error
    (fieldType : GoType) (field : Value) (i : Z) :
  is_unsigned (Kind_of fieldType) = true →
  i < 0 →
  setFieldFromNullScanner field (NullInt64 i true) fieldType
  = Err "cannot convert negative value to unsigned type".
Proof.
  intros Hkind Hneg. unfold setFieldFromNullScanner.
  rewrite Hkind.
  destruct (is_signed (Kind_of fieldType)) eqn:Hsigned.
  { destruct (Kind_of fieldType); discriminate. }
  by rewrite (proj2 (Z.ltb_lt i 0) Hneg).
Qed.

End Adapter.

Lemma null_column_sets_zero_value_witness :
  spec_null_value (Kind_of (TBasic reflect.Float32)) = Some (VFloat (S754_zero false)) ∧
  scan_history (createNullScanner (TBasic reflect.Float32))
    [DFloat64 (S754_finite false 3 (-1)); DNull; DInt64 0]
  = inr (NullFloat64 float_zero true) ∧
  ∃ scanner',
    convertAssign (NullFloat64 float_zero true) DNull = inr scanner' ∧
    setFieldFromNullScanner (VFloat (S754_finite false 3 (-1))) scanner'
      (TBasic reflect.Float32) = Ok (VFloat (S754_zero false)) ∧
    VFloat (S754_zero false) = zero_value (TBasic reflect.Float32).
Proof.
  split; [reflexivity|]. split; [reflexivity|].
  apply (null_column_sets_zero_value (TBasic reflect.Float32)
           (VFloat (S754_finite false 3 (-1)))
           [DFloat64 (S754_finite false 3 (-1)); DNull; DInt64 0]);
    reflexivity.
Defined.

Lemma negative_into_unsigned_is_error_witness :
  is_unsigned (Kind_of (TBasic reflect.Uint8)) = true ∧ -1 < 0 ∧
  setFieldFromNullScanner (VUint 7) (NullInt64 (-1) true) (TBasic reflect.Uint8)
  = Err "cannot convert negative value to unsigned type".
Proof.
  split; [reflexivity|]. split; [lia|].
  apply (negative_into_unsigned_is_error (TBasic reflect.Uint8) (VUint 7) (-1));
    [reflexivity|lia].
Defined.

(** * Properties of the row materialiser *)

Section Materialiser.
Context `{GoRuntime}.

(** Every index in the type mapping is the position of a field. *)
Lemma getFieldsMapping_in_range t mapping col i :
  getFieldsMapping t = Ok mapping →
  mapping !! col = Some i →
  ∃ fields f, struct_fields t = Ok fields ∧ fields !! i = Some f.
Proof.
  unfold getFieldsMapping.
  destruct (struct_fields t) as [fields| |] eqn:Hfields; simpl; try done.
  intros Hmap Hcol. simplify_eq. exists fields.
  cut (∃ f, (imap pair fields : list (nat * (string * GoType))) !! i = Some (i, f)).
  { intros [f Hf]. exists f. rewrite list_lookup_imap in Hf.
    destruct (fields !! i); simplify_eq/=; done. }
  revert Hcol.
  cut (∀ (l : list (nat * (string * GoType))) (acc : gmap string nat),
         (∀ c j, acc !! c = Some j → ∃ f, (imap pair fields : list _) !! j = Some (j, f)) →
         (∀ x, x ∈ l → (imap pair fields : list _) !! (fst x) = Some x) →
         ∀ c j,
           fold_left
             (λ (mapping : gmap string nat) (f : nat * (string * GoType)),
                let dbTag := fst (snd f) in
                if bool_decide (dbTag = "") then mapping else <[dbTag := fst f]> mapping)
             l acc !! c = Some j →
           ∃ f, (imap pair fields : list _) !! j = Some (j, f)).
  { intros Hgen. apply (Hgen _ ∅).
    - intros c j. by rewrite lookup_empty.
    - intros [j f] [k Hk]%list_elem_of_lookup.
      rewrite list_lookup_imap in Hk.
      destruct (fields !! k) eqn:Hfk; simplify_eq/=.
      by rewrite list_lookup_imap Hfk. }
  induction l as [|[j [tag ft]] l IH]; simpl; intros acc Hacc Hl c k.
  - apply Hacc.
  - apply IH.
    + intros c' j'. case_bool_decide; [apply Hacc|].
      destruct (decide (tag = c')) as [->|Hne].
      * rewrite lookup_insert_eq. intros ?; simplify_eq.
        exists (c', ft). apply (Hl (j', (c', ft))). by left.
      * rewrite lookup_insert_ne //. apply Hacc.
    + intros x Hx. apply Hl. by right.
Qed.

(** The loop of [scanRows] appends one item per row. *)
Lemma scanRows_loop_length t mapping cols rows : ∀ scanDest results scanDest' results',
  for_rows_Next (scanRows_body t mapping cols) rows (scanDest, results)
  = Ok (scanDest', results') →
  length results' = (length results + length rows)%nat.
Proof.
  induction rows as [|row rows IH]; cbn [for_rows_Next];
    intros sd acc sd' acc' Hloop.
  - simplify_eq. simpl. lia.
  - apply bind_Ok_inv in Hloop as ([sd1 acc1] & Hbody & Hloop).
    apply IH in Hloop. rewrite Hloop.
    unfold scanRows_body in Hbody.
    apply bind_Ok_inv in Hbody as (sd2 & _ & Hbody).
    destruct (setColumns _ _ _ _ _) as [[[]| |] item]; simplify_eq.
    rewrite length_app /=. lia.
Qed.

Lemma scanRows_results_succeeded rows t results :
  scanRows_results rows t = Ok results → scanRows_succeeded rows t results.
Proof.
  unfold scanRows_results, Rows_Columns, Rows_Err.
  destruct (columns_err rows) as [e|] eqn:Hcols; simpl; [done|].
  destruct (getFieldsMapping t) as [mapping| |] eqn:Hmap; simpl; try done.
  destruct (make_scanDest t mapping (columns rows)) as [sd| |] eqn:Hsd;
    simpl; try done.
  destruct (for_rows_Next _ _ _) as [[sd' acc]| |] eqn:Hloop; simpl; try done.
  destruct (lasterr rows) eqn:Herr; [done|]. intros ?; simplify_eq.
  exists mapping, sd, sd'. repeat split; try done.
  by apply scanRows_loop_length in Hloop.
Qed.


Lemma struct_fields_of_struct t :
  Kind_of t = reflect.Struct → ∃ fields, struct_fields t = Ok fields.
Proof. destruct t as [[]| | |]; simpl; try done; eauto. Qed.

Lemma same_target_refl scanner : same_target scanner scanner.
Proof. by destruct scanner. Qed.

Lemma columnScanner_ok t mapping col :
  getFieldsMapping t = Ok mapping →
  ∃ scanner, columnScanner t mapping col = Ok scanner ∧
             target_for t mapping col scanner.
Proof.
  intros Hmap. unfold columnScanner, target_for.
  destruct (mapping !! col) as [i|] eqn:Hcol.
  - destruct (getFieldsMapping_in_range _ _ _ _ Hmap Hcol)
      as (fields & f & Hfields & Hi).
    unfold Type_Field. rewrite Hfields /= Hi /=.
    eexists. split; [done|]. eexists. split; [done|]. apply same_target_refl.
  - eexists. split; [done|]. done.
Qed.

Lemma make_scanDest_ok t mapping cols :
  getFieldsMapping t = Ok mapping →
  ∃ scanDest, make_scanDest t mapping cols = Ok scanDest ∧
              Forall2 (target_for t mapping) cols scanDest.
Proof.
  intros Hmap. unfold make_scanDest.
  induction cols as [|col cols (scanDest & Hrest & Hall)]; simpl.
  - exists []. by split.
  - destruct (columnScanner_ok t mapping col Hmap) as (scanner & -> & Htarget).
    simpl. rewrite Hrest /=. exists (scanner :: scanDest). split; [done|].
    by constructor.
Qed.

Lemma prepare_scan_ok rows t :
  Kind_of t = reflect.Struct →
  columns_err rows = None →
  ∃ mapping scanDest,
    prepare_scan rows t = Ok (columns rows, mapping, scanDest) ∧
    getFieldsMapping t = Ok mapping ∧
    Forall2 (target_for t mapping) (columns rows) scanDest.
Proof.
  intros [fields Hfields]%struct_fields_of_struct Hcols.
  unfold prepare_scan, Rows_Columns. rewrite Hcols /=.
  assert (∃ mapping, getFieldsMapping t = Ok mapping) as [mapping Hmap].
  { unfold getFieldsMapping. rewrite Hfields /=. eauto. }
  destruct (make_scanDest_ok t mapping (columns rows) Hmap) as (sd & Hsd & Hall).
  exists mapping, sd. by rewrite Hmap /= Hsd /=.
Qed.

(** C8. [First] on a query that yields no row returns [found = false]
    without error and leaves the store, hence every field of the
    caller's struct, as it was. *)
Theorem First_no_row_keeps_destination
    (client : MySQLClient) (structType : GoType) (l : nat) (query : string)
    (args : list DriverValue) (store : gmap nat Value)
    (stmt : Stmt) (rows : Rows) :
  Kind_of structType = reflect.Struct →
  Prepare (DB client) query = inr stmt →
  Stmt_Query stmt args = inr rows →
  columns_err rows = None →
  pending rows = [] →
  First client (AnyPtr structType (Some l)) query args store = (Ok false, store).
Proof.
  intros Hkind Hprep Hquery Hcols Hrows.
  unfold First. simpl. rewrite Hkind /= Hprep Hquery.
  destruct (prepare_scan_ok rows structType Hkind Hcols)
    as (mapping & scanDest & -> & _ & _).
  unfold Rows_Next. by rewrite Hrows.
Qed.

End Materialiser.

Lemma First_no_row_keeps_destination_witness :
  Kind_of example_User = reflect.Struct ∧
  columns_err empty_users = None ∧
  pending empty_users = [] ∧
  First empty_users_client (AnyPtr example_User (Some 3%nat)) "SELECT * FROM users WHERE id = ?"
    [DInt64 999] {[3%nat := kept_user]}
  = (Ok false, {[3%nat := kept_user]}).
Proof.
  split; [reflexivity|]. split; [reflexivity|]. split; [reflexivity|].
  apply (First_no_row_keeps_destination empty_users_client example_User 3
           "SELECT * FROM users WHERE id = ?" [DInt64 999] {[3%nat := kept_user]}
           (Reference.stmt_returning empty_users) empty_users);
    reflexivity.
Defined.

(** * Failure in the materialiser

    A record element type never makes the materialiser panic, and each
    step that fails makes the call fail. *)


Lemma GoType_eqb_eq : ∀ a b, GoType_eqb a b = true → a = b.
Proof.
  fix IH 1.
  intros [k1|a'|a'|n1 f1] [k2|b'|b'|n2 f2]; simpl; try done.
  - intros Hk%bool_decide_eq_true. by subst.
  - intros Hab%IH. by subst.
  - intros Hab%IH. by subst.
  - intros [Hn Hf]%andb_true_iff. apply bool_decide_eq_true in Hn. subst.
    f_equal. revert f2 Hf.
    induction f1 as [|[tag1 t1] f1 IHf]; intros [|[tag2 t2] f2]; try done.
    intros [[Htag Ht]%andb_true_iff Hr]%andb_true_iff.
    apply bool_decide_eq_true in Htag. apply IH in Ht. apply IHf in Hr.
    by subst.
Qed.

(** The memo table is transparent: from a consistent table, the cached
    call answers as [getFieldsMapping] does and leaves a consistent
    table; the table [Conn] creates is empty, hence consistent. *)
Lemma getFieldsMapping_cached_refines fields t :
  fields_consistent fields →
  fst (getFieldsMapping_cached fields t) = getFieldsMapping t ∧
  fields_consistent (snd (getFieldsMapping_cached fields t)).
Proof.
  intros Hfields. unfold getFieldsMapping_cached.
  destruct (fields_lookup fields t) as [mapping|] eqn:Hhit.
  - split; [symmetry; by apply Hfields|done].
  - destruct (getFieldsMapping t) as [mapping| |] eqn:Hmap; try done.
    split; [done|].
    intros t' mapping' Hlook. simpl in Hlook.
    destruct (GoType_eqb t t') eqn:Heq; [|by apply Hfields].
    apply GoType_eqb_eq in Heq. by simplify_eq.
Qed.

Lemma fields_consistent_nil : fields_consistent [].
Proof. by intros t mapping. Qed.

Section NoPanic.
Context `{GoRuntime}.



Lemma scan_columns_same_target cols : ∀ lastcols index dest,
  length dest = length lastcols →
  match scan_columns index cols lastcols dest with
  | Ok dest' => Forall2 same_target dest dest'
  | Err _ => True
  | Panic _ => False
  end.
Proof.
  induction lastcols as [|sv svs IH]; intros index [|d ds] Hlen;
    simpl in *; try done.
  destruct (convertAssign d sv) as [e|d'] eqn:Hd; [done|].
  specialize (IH (S index) ds ltac:(lia)).
  destruct (scan_columns (S index) cols svs ds) as [ds'| |]; simpl; try done.
  constructor; [by eapply convertAssign_same_target|done].
Qed.

Lemma Rows_Scan_same_target cols row dest :
  match Rows_Scan cols row dest with
  | Ok dest' => Forall2 same_target dest dest'
  | Err _ => True
  | Panic _ => False
  end.
Proof.
  unfold Rows_Scan.
  destruct (length dest =? length row)%nat eqn:Hlen; simpl; [|done].
  apply scan_columns_same_target. by apply Nat.eqb_eq.
Qed.








(** ** The steps of the materialiser, one by one *)







Lemma materialised_length t mapping cols targets rows targets' items :
  materialised t mapping cols targets rows targets' items →
  length items = length rows.
Proof. induction 1; simpl; [done|by f_equal]. Qed.



End NoPanic.


(** A second row that does not scan: the call fails, the first row's
    item is dropped with the rest, and the slice stays as it was. *)
Example Find_row_scan_failure :
  ∃ e,
    Find (Reference.client_returning
            (Reference.one_set ["id"; "name"]
               [[DInt64 1; DBytes "John"]; [DBytes "x"; DBytes "Jane"]]))
      (AnyPtr (TSlice example_User) (Some 0%nat))
      "SELECT id, name FROM users" [] example_store
    = (Err ("failed to scan row: " +:+ e), example_store).
Proof. eexists. vm_compute. reflexivity. Qed.

(** A negative age cannot be set in the unsigned field: same outcome. *)
Example Find_field_set_failure :
  Find (Reference.client_returning
          (Reference.one_set ["id"; "age"]
             [[DInt64 1; DInt64 30]; [DInt64 2; DInt64 (-1)]]))
    (AnyPtr (TSlice example_User) (Some 0%nat))
    "SELECT id, age FROM users" [] example_store
  = (Err "failed to set field age: cannot convert negative value to unsigned type",
     example_store).
Proof. vm_compute. reflexivity. Qed.

(** An error that ends the iteration after two good rows: same outcome. *)
Example Find_iteration_failure :
  Find (Reference.client_returning
          {| columns_err := None; columns := ["id"; "name"];
             pending := [[DInt64 1; DBytes "John"]; [DInt64 2; DBytes "Jane"]];
             lasterr := Some "invalid connection"; nextSets := [] |})
    (AnyPtr (TSlice example_User) (Some 0%nat))
    "SELECT id, name FROM users" [] example_store
  = (Err "rows iteration error: invalid connection", example_store).
Proof. vm_compute. reflexivity. Qed.

(** Full success: the slice is replaced by the two items. *)
Example Find_success :
  Find (Reference.client_returning
          (Reference.one_set ["id"; "name"; "age"]
             [[DInt64 1; DBytes "John"; DInt64 30]; [DInt64 2; DNull; DNull]]))
    (AnyPtr (TSlice example_User) (Some 0%nat))
    "SELECT id, name, age FROM users" [] example_store
  = (Ok (),
     <[0%nat := VSlice (Some [VStruct [VInt 1; VString "John"; VUint 30; VInt 0];
                              VStruct [VInt 2; VString ""; VUint 0; VInt 0]])]>
       example_store).
Proof. vm_compute. reflexivity. Qed.

(** * Properties of the generic scalar retrieval and of the write path *)

Section Scalar.
Context `{GoRuntime}.

(** C2. On a single-column query, [firstColAny] returns the zero value
    of [T] without error both when there is no row and when the first
    row holds SQL NULL; [found] is false in the first case and true in
    the second, so the flag tells the two apart. *)
Theorem firstColAny_no_row_versus_null
    (T : ElemType) (client : MySQLClient) (query : string)
    (args : list DriverValue) (stmt : Stmt) (rows : Rows) (col : string) :
  Prepare (DB client) query = inr stmt →
  Stmt_Query stmt args = inr rows →
  columns_err rows = None →
  columns rows = [col] →
  (pending rows = [] ∨ ∃ rest, pending rows = [DNull] :: rest) →
  firstColAny T client query args
  = Ok (zeroT T, match pending rows with [] => false | _ :: _ => true end).
Proof.
  intros Hprep Hquery Hcolserr Hcols Hrows.
  unfold firstColAny, Rows_Columns, Rows_Next.
  rewrite Hprep /= Hquery /= Hcolserr /= Hcols /=.
  destruct Hrows as [->|[rest ->]]; [done|].
  by destruct T.
Qed.

(** C10. When the statement is prepared and executed and the affected
    row count [n] is obtained, [Exec] returns no error and the boolean
    [n > 0]; a statement that affects no row yields [false], not an
    error. *)
Theorem Exec_reports_affected_rows
    (client : MySQLClient) (query : string) (args : list DriverValue)
    (stmt : Stmt) (result : SqlResult) (n : Z) :
  Prepare (DB client) query = inr stmt →
  Stmt_Exec stmt args = inr result →
  RowsAffected result = inr n →
  Exec client query args = Ok (bool_decide (0 < n)) ∧
  (n = 0 → Exec client query args = Ok false).
Proof.
  intros Hprep Hexec Hrows. unfold Exec.
  rewrite Hprep /= Hexec /= Hrows /=.
  split.
  - f_equal. case_bool_decide; [by apply Z.ltb_lt|by apply Z.ltb_ge; lia].
  - by intros ->.
Qed.

End Scalar.

Lemma firstColAny_no_row_versus_null_witness :
  columns_err null_id = None ∧
  columns null_id = ["id"] ∧
  (pending null_id = [] ∨ ∃ rest, pending null_id = [DNull] :: rest) ∧
  firstColAny T_int64 null_id_client "SELECT NULL as id" [] = Ok (VInt 0, true).
Proof.
  split; [reflexivity|]. split; [reflexivity|].
  split; [right; by exists []|].
  apply (firstColAny_no_row_versus_null T_int64 null_id_client "SELECT NULL as id" []
           (Reference.stmt_returning null_id) null_id "id");
    try reflexivity.
  right. by exists [].
Defined.

Lemma Exec_reports_affected_rows_witness :
  Exec no_change_client "UPDATE users SET age = ? WHERE id = ?" [DInt64 26; DInt64 999]
  = Ok (bool_decide (0 < 0)) ∧
  (0 = 0 → Exec no_change_client "UPDATE users SET age = ? WHERE id = ?"
             [DInt64 26; DInt64 999] = Ok false).
Proof.
  apply (Exec_reports_affected_rows no_change_client
           "UPDATE users SET age = ? WHERE id = ?" [DInt64 26; DInt64 999]
           (Reference.stmt_affecting 0) (Reference.result_affecting 0) 0);
    reflexivity.
Defined.

(** * Properties of the array retrieval *)

Section Array.
Context `{GoRuntime}.

Lemma scan_columns_lookup cols : ∀ lastcols index dest dest',
  scan_columns index cols lastcols dest = Ok dest' →
  length dest = length lastcols →
  ∀ i d v, dest !! i = Some d → lastcols !! i = Some v →
  ∃ d', convertAssign d v = inr d' ∧ dest' !! i = Some d'.
Proof.
  induction lastcols as [|sv svs IH]; intros index [|d0 ds] dest' Hscan Hlen
    i d v Hd Hv; simpl in *; try done.
  destruct (convertAssign d0 sv) as [e|d0'] eqn:Hd0; [done|].
  apply bind_Ok_inv in Hscan as (ds' & Hrest & Hret). simplify_eq.
  destruct i as [|i]; simpl in *; simplify_eq; [by exists d0'|].
  eapply IH; eauto.
Qed.

Lemma scan_columns_total cols : ∀ lastcols index dest,
  length dest = length lastcols →
  (∀ i d v, dest !! i = Some d → lastcols !! i = Some v →
            ∃ d', convertAssign d v = inr d') →
  ∃ dest', scan_columns index cols lastcols dest = Ok dest'.
Proof.
  induction lastcols as [|sv svs IH]; intros index [|d0 ds] Hlen Hall;
    simpl in *; try done; [by eexists|].
  destruct (Hall 0%nat d0 sv eq_refl eq_refl) as [d0' ->].
  destruct (IH (S index) ds ltac:(lia)) as [ds' ->]; [|by eexists].
  intros i d v Hd Hv. by apply (Hall (S i)).
Qed.

Lemma convertAssign_NullString s valid v :
  ∃ d', convertAssign (NullString s valid) v = inr d'.
Proof. destruct v; simpl; eauto. Qed.

Lemma findArray_scanDest_lookup T fieldIndex cols i col :
  cols !! i = Some col →
  findArray_scanDest T fieldIndex cols !! i
  = Some (if bool_decide (i = fieldIndex)
          then match T with
               | T_int64 => NullInt64 0 false
               | T_string => NullString "" false
               end
          else new_NullString).
Proof.
  intros Hcol. unfold findArray_scanDest. by rewrite list_lookup_imap Hcol.
Qed.

Lemma findArray_body_spec T fieldIndex cols col row results :
  cols !! fieldIndex = Some col →
  row_scans T fieldIndex (length cols) row →
  findArray_body T fieldIndex cols row results
  = Ok (match kept_value T fieldIndex row with
        | Some x => append results x
        | None => results
        end).
Proof.
  intros Hcol [Hlen Hconv]. unfold findArray_body, Rows_Scan.
  assert (length (findArray_scanDest T fieldIndex cols) = length row) as Hlen'.
  { unfold findArray_scanDest. by rewrite length_imap. }
  rewrite Hlen' Nat.eqb_refl /=.
  assert (∃ v, row !! fieldIndex = Some v) as [v Hv].
  { apply lookup_lt_is_Some. rewrite Hlen. by eapply lookup_lt_Some. }
  destruct (scan_columns_total cols row 0 (findArray_scanDest T fieldIndex cols)
              Hlen') as [dest' Hscan].
  { intros i d w Hd Hw.
    assert (∃ c, cols !! i = Some c) as [c Hc].
    { apply lookup_lt_is_Some. rewrite -Hlen. by eapply lookup_lt_Some. }
    rewrite (findArray_scanDest_lookup _ _ _ _ _ Hc) in Hd. simplify_eq.
    case_bool_decide as Hi; [|apply convertAssign_NullString].
    rewrite Hi Hv in Hw. injection Hw as <-.
    destruct T; [|apply convertAssign_NullString].
    destruct v; try (by simpl; eauto);
      (destruct (Hconv _ Hv ltac:(done)) as [x Hx];
       simpl in *; destruct (asInt64 _); simplify_eq; eauto). }
  rewrite Hscan /=.
  destruct (scan_columns_lookup cols row 0 _ dest' Hscan Hlen' fieldIndex
              _ v (findArray_scanDest_lookup T _ _ _ _ Hcol) Hv)
    as (d' & Hd' & ->).
  rewrite bool_decide_eq_true_2 // in Hd'.
  unfold kept_value. rewrite Hv.
  destruct T; destruct v; simpl in *; simplify_eq; try done;
    unfold convert_elem;
    destruct (asInt64 _); simplify_eq; done.
Qed.

Lemma findArray_loop_spec T fieldIndex cols col rows : ∀ results,
  cols !! fieldIndex = Some col →
  Forall (row_scans T fieldIndex (length cols)) rows →
  for_rows_Next (findArray_body T fieldIndex cols) rows results
  = Ok (match omap (kept_value T fieldIndex) rows with
        | [] => results
        | kept => Some (app (default [] results) kept)
        end).
Proof.
  induction rows as [|row rows IH]; intros results Hcol Hrows;
    cbn [for_rows_Next]; [done|].
  apply Forall_cons in Hrows as [Hrow Hrows].
  rewrite (findArray_body_spec _ _ _ _ _ _ Hcol Hrow) bind_Ok IH //.
  change (omap (kept_value T fieldIndex) (row :: rows))
    with (match kept_value T fieldIndex row with
          | Some x => x :: omap (kept_value T fieldIndex) rows
          | None => omap (kept_value T fieldIndex) rows
          end).
  destruct (kept_value T fieldIndex row) as [x|]; [|done].
  unfold append.
  destruct (omap (kept_value T fieldIndex) rows) as [|y kept]; simpl; [done|].
  by rewrite -app_assoc.
Qed.

(** C6. [findArray] returns the values of the named column of the rows
    in which it is not NULL, in row order; a row with NULL there adds
    nothing, never a zero value.  With no row, or NULL in every row, the
    result is the nil slice, which is not a slice holding one zero
    value. *)
Theorem findArray_drops_null_rows
    (T : ElemType) (client : MySQLClient) (fieldName query : string)
    (args : list DriverValue) (stmt : Stmt) (rows : Rows) (fieldIndex : nat) :
  Prepare (DB client) query = inr stmt →
  Stmt_Query stmt args = inr rows →
  columns_err rows = None →
  list_find (λ col, col = fieldName) (columns rows) = Some (fieldIndex, fieldName) →
  lasterr rows = None →
  Forall (row_scans T fieldIndex (length (columns rows))) (pending rows) →
  findArray T client fieldName query args
  = Ok (nil_if_empty (omap (kept_value T fieldIndex) (pending rows))) ∧
  (Forall (λ row, row !! fieldIndex = Some DNull) (pending rows) →
   findArray T client fieldName query args = Ok None ∧
   findArray T client fieldName query args ≠ Ok (Some [zeroT T])).
Proof.
  intros Hprep Hquery Hcolserr Hfind Herr Hrows.
  assert (findArray T client fieldName query args
          = Ok (nil_if_empty (omap (kept_value T fieldIndex) (pending rows))))
    as Hresult.
  { unfold findArray, Rows_Columns, Rows_Err.
    rewrite Hprep /= Hquery /= Hcolserr /= Hfind.
    apply list_find_Some in Hfind as (Hcol & _ & _).
    rewrite (findArray_loop_spec _ _ _ _ _ _ Hcol Hrows) /= Herr.
    destruct (omap (kept_value T fieldIndex) (pending rows)) as [|x kept];
      [done|].
    done. }
  split; [done|].
  intros Hnull. rewrite Hresult.
  assert (omap (kept_value T fieldIndex) (pending rows) = []) as ->; [|done].
  clear -Hnull. induction Hnull as [|row rows' Hrow _ IH]; [done|].
  simpl. unfold kept_value at 1. by rewrite Hrow.
Qed.

End Array.

Lemma findArray_drops_null_rows_witness :
  columns_err null_scores = None ∧
  list_find (λ col, col = "score") (columns null_scores) = Some (1%nat, "score") ∧
  lasterr null_scores = None ∧
  Forall (row_scans T_int64 1 (length (columns null_scores))) (pending null_scores) ∧
  Forall (λ row, row !! 1%nat = Some DNull) (pending null_scores) ∧
  findArray T_int64 null_scores_client "score" "SELECT id, score FROM user_scores" []
  = Ok None ∧
  findArray T_int64 null_scores_client "score" "SELECT id, score FROM user_scores" []
  ≠ Ok (Some [VInt 0]).
Proof.
  assert (Forall (row_scans T_int64 1 (length (columns null_scores))) (pending null_scores))
    as Hrows.
  { repeat apply Forall_cons_2; try apply Forall_nil_2;
      (split; [reflexivity|]; intros v Hv Hnn; injection Hv as <-;
       by destruct Hnn). }
  assert (Forall (λ row, row !! 1%nat = Some DNull) (pending null_scores)) as Hnull.
  { repeat apply Forall_cons_2; try apply Forall_nil_2; reflexivity. }
  split; [reflexivity|]. split; [reflexivity|]. split; [reflexivity|].
  split; [exact Hrows|]. split; [exact Hnull|].
  exact (proj2 (findArray_drops_null_rows T_int64 null_scores_client "score"
                  "SELECT id, score FROM user_scores" []
                  (Reference.stmt_returning null_scores) null_scores 1
                  eq_refl eq_refl eq_refl eq_refl eq_refl Hrows) Hnull).
Defined.

(** A mixed column: the NULL rows leave no trace, the value 40 stays. *)
Example findArray_mixed_column :
  findArray T_int64
    (Reference.client_returning
       (Reference.one_set ["id"; "score"]
          [[DInt64 1; DNull]; [DInt64 2; DBytes "40"]; [DInt64 3; DNull]]))
    "score" "SELECT id, score FROM user_scores" []
  = Ok (Some [VInt 40]).
Proof. reflexivity. Qed.

(** * Properties of the raw JSON projection *)

Section Projection.
Context `{GoRuntime}.

Lemma ExecByte_body_spec cols (row : Row) resultData :
  length row = length cols →
  ExecByte_body cols row resultData
  = Ok (append resultData (make_rowMap cols row)).
Proof.
  intros Hrow. unfold ExecByte_body, Rows_Scan_any.
  by rewrite -Hrow Nat.eqb_refl.
Qed.

Lemma ExecByte_loop_spec cols rows : ∀ resultData,
  Forall (λ row : Row, length row = length cols) rows →
  for_rows_Next (ExecByte_body cols) rows resultData
  = Ok (match rows with
        | [] => resultData
        | _ => Some (app (default [] resultData) (map (make_rowMap cols) rows))
        end).
Proof.
  induction rows as [|row rows IH]; intros resultData Hrows;
    cbn [for_rows_Next]; [done|].
  apply Forall_cons in Hrows as [Hrow Hrows].
  rewrite ExecByte_body_spec // bind_Ok IH //.
  unfold append. destruct rows as [|row' rows]; simpl; [done|].
  by rewrite -app_assoc.
Qed.

Lemma make_rowMap_dom cols (row : Row) :
  length row = length cols →
  dom (make_rowMap cols row) = list_to_set cols.
Proof.
  intros Hlen. unfold make_rowMap.
  cut (∀ (l : list (string * DriverValue)) (acc : gmap string DriverValue),
         dom (fold_left
                (λ (rowMap : gmap string DriverValue) (c : string * DriverValue),
                   <[fst c := snd c]> rowMap) l acc)
         = dom acc ∪ list_to_set (l.*1)).
  { intros ->. rewrite fst_zip; [lia|]. rewrite dom_empty_L. set_solver. }
  induction l as [|[k v] l IH]; intros acc; simpl.
  - set_solver.
  - rewrite IH dom_insert_L. set_solver.
Qed.

(** C9, as the code has it. On a result whose rows are all read:
    with the flag [HAS_ONE] and at least one row, the output is the
    first row alone, marshalled as a JSON object; with any other flag
    and at least one row, it is the JSON array of all the row objects;
    with no row it is the JSON value [null], whatever the flag.  The
    keys of a row object are the column names. *)
Theorem ExecByte_output_shape
    (client : MySQLClient) (query : string) (isList : Z)
    (args : list DriverValue) (stmt : Stmt) (rows : Rows) :
  Prepare (DB client) query = inr stmt →
  Stmt_Query stmt args = inr rows →
  columns_err rows = None →
  lasterr rows = None →
  Forall (λ row : Row, length row = length (columns rows)) (pending rows) →
  ExecByte client query isList args
  = match pending rows with
    | [] => Ok "null"
    | first :: _ =>
        if bool_decide (isList = HAS_ONE)
        then wrapErr "failed to marshal single result data: "
               (json_Marshal_map (make_rowMap (columns rows) first))
        else wrapErr "failed to marshal result data: "
               (elements ← mapM json_Marshal_map
                             (map (make_rowMap (columns rows)) (pending rows));
                Ok (spec_json_array elements))
    end ∧
  Forall (λ row : Row,
            dom (make_rowMap (columns rows) row) = list_to_set (columns rows))
    (pending rows).
Proof.
  intros Hprep Hquery Hcolserr Herr Hrows. split.
  - unfold ExecByte, Rows_Columns, Rows_Err.
    rewrite Hprep /= Hquery /= Hcolserr /= ExecByte_loop_spec // bind_Ok Herr.
    destruct (pending rows) as [|first rest]; [|simpl].
    + by rewrite andb_false_r.
    + by case_bool_decide.
  - eapply Forall_impl; [exact Hrows|]. intros row. apply make_rowMap_dom.
Qed.

End Projection.

Lemma ExecByte_output_shape_witness :
  columns_err two_users = None ∧
  lasterr two_users = None ∧
  Forall (λ row : Row, length row = length (columns two_users)) (pending two_users) ∧
  ExecByte two_users_client "SELECT id, name FROM users" HAS_ONE []
  = Ok ("{" +:+ Reference.quote "id" +:+ ":1," +:+
        Reference.quote "name" +:+ ":" +:+ Reference.quote "John" +:+ "}").
Proof.
  assert (Forall (λ row : Row, length row = length (columns two_users)) (pending two_users))
    as Hrows.
  { repeat apply Forall_cons_2; try apply Forall_nil_2; reflexivity. }
  split; [reflexivity|]. split; [reflexivity|]. split; [exact Hrows|].
  exact (proj1 (ExecByte_output_shape two_users_client "SELECT id, name FROM users"
                  HAS_ONE [] (Reference.stmt_returning two_users) two_users
                  eq_refl eq_refl eq_refl eq_refl Hrows)).
Defined.

(** The list flag on the same rows. *)
Example ExecByte_list_of_two :
  ExecByte
    (Reference.client_returning
       (Reference.one_set ["id"; "name"]
          [[DInt64 1; DString "John"]; [DInt64 2; DString "Jane"]]))
    "SELECT id, name FROM users" HAS_LIST []
  = Ok (spec_json_array
          ["{" +:+ Reference.quote "id" +:+ ":1," +:+
           Reference.quote "name" +:+ ":" +:+ Reference.quote "John" +:+ "}";
           "{" +:+ Reference.quote "id" +:+ ":2," +:+
           Reference.quote "name" +:+ ":" +:+ Reference.quote "Jane" +:+ "}"]).
Proof. vm_compute. reflexivity. Qed.

(** C9 as the specification states it fails on a result without rows:
    under the list flag, and under the single flag as well, the output
    is [null], not the empty JSON array. *)
Lemma ExecByte_no_row_counterexample :
  ExecByte empty_users_client "SELECT * FROM users WHERE id = ?" HAS_LIST [DInt64 999]
  = Ok "null" ∧
  ExecByte empty_users_client "SELECT * FROM users WHERE id = ?" HAS_ONE [DInt64 999]
  = Ok "null" ∧
  ExecByte empty_users_client "SELECT * FROM users WHERE id = ?" HAS_LIST [DInt64 999]
  ≠ Ok (spec_json_array []).
Proof.
  split; [reflexivity|]. split; [reflexivity|].
  intros Heq. vm_compute in Heq. discriminate Heq.
Qed.

(** * Properties of the key-value map retrieval *)

Section MapRetrieval.
Context `{GoRuntime}.

Lemma lastIndexOf_lookup name cols i :
  lastIndexOf name cols = Some i → cols !! i = Some name.
Proof.
  unfold lastIndexOf.
  cut (∀ (l : list (nat * string)) (acc : option nat),
         (∀ j, acc = Some j → cols !! j = Some name) →
         (∀ x, x ∈ l → cols !! (fst x) = Some (snd x)) →
         ∀ j,
           fold_left
             (λ (found : option nat) (c : nat * string),
                if bool_decide (snd c = name) then Some (fst c) else found)
             l acc = Some j →
           cols !! j = Some name).
  { intros Hgen. apply (Hgen _ None); [done|].
    intros [j c] [k Hk]%list_elem_of_lookup.
    rewrite list_lookup_imap in Hk.
    destruct (cols !! k) eqn:Hck; by simplify_eq/=. }
  induction l as [|[j c] l IH]; simpl; intros acc Hacc Hl k.
  - apply Hacc.
  - apply IH.
    + intros j'. case_bool_decide as Hc; [|apply Hacc].
      intros [= <-]. simpl in Hc. rewrite -Hc.
      apply (Hl (j, c)). by left.
    + intros x Hx. apply Hl. by right.
Qed.

Lemma text_scanDest Y valueField fieldsMapping cols :
  valueField ≠ "" →
  findMap_scanDest Y valueField fieldsMapping cols
  = Ok (replicate (length cols) new_NullString).
Proof.
  intros Hvalue. unfold findMap_scanDest.
  rewrite (bool_decide_eq_false_2 _ Hvalue) andb_false_r.
  induction cols as [|col cols IH]; [done|].
  simpl. by rewrite IH.
Qed.

Lemma scan_columns_text cols : ∀ (row : Row) index,
  scan_columns index cols row (replicate (length row) new_NullString)
  = Ok (map scan_text row).
Proof.
  induction row as [|v row IH]; intros index; [done|].
  simpl. rewrite IH /=. by destruct v.
Qed.

Lemma Rows_Scan_text cols (row : Row) :
  length row = length cols →
  Rows_Scan cols row (replicate (length cols) new_NullString)
  = Ok (map scan_text row).
Proof.
  intros Hlen. unfold Rows_Scan.
  rewrite length_replicate -Hlen Nat.eqb_refl /=.
  apply scan_columns_text.
Qed.

Lemma findMap_body_text K Y valueField keyIndex valueIndex fieldsMapping
    cols (row : Row) result :
  valueField ≠ "" →
  length row = length cols →
  (keyIndex < length cols)%nat →
  (valueIndex < length cols)%nat →
  findMap_body K Y valueField keyIndex (Some valueIndex) fieldsMapping cols
    row result
  = Ok (findMap_text_row K Y keyIndex valueIndex result row).
Proof.
  intros Hvalue Hlen Hki Hvi. unfold findMap_body.
  rewrite text_scanDest // bind_Ok Rows_Scan_text //=.
  destruct (lookup_lt_is_Some_2 row keyIndex ltac:(lia)) as [kv Hkv].
  destruct (lookup_lt_is_Some_2 row valueIndex ltac:(lia)) as [vv Hvv].
  unfold findMap_text_row.
  rewrite list_lookup_fmap Hkv Hvv /=.
  assert (findMap_value Y valueField (Some valueIndex) fieldsMapping cols
            (map scan_text row) = Ok (text_value Y vv)) as Hval.
  { unfold findMap_value.
    rewrite (bool_decide_eq_false_2 _ Hvalue) /=.
    rewrite list_lookup_fmap Hvv /=.
    destruct vv; simpl; try done; by destruct Y; simpl; try done;
      destruct (Sscanf_d _). }
  destruct kv; simpl; try done; rewrite Hval /=;
    destruct K; simpl; try done; by destruct (Sscanf_d _).
Qed.

Lemma findMap_loop_text K Y valueField keyIndex valueIndex fieldsMapping
    cols rows : ∀ result,
  valueField ≠ "" →
  (keyIndex < length cols)%nat →
  (valueIndex < length cols)%nat →
  Forall (λ row : Row, length row = length cols) rows →
  for_rows_Next
    (findMap_body K Y valueField keyIndex (Some valueIndex) fieldsMapping cols)
    rows result
  = Ok (fold_left (findMap_text_row K Y keyIndex valueIndex) rows result).
Proof.
  induction rows as [|row rows IH]; intros result Hvalue Hki Hvi Hrows;
    cbn [for_rows_Next]; [done|].
  apply Forall_cons in Hrows as [Hrow Hrows].
  by rewrite findMap_body_text // bind_Ok IH.
Qed.

(** A key stays in the map once a row has put it there. *)
Lemma findMap_text_rows_keeps K Y keyIndex valueIndex rows : ∀ result k,
  is_Some (result !! k) →
  is_Some (fold_left (findMap_text_row K Y keyIndex valueIndex) rows result !! k).
Proof.
  induction rows as [|row rows IH]; intros result k Hk; [done|].
  simpl. apply IH. unfold findMap_text_row.
  destruct (row !! keyIndex) as [[]|]; try done;
    (rewrite lookup_insert; case_decide; [by eexists|done]).
Qed.

Lemma findMap_text_rows_adds K Y keyIndex valueIndex rows (row : Row) kv :
  ∀ result,
  row ∈ rows →
  row !! keyIndex = Some kv →
  kv ≠ DNull →
  is_Some (fold_left (findMap_text_row K Y keyIndex valueIndex) rows result
             !! text_key K (asString kv)).
Proof.
  induction rows as [|row' rows IH]; intros result Hin Hkv Hnn.
  - by apply elem_of_nil in Hin.
  - apply elem_of_cons in Hin as [<-|Hin]; [|by apply IH].
    simpl. apply findMap_text_rows_keeps.
    unfold findMap_text_row. rewrite Hkv.
    destruct kv; try done; rewrite lookup_insert_eq; by eexists.
Qed.

(** In either mode of [findMap]: a row whose key target holds valid
    text that is no number is stored under the key 0, as soon as its
    value can be built. *)
Lemma findMap_body_unparsable_key Y valueField keyIndex valueIndex
    fieldsMapping cols (row : Row) result scanDest scanDest' s v :
  findMap_scanDest Y valueField fieldsMapping cols = Ok scanDest →
  Rows_Scan cols row scanDest = Ok scanDest' →
  scanDest' !! keyIndex = Some (NullString s true) →
  Sscanf_d s = None →
  findMap_value Y valueField valueIndex fieldsMapping cols scanDest' = Ok v →
  findMap_body P_int64 Y valueField keyIndex valueIndex fieldsMapping cols
    row result
  = Ok (<[KeyInt 0 := v]> result).
Proof.
  intros Hsd Hscan Hkey Hparse Hvalue. unfold findMap_body.
  by rewrite Hsd bind_Ok Hscan /= Hkey /= Hparse /= Hvalue.
Qed.

(** C5, as the code has it. A row whose key text does not parse as an
    [int64] is not left out.  Row by row, in either mode: once the key
    target holds valid text that is no number, the row's value is
    stored under the zero key 0.  For a whole call with a value column
    named, where every key arrives as text: the call succeeds, the map
    it returns is the one built row by row, and 0 is among its keys. *)
Theorem findMap_unparsable_key_is_kept
    (Y : TypeParam) (client : MySQLClient)
    (keyField valueField query : string) (args : list DriverValue)
    (stmt : Stmt) (rows : Rows) (keyIndex valueIndex : nat)
    (row : Row) (kv : DriverValue) :
  keyField ≠ "" →
  valueField ≠ "" →
  Prepare (DB client) query = inr stmt →
  Stmt_Query stmt args = inr rows →
  columns_err rows = None →
  lastIndexOf keyField (columns rows) = Some keyIndex →
  lastIndexOf valueField (columns rows) = Some valueIndex →
  lasterr rows = None →
  Forall (λ row : Row, length row = length (columns rows)) (pending rows) →
  row ∈ pending rows →
  row !! keyIndex = Some kv →
  kv ≠ DNull →
  Sscanf_d (asString kv) = None →
  (∀ Y' valueField' keyIndex' valueIndex' fieldsMapping cols (row' : Row)
     result scanDest scanDest' s v,
     findMap_scanDest Y' valueField' fieldsMapping cols = Ok scanDest →
     Rows_Scan cols row' scanDest = Ok scanDest' →
     scanDest' !! keyIndex' = Some (NullString s true) →
     Sscanf_d s = None →
     findMap_value Y' valueField' valueIndex' fieldsMapping cols scanDest' = Ok v →
     findMap_body P_int64 Y' valueField' keyIndex' valueIndex' fieldsMapping
       cols row' result
     = Ok (<[KeyInt 0 := v]> result)) ∧
  ∃ m,
    findMap P_int64 Y client keyField valueField query args = Ok (Some m) ∧
    m = fold_left (findMap_text_row P_int64 Y keyIndex valueIndex)
          (pending rows) ∅ ∧
    is_Some (m !! KeyInt 0).
Proof.
  intros Hkey Hvalue Hprep Hquery Hcolserr Hki Hvi Herr Hrows Hin Hkv Hnn Hparse.
  split; [intros; by eapply findMap_body_unparsable_key|].
  eexists. split; [|split; [reflexivity|]].
  - unfold findMap, Rows_Columns, Rows_Err.
    rewrite (bool_decide_eq_false_2 _ Hkey) Hprep /= Hquery /= Hcolserr /=.
    rewrite Hki (bool_decide_eq_false_2 _ Hvalue) Hvi /=.
    assert (∃ fieldsMapping,
              (if bool_decide (Kind_of (reflect_Type Y) = reflect.Struct)
               then getFieldsMapping (reflect_Type Y) else Ok ∅)
              = Ok fieldsMapping) as [fieldsMapping ->].
    { case_bool_decide as Hstruct; [|by eexists].
      destruct (struct_fields_of_struct _ Hstruct) as [fields Hfields].
      unfold getFieldsMapping. rewrite Hfields /=. by eexists. }
    rewrite bind_Ok findMap_loop_text //;
      [by eapply lookup_lt_Some, lastIndexOf_lookup
      |by eapply lookup_lt_Some, lastIndexOf_lookup|].
    rewrite bind_Ok Herr bool_decide_eq_false_2 //.
    apply (map_size_ne_0_lookup_2 _ (text_key P_int64 (asString kv))).
    by eapply findMap_text_rows_adds.
  - pose proof (findMap_text_rows_adds P_int64 Y keyIndex valueIndex
                  (pending rows) row kv ∅ Hin Hkv Hnn) as Hadd.
    unfold text_key in Hadd. by rewrite Hparse in Hadd.
Qed.

End MapRetrieval.

Lemma findMap_unparsable_key_is_kept_witness :
  (columns_err names_cities = None ∧
   lastIndexOf "name" (columns names_cities) = Some 0%nat ∧
   lastIndexOf "city" (columns names_cities) = Some 1%nat ∧
   lasterr names_cities = None ∧
   Forall (λ row : Row, length row = length (columns names_cities)) (pending names_cities) ∧
   Sscanf_d (asString (DBytes "abc")) = None ∧
   ∃ m,
     findMap P_int64 P_string names_cities_client "name" "city" "SELECT name, city FROM users" []
     = Ok (Some m) ∧
     m = fold_left (findMap_text_row P_int64 P_string 0 1) (pending names_cities) ∅ ∧
     is_Some (m !! KeyInt 0)) ∧
  (** the whole row as the value: the key column is mapped to the
      textual field [name] *)
  findMap_body P_int64 (P_other example_User) "" 1 None
    {["id" := 0%nat; "name" := 1%nat; "age" := 2%nat]} ["id"; "name"]
    [DInt64 5; DBytes "abc"] ∅
  = Ok {[KeyInt 0 := VStruct [VInt 5; VString "abc"; VUint 0; VInt 0]]}.
Proof.
  assert (Forall (λ row : Row, length row = length (columns names_cities)) (pending names_cities))
    as Hrows.
  { repeat apply Forall_cons_2; try apply Forall_nil_2; reflexivity. }
  pose proof (findMap_unparsable_key_is_kept P_string names_cities_client "name" "city"
           "SELECT name, city FROM users" [] (Reference.stmt_returning names_cities)
           names_cities 0%nat 1%nat [DBytes "abc"; DBytes "Rome"] (DBytes "abc")
           ltac:(done) ltac:(done) eq_refl eq_refl eq_refl eq_refl eq_refl
           eq_refl Hrows ltac:(by right; left) eq_refl ltac:(done) eq_refl)
    as [Hrow Hcall].
  split.
  - split; [reflexivity|]. split; [reflexivity|]. split; [reflexivity|].
    split; [reflexivity|]. split; [exact Hrows|]. split; [reflexivity|].
    exact Hcall.
  - exact (Hrow (P_other example_User) "" 1%nat None
             {["id" := 0%nat; "name" := 1%nat; "age" := 2%nat]} ["id"; "name"]
             [DInt64 5; DBytes "abc"] ∅
             [NullInt64 0 false; NullString "" false]
             [NullInt64 5 true; NullString "abc" true] "abc"
             (VStruct [VInt 5; VString "abc"; VUint 0; VInt 0])
             eq_refl eq_refl eq_refl eq_refl eq_refl).
Defined.

(** C5 as the specification states it fails: the only row has a key
    text that is no number, yet the map is returned with that row's
    value under the key 0; it is not the empty result. *)
Lemma findMap_unparsable_key_counterexample :
  Sscanf_d (asString (DBytes "abc")) = None ∧
  findMap P_int64 P_string one_bad_key_client "name" "city" "SELECT name, city FROM users" []
  = Ok (Some {[KeyInt 0 := VString "Rome"]}) ∧
  findMap P_int64 P_string one_bad_key_client "name" "city" "SELECT name, city FROM users" []
  ≠ Ok None.
Proof.
  split; [reflexivity|].
  assert (findMap P_int64 P_string one_bad_key_client "name" "city"
            "SELECT name, city FROM users" []
          = Ok (Some {[KeyInt 0 := VString "Rome"]})) as Hrun.
  { vm_compute. reflexivity. }
  split; [exact Hrun|]. rewrite Hrun. discriminate.
Qed.

(** * Properties of the multi-result-set dispatcher *)

Section Dispatcher.
Context `{GoRuntime}.


(** The loop moves on by [rows.NextResultSet()]. *)
Lemma FindMultipleProc_loop_NextResultSet dest rows index store :
  FindMultipleProc_loop dest (nextSets rows) rows index store
  = match dest !! index with
    | None =>
        (Err ("too many result sets, expected " +:+ pretty (length dest)), store)
    | Some d =>
        match dispatch_one d index rows store with
        | (Ok _, store') =>
            match Rows_NextResultSet rows with
            | Some rows' =>
                FindMultipleProc_loop dest (nextSets rows') rows' (S index) store'
            | None => (Ok (), store')
            end
        | failed => failed
        end
    end.
Proof.
  unfold Rows_NextResultSet.
  destruct (nextSets rows) as [|s more]; cbn [FindMultipleProc_loop];
    destruct (dest !! index) as [d|]; try done;
    destruct (dispatch_one d index rows store) as [[[]| |] store']; try done;
    by destruct (lasterr rows).
Qed.












End Dispatcher.



(** A record destination whose result set breaks off after its first
    row: the row is taken, [NextResultSet] reports no further result
    set, and the call ends well without touching the next
    destination. *)
Example FindMultipleProc_stops_at_failed_set :
  FindMultipleProc
    (Reference.client_returning
       {| columns_err := None; columns := ["total"]; pending := [[DInt64 5]];
          lasterr := Some "invalid connection";
          nextSets := [example_summary_set] |})
    [AnyPtr example_Stats (Some 1%nat); AnyPtr example_Summary (Some 2%nat)]
    "GetCompleteReport" [DInt64 2023] example_store
  = (Ok (), <[1%nat := VStruct [VInt 5]]> example_store).
Proof. vm_compute. reflexivity. Qed.

(** A destination that points to a slice of [int64]: the element type
    has no fields to map, and the call panics in [reflect]. *)
Example FindMultipleProc_slice_of_int64 :
  fst (FindMultipleProc (Reference.client_returning four_sets)
         [AnyPtr (TSlice (TBasic reflect.Int64)) (Some 0%nat)]
         "GetCompleteReport" [DInt64 2023] example_store)
  = Panic "reflect: NumField of non-struct type int64".
Proof. vm_compute. reflexivity. Qed.

(** * The CALL text of a stored procedure *)

Lemma rev_app_append s : ∀ t u,
  String.rev_app (s +:+ t) u = String.rev_app t (String.rev_app s u).
Proof. induction s as [|c s IH]; intros t u; [done|]. apply IH. Qed.

Lemma substring_append s t : String.substring 0 (String.length s) (s +:+ t) = s.
Proof.
  induction s as [|c s IH]; simpl.
  - by destruct t.
  - by rewrite IH.
Qed.

Lemma length_append s t :
  String.length (s +:+ t) = (String.length s + String.length t)%nat.
Proof. induction s as [|c s IH]; simpl; [done|]. by rewrite IH. Qed.

Lemma strings_TrimSuffix_comma s : strings_TrimSuffix (s +:+ ",") "," = s.
Proof.
  unfold strings_TrimSuffix, String.rev.
  rewrite rev_app_append /=.
  assert (String.prefix "" (String.rev_app s "") = true) as ->
    by by destruct (String.rev_app s "").
  rewrite length_append /= Nat.add_sub.
  apply substring_append.
Qed.

Lemma strings_Repeat_placeholders n :
  strings_Repeat "?," (S n) = String.concat "," (replicate (S n) "?") +:+ ",".
Proof.
  induction n as [|n IH]; [done|].
  change (strings_Repeat "?," (S (S n))) with ("?," +:+ strings_Repeat "?," (S n)).
  by rewrite IH.
Qed.

(** X1. The statement text every [...Proc] function prepares is
    [CALL `name`(?,...,?)] with exactly one placeholder per argument,
    separated by commas and without a trailing comma; without arguments
    the parentheses are empty. *)
Theorem procQuery_placeholders (procName : string) (args : list DriverValue) :
  procQuery procName args
  = "CALL `" +:+ procName +:+ "`(" +:+
    String.concat "," (replicate (length args) "?") +:+ ")".
Proof.
  unfold procQuery. do 3 f_equal.
  destruct (length args) as [|n]; [done|].
  by rewrite strings_Repeat_placeholders strings_TrimSuffix_comma.
Qed.

(** * Properties of the type mapping *)

Lemma getFieldsMapping_snoc name fields tag ft mapping :
  getFieldsMapping (TStruct name fields) = Ok mapping →
  getFieldsMapping (TStruct name (fields ++ [(tag, ft)]))
  = Ok (if bool_decide (tag = "") then mapping
        else <[tag := length fields]> mapping).
Proof.
  unfold getFieldsMapping. simpl. intros [= <-].
  by rewrite imap_app fold_left_app /= Nat.add_0_r.
Qed.

(** X2. The type mapping of a struct sends a column name to a field
    index exactly when the name is not empty and is the [db] tag of that
    field and of no later field: fields without tag are left out, and of
    two fields with the same tag the later one is mapped. *)
Theorem getFieldsMapping_last_tag_wins (name : string)
    (fields : list (string * GoType)) :
  ∃ mapping,
    getFieldsMapping (TStruct name fields) = Ok mapping ∧
    ∀ col i,
      mapping !! col = Some i ↔
      col ≠ "" ∧ (∃ ft, fields !! i = Some (col, ft)) ∧
      ∀ j ft, (i < j)%nat → fields !! j ≠ Some (col, ft).
Proof.
  induction fields as [|[tag ft] fields (mapping & Hmap & IH)] using rev_ind.
  - exists ∅. split; [done|]. intros col i. rewrite lookup_empty.
    split; [done|]. by intros (_ & [ft' Hft] & _).
  - eexists. split; [by apply getFieldsMapping_snoc|].
    intros col i.
    assert (∀ j ft', (fields ++ [(tag, ft)]) !! j = Some (col, ft') ↔
              fields !! j = Some (col, ft') ∨
              (j = length fields ∧ tag = col ∧ ft = ft')) as Hlook.
    { intros j ft'. rewrite lookup_app. destruct (fields !! j) eqn:Hj.
      - apply lookup_lt_Some in Hj. split; [by left|].
        intros [?|[-> _]]; [done|lia].
      - apply lookup_ge_None in Hj. split.
        + intros Hlast. right.
          destruct (j - length fields)%nat as [|k] eqn:Hk; simpl in Hlast;
            [|done].
          injection Hlast as -> ->. split; [lia|done].
        + intros [?|(-> & -> & ->)]; [done|].
          by rewrite Nat.sub_diag. }
    destruct (decide (tag = col ∧ tag ≠ "")) as [[-> Hne]|Hother].
    + rewrite bool_decide_eq_false_2 // lookup_insert_eq. split.
      * intros [= <-]. split; [done|]. split.
        { exists ft. apply Hlook. by right. }
        intros j ft' Hj [Hin|[-> _]]%Hlook; [|lia].
        apply lookup_lt_Some in Hin. lia.
      * intros (_ & [ft' Hi] & Hlast).
        apply Hlook in Hi as [Hin|[-> _]]; [|done].
        exfalso. apply (Hlast (length fields) ft).
        { by apply lookup_lt_Some in Hin. }
        apply Hlook. by right.
    + assert ((if bool_decide (tag = "") then mapping
               else <[tag := length fields]> mapping) !! col = mapping !! col)
        as ->.
      { case_bool_decide; [done|]. rewrite lookup_insert_ne //.
        intros ->. by apply Hother. }
      rewrite IH. split.
      * intros (Hne & [ft' Hi] & Hlast). split; [done|]. split.
        { exists ft'. apply Hlook. by left. }
        intros j ft0 Hj [Hin|(-> & -> & ->)]%Hlook.
        { by eapply Hlast. }
        by apply Hother.
      * intros (Hne & [ft' Hi] & Hlast). split; [done|].
        apply Hlook in Hi as [Hin|(-> & -> & ->)]; [|by destruct Hother].
        split; [by exists ft'|].
        intros j ft0 Hj Hin'. apply (Hlast j ft0 Hj). apply Hlook. by left.
Qed.

(** X3. The memo table of [getFieldsMapping] cannot be observed: on a
    client fresh from [Conn], whatever types are asked for and in
    whatever order, with repetitions, every call answers what the loop
    over the fields computes for its type. *)
Theorem getFieldsMapping_cache_is_transparent (ts : list GoType) :
  getFieldsMapping_calls [] ts = map getFieldsMapping ts.
Proof.
  cut (∀ fields, fields_consistent fields →
         getFieldsMapping_calls fields ts = map getFieldsMapping ts).
  { intros Hgen. apply Hgen, fields_consistent_nil. }
  induction ts as [|t ts IH]; intros fields Hfields; [done|].
  simpl.
  destruct (getFieldsMapping_cached_refines fields t Hfields) as [Hfst Hsnd].
  destruct (getFieldsMapping_cached fields t) as [mapping fields'].
  simpl in *. by rewrite Hfst IH.
Qed.

(** * Integer widths and the errors of the adapter *)

Lemma wrap_signed_spec bits i :
  0 < bits →
  - 2 ^ (bits - 1) ≤ wrap_signed bits i < 2 ^ (bits - 1) ∧
  (wrap_signed bits i - i) mod 2 ^ bits = 0 ∧
  (- 2 ^ (bits - 1) ≤ i < 2 ^ (bits - 1) → wrap_signed bits i = i).
Proof.
  intros Hbits. unfold wrap_signed.
  assert (2 ^ bits = 2 * 2 ^ (bits - 1)) as Hpow.
  { rewrite -Z.pow_succ_r; [lia|]. f_equal. lia. }
  assert (0 < 2 ^ (bits - 1)) as Hpos by (apply Z.pow_pos_nonneg; lia).
  pose proof (Z.mod_pos_bound (i + 2 ^ (bits - 1)) (2 ^ bits) ltac:(lia)) as Hbound.
  split; [lia|]. split.
  - pose proof (Z.div_mod (i + 2 ^ (bits - 1)) (2 ^ bits) ltac:(lia)) as Hdiv.
    replace ((i + 2 ^ (bits - 1)) mod 2 ^ bits - 2 ^ (bits - 1) - i)
      with (- ((i + 2 ^ (bits - 1)) / 2 ^ bits) * 2 ^ bits) by lia.
    apply Z.mod_mul. lia.
  - intros Hrange. rewrite Z.mod_small; lia.
Qed.

Lemma wrap_unsigned_spec bits i :
  0 < bits →
  0 ≤ wrap_unsigned bits i < 2 ^ bits ∧
  (wrap_unsigned bits i - i) mod 2 ^ bits = 0 ∧
  (0 ≤ i < 2 ^ bits → wrap_unsigned bits i = i).
Proof.
  intros Hbits. unfold wrap_unsigned.
  assert (0 < 2 ^ bits) as Hpos by (apply Z.pow_pos_nonneg; lia).
  split; [by apply Z.mod_pos_bound|]. split.
  - pose proof (Z.div_mod i (2 ^ bits) ltac:(lia)) as Hdiv.
    replace (i mod 2 ^ bits - i) with (- (i / 2 ^ bits) * 2 ^ bits) by lia.
    apply Z.mod_mul. lia.
  - intros Hrange. by apply Z.mod_small.
Qed.

Lemma int_bits_pos k : 0 < int_bits k.
Proof. by destruct k. Qed.

Section AdapterRange.
Context `{GoRuntime}.

(** X4. A valid [int64] held by the integer scan target is stored in a
    field of signed kind without any range check: the field receives
    the value reduced modulo two to the field's width, into the field's
    range.  It is the scanned value itself exactly when that value fits
    the field; a value that does not fit is stored wrapped, and no error
    is returned. *)
Theorem signed_field_takes_value_modulo_width
    (fieldType : GoType) (field : Value) (i : Z) :
  is_signed (Kind_of fieldType) = true →
  let bits := int_bits (Kind_of fieldType) in
  ∃ j,
    setFieldFromNullScanner field (NullInt64 i true) fieldType = Ok (VInt j) ∧
    - 2 ^ (bits - 1) ≤ j < 2 ^ (bits - 1) ∧
    (j - i) mod 2 ^ bits = 0 ∧
    (- 2 ^ (bits - 1) ≤ i < 2 ^ (bits - 1) → j = i).
Proof.
  intros Hkind bits. exists (wrap_signed bits i). split.
  - unfold setFieldFromNullScanner, SetInt. by rewrite Hkind.
  - apply wrap_signed_spec, int_bits_pos.
Qed.

(** X5. A valid non-negative [int64] held by the integer scan target is
    stored in a field of unsigned kind reduced modulo two to the field's
    width: exactly when it fits the field, wrapped and without error
    when it does not. *)
Theorem unsigned_field_takes_value_modulo_width
    (fieldType : GoType) (field : Value) (i : Z) :
  is_unsigned (Kind_of fieldType) = true →
  0 ≤ i < 2 ^ 63 →
  let bits := int_bits (Kind_of fieldType) in
  ∃ j,
    setFieldFromNullScanner field (NullInt64 i true) fieldType = Ok (VUint j) ∧
    0 ≤ j < 2 ^ bits ∧
    (j - i) mod 2 ^ bits = 0 ∧
    (i < 2 ^ bits → j = i).
Proof.
  intros Hkind Hi bits. exists (wrap_unsigned bits i).
  assert (uint64 i = i) as Hconv.
  { unfold uint64, wrap_unsigned. apply Z.mod_small. lia. }
  split.
  - unfold setFieldFromNullScanner, SetUint.
    assert (is_signed (Kind_of fieldType) = false) as ->
      by by destruct (Kind_of fieldType).
    rewrite Hkind /= Hconv.
    assert ((i <? 0) = false) as -> by (apply Z.ltb_ge; lia). done.
  - destruct (wrap_unsigned_spec bits i (int_bits_pos _)) as (? & ? & Hsmall).
    split; [done|]. split; [done|]. intros ?. apply Hsmall. lia.
Qed.


End AdapterRange.

Lemma signed_field_takes_value_modulo_width_witness :
  is_signed (Kind_of (TBasic reflect.Int8)) = true ∧
  ∃ j,
    setFieldFromNullScanner (VInt 0) (NullInt64 300 true) (TBasic reflect.Int8)
    = Ok (VInt j) ∧
    - 2 ^ (8 - 1) ≤ j < 2 ^ (8 - 1) ∧
    (j - 300) mod 2 ^ 8 = 0 ∧
    (- 2 ^ (8 - 1) ≤ 300 < 2 ^ (8 - 1) → j = 300).
Proof.
  split; [reflexivity|].
  exact (signed_field_takes_value_modulo_width (TBasic reflect.Int8) (VInt 0)
           300 eq_refl).
Defined.

Lemma unsigned_field_takes_value_modulo_width_witness :
  is_unsigned (Kind_of (TBasic reflect.Uint8)) = true ∧
  0 ≤ 300 < 2 ^ 63 ∧
  ∃ j,
    setFieldFromNullScanner (VUint 0) (NullInt64 300 true) (TBasic reflect.Uint8)
    = Ok (VUint j) ∧
    0 ≤ j < 2 ^ 8 ∧
    (j - 300) mod 2 ^ 8 = 0 ∧
    (300 < 2 ^ 8 → j = 300).
Proof.
  split; [reflexivity|]. split; [lia|].
  apply (unsigned_field_takes_value_modulo_width (TBasic reflect.Uint8) (VUint 0)
           300); [reflexivity|lia].
Defined.


(** A field declared [sql.NullString]: its scan target is taken for the
    package's own; a text cannot be stored in it, and a NULL makes
    [SetString] panic. *)
Example sql_NullString_field :
  createNullScanner sql_NullString = NullString "" false ∧
  setFieldFromNullScanner (zero_value sql_NullString) (NullString "x" true)
    sql_NullString
  = Err "cannot convert string to struct" ∧
  setFieldFromNullScanner (zero_value sql_NullString) (NullString "" false)
    sql_NullString
  = Panic "reflect: call of reflect.Value.SetString on struct Value".
Proof. repeat split; vm_compute; reflexivity. Qed.

(** * Which fields the materialisers write *)

Section Frame.
Context `{GoRuntime}.

Lemma setColumn_frame t mapping item col scanner item' i :
  mapping !! col ≠ Some i →
  setColumn t mapping item col scanner = Ok item' →
  Value_Field item' i = Value_Field item i.
Proof.
  intros Hcol. unfold setColumn.
  destruct (mapping !! col) as [fieldIndex|]; [|by intros [= <-]].
  intros Hset.
  apply bind_Ok_inv in Hset as (field & Hfield & Hset).
  apply bind_Ok_inv in Hset as (fieldType & _ & Hset).
  apply bind_Ok_inv in Hset as (v & _ & [= <-]).
  destruct item as [| | | | |vs| | |]; try done. simpl.
  rewrite list_lookup_insert_ne //. congruence.
Qed.

Lemma setColumns_frame t mapping i : ∀ cols scanDest item,
  (∀ col, col ∈ cols → mapping !! col ≠ Some i) →
  Value_Field (snd (setColumns t mapping cols scanDest item)) i
  = Value_Field item i.
Proof.
  induction cols as [|col cols IH]; intros scanDest item Hcols; [reflexivity|].
  destruct scanDest as [|scanner scanners]; [reflexivity|]. simpl.
  destruct (setColumn t mapping item col scanner) as [item'| |] eqn:Hset;
    try done.
  rewrite IH.
  { intros c Hc. apply Hcols. by right. }
  eapply setColumn_frame; [|done]. apply Hcols. by left.
Qed.

Lemma prepare_scan_inv rows t cols mapping scanDest :
  prepare_scan rows t = Ok (cols, mapping, scanDest) →
  columns_err rows = None ∧ cols = columns rows ∧
  getFieldsMapping t = Ok mapping ∧
  make_scanDest t mapping cols = Ok scanDest.
Proof.
  unfold prepare_scan, Rows_Columns.
  destruct (columns_err rows); [done|]. simpl.
  destruct (getFieldsMapping t) as [m| |]; try done. simpl.
  destruct (make_scanDest t m (columns rows)) as [sd| |] eqn:Hsd; try done.
  simpl. by intros [= <- <- <-].
Qed.

(** X7. [First] writes into the caller's struct only the fields that a
    column of the result is mapped to.  A field no column is mapped to
    holds after the call what it held before, whether the call succeeds
    or fails, and nothing else in the store changes. *)
Theorem First_keeps_unmapped_fields
    (client : MySQLClient) (t : GoType) (l : nat) (query : string)
    (args : list DriverValue) (store : gmap nat Value)
    (stmt : Stmt) (rows : Rows) (mapping : gmap string nat) (i : nat)
    (old : Value) :
  Prepare (DB client) query = inr stmt →
  Stmt_Query stmt args = inr rows →
  getFieldsMapping t = Ok mapping →
  (∀ col, col ∈ columns rows → mapping !! col ≠ Some i) →
  store !! l = Some old →
  (∃ new,
     snd (First client (AnyPtr t (Some l)) query args store) !! l = Some new ∧
     Value_Field new i = Value_Field old i) ∧
  ∀ l', l' ≠ l →
    snd (First client (AnyPtr t (Some l)) query args store) !! l' = store !! l'.
Proof.
  intros Hprep Hquery Hmap Hcols Hold. unfold First.
  destruct (negb _ || negb _); [by eauto|].
  rewrite Hprep Hquery.
  destruct (prepare_scan rows t) as [[[cols mapping'] scanDest]| |] eqn:Hscan;
    [|by eauto..].
  apply prepare_scan_inv in Hscan as (_ & -> & Hmap' & _).
  assert (mapping' = mapping) as -> by congruence.
  destruct (Rows_Next rows) as [[row rest]|]; [|by eauto].
  destruct (wrapErr _ (Rows_Scan _ _ _)) as [scanDest'| |]; [|by eauto..].
  rewrite Hold.
  pose proof (setColumns_frame t mapping i (columns rows) scanDest' old Hcols)
    as Hframe.
  destruct (setColumns t mapping (columns rows) scanDest' old) as [r item'].
  simpl in *. split.
  - exists item'. by rewrite lookup_insert_eq.
  - intros l' Hl'. by rewrite lookup_insert_ne.
Qed.

(** X8. On a destination struct that holds its zero value, [First]
    builds from the first row exactly the item [scanRows] builds from
    that row: it succeeds with that item in the destination when
    [scanRows] over the row alone succeeds, and fails with the same
    error when it fails. *)
Theorem First_builds_what_Find_builds
    (client : MySQLClient) (t : GoType) (l : nat) (query : string)
    (args : list DriverValue) (store : gmap nat Value)
    (stmt : Stmt) (rows : Rows) (row : Row) (rest : list Row) :
  Kind_of t = reflect.Struct →
  Prepare (DB client) query = inr stmt →
  Stmt_Query stmt args = inr rows →
  pending rows = row :: rest →
  store !! l = Some (zero_value t) →
  match scanRows_results (only_row rows row) t with
  | Ok items =>
      ∃ item, items = [item] ∧
        First client (AnyPtr t (Some l)) query args store
        = (Ok true, <[l := item]> store)
  | Err e => fst (First client (AnyPtr t (Some l)) query args store) = Err e
  | Panic p => fst (First client (AnyPtr t (Some l)) query args store) = Panic p
  end.
Proof.
  intros Hkind Hprep Hquery Hrows Hzero.
  unfold First. simpl. rewrite Hkind /= Hprep Hquery.
  unfold scanRows_results, prepare_scan, Rows_Columns, Rows_Err, Rows_Next,
    only_row.
  cbn [columns_err columns pending lasterr]. rewrite Hrows.
  destruct (columns_err rows) as [e|]; [done|]. rewrite !bind_Ok.
  destruct (getFieldsMapping t) as [mapping| |]; try done. rewrite !bind_Ok.
  destruct (make_scanDest t mapping (columns rows)) as [scanDest| |]; try done.
  rewrite !bind_Ok. cbn [for_rows_Next]. unfold scanRows_body.
  destruct (wrapErr _ (Rows_Scan (columns rows) row scanDest))
    as [scanDest'| |]; try done.
  rewrite bind_Ok Hzero.
  destruct (setColumns t mapping (columns rows) scanDest' (zero_value t))
    as [[[]| |] item]; try done.
  simpl. by exists item.
Qed.

Lemma scanRows_loop_frame t mapping cols i rows :
  ∀ scanDest results scanDest' results',
  (∀ col, col ∈ cols → mapping !! col ≠ Some i) →
  for_rows_Next (scanRows_body t mapping cols) rows (scanDest, results)
  = Ok (scanDest', results') →
  Forall (λ item, Value_Field item i = Value_Field (zero_value t) i) results →
  Forall (λ item, Value_Field item i = Value_Field (zero_value t) i) results'.
Proof.
  induction rows as [|row rows IH]; cbn [for_rows_Next];
    intros sd acc sd' acc' Hcols Hloop Hacc.
  - by simplify_eq.
  - apply bind_Ok_inv in Hloop as ([sd1 acc1] & Hbody & Hloop).
    eapply IH; [done|exact Hloop|].
    unfold scanRows_body in Hbody.
    apply bind_Ok_inv in Hbody as (sd2 & _ & Hbody).
    pose proof (setColumns_frame t mapping i cols sd2 (zero_value t) Hcols)
      as Hframe.
    destruct (setColumns _ _ _ _ _) as [[[]| |] item]; simplify_eq.
    apply Forall_app. split; [done|]. by constructor.
Qed.

(** X9. After a successful [Find] the destination holds one item per
    row, and in every item a field that no column of the result is
    mapped to holds the zero value of its type: nothing of what the
    slice held before survives. *)
Theorem Find_unmapped_fields_are_zero
    (client : MySQLClient) (t : GoType) (l : nat) (query : string)
    (args : list DriverValue) (store : gmap nat Value)
    (stmt : Stmt) (rows : Rows) (mapping : gmap string nat) (i : nat) :
  Prepare (DB client) query = inr stmt →
  Stmt_Query stmt args = inr rows →
  getFieldsMapping t = Ok mapping →
  (∀ col, col ∈ columns rows → mapping !! col ≠ Some i) →
  fst (Find client (AnyPtr (TSlice t) (Some l)) query args store) = Ok () →
  ∃ items,
    snd (Find client (AnyPtr (TSlice t) (Some l)) query args store) !! l
    = Some (VSlice (Some items)) ∧
    length items = length (pending rows) ∧
    Forall (λ item, Value_Field item i = Value_Field (zero_value t) i) items.
Proof.
  intros Hprep Hquery Hmap Hcols. unfold Find. simpl.
  rewrite Hprep Hquery. unfold scanRows.
  destruct (scanRows_results rows t) as [results| |] eqn:Hres; try done.
  intros _. exists results. simpl. rewrite lookup_insert_eq. split; [done|].
  apply scanRows_results_succeeded in Hres
    as (mapping' & sd & sd' & _ & Hmap' & _ & Hloop & _ & Hlen).
  split; [done|].
  assert (mapping' = mapping) as -> by congruence.
  by eapply scanRows_loop_frame.
Qed.

(** X10. [Find] on a query that yields no row succeeds and replaces the
    destination by an empty slice that is not nil, whatever the slice
    held before. *)
Theorem Find_no_row_gives_empty_slice
    (client : MySQLClient) (t : GoType) (l : nat) (query : string)
    (args : list DriverValue) (store : gmap nat Value)
    (stmt : Stmt) (rows : Rows) :
  Kind_of t = reflect.Struct →
  Prepare (DB client) query = inr stmt →
  Stmt_Query stmt args = inr rows →
  columns_err rows = None →
  pending rows = [] →
  lasterr rows = None →
  Find client (AnyPtr (TSlice t) (Some l)) query args store
  = (Ok (), <[l := VSlice (Some [])]> store) ∧
  VSlice (Some []) ≠ zero_value (TSlice t).
Proof.
  intros Hkind Hprep Hquery Hcolserr Hrows Herr. split; [|done].
  unfold Find. simpl. rewrite Hprep Hquery.
  unfold scanRows, scanRows_results, Rows_Columns, Rows_Err.
  rewrite Hcolserr /=.
  destruct (struct_fields_of_struct t Hkind) as [fields Hfields].
  assert (∃ mapping, getFieldsMapping t = Ok mapping) as [mapping Hmap].
  { unfold getFieldsMapping. rewrite Hfields /=. eauto. }
  rewrite Hmap /=.
  destruct (make_scanDest_ok t mapping (columns rows) Hmap) as (sd & -> & _).
  by rewrite /= Hrows /= Herr.
Qed.

End Frame.

Lemma First_keeps_unmapped_fields_witness :
  getFieldsMapping example_User = Ok example_User_mapping ∧
  (∀ col, col ∈ columns two_users → example_User_mapping !! col ≠ Some 2%nat) ∧
  kept_user_store !! 3%nat = Some kept_user ∧
  (∃ new,
     snd (First two_users_client (AnyPtr example_User (Some 3%nat))
            "SELECT id, name FROM users" [] kept_user_store) !! 3%nat = Some new ∧
     Value_Field new 2 = Value_Field kept_user 2) ∧
  ∀ l', l' ≠ 3%nat →
    snd (First two_users_client (AnyPtr example_User (Some 3%nat))
           "SELECT id, name FROM users" [] kept_user_store) !! l'
    = kept_user_store !! l'.
Proof.
  assert (∀ col, col ∈ columns two_users →
                 example_User_mapping !! col ≠ Some 2%nat) as Hcols.
  { intros col Hcol. cbv [two_users Reference.one_set columns] in Hcol.
    each_column Hcol. }
  split; [reflexivity|]. split; [exact Hcols|]. split; [reflexivity|].
  exact (First_keeps_unmapped_fields two_users_client example_User 3
           "SELECT id, name FROM users" [] kept_user_store
           (Reference.stmt_returning two_users) two_users example_User_mapping
           2 kept_user eq_refl eq_refl eq_refl Hcols eq_refl).
Defined.

Lemma First_builds_what_Find_builds_witness :
  Kind_of example_User = reflect.Struct ∧
  pending two_users = john_row :: [[DInt64 2; DString "Jane"]] ∧
  zero_user_store !! 3%nat = Some (zero_value example_User) ∧
  match scanRows_results (only_row two_users john_row) example_User with
  | Ok items =>
      ∃ item, items = [item] ∧
        First two_users_client (AnyPtr example_User (Some 3%nat))
          "SELECT id, name FROM users" [] zero_user_store
        = (Ok true, <[3%nat := item]> zero_user_store)
  | Err e =>
      fst (First two_users_client (AnyPtr example_User (Some 3%nat))
             "SELECT id, name FROM users" [] zero_user_store) = Err e
  | Panic p =>
      fst (First two_users_client (AnyPtr example_User (Some 3%nat))
             "SELECT id, name FROM users" [] zero_user_store) = Panic p
  end.
Proof.
  split; [reflexivity|]. split; [reflexivity|]. split; [reflexivity|].
  exact (First_builds_what_Find_builds two_users_client example_User 3
           "SELECT id, name FROM users" [] zero_user_store
           (Reference.stmt_returning two_users) two_users john_row
           [[DInt64 2; DString "Jane"]] eq_refl eq_refl eq_refl eq_refl eq_refl).
Defined.

Lemma Find_unmapped_fields_are_zero_witness :
  getFieldsMapping example_User = Ok example_User_mapping ∧
  (∀ col, col ∈ columns two_users → example_User_mapping !! col ≠ Some 2%nat) ∧
  fst (Find two_users_client (AnyPtr (TSlice example_User) (Some 0%nat))
         "SELECT id, name FROM users" [] example_store) = Ok () ∧
  ∃ items,
    snd (Find two_users_client (AnyPtr (TSlice example_User) (Some 0%nat))
           "SELECT id, name FROM users" [] example_store) !! 0%nat
    = Some (VSlice (Some items)) ∧
    length items = length (pending two_users) ∧
    Forall (λ item, Value_Field item 2 = Value_Field (zero_value example_User) 2)
      items.
Proof.
  assert (∀ col, col ∈ columns two_users →
                 example_User_mapping !! col ≠ Some 2%nat) as Hcols.
  { intros col Hcol. cbv [two_users Reference.one_set columns] in Hcol.
    each_column Hcol. }
  split; [reflexivity|]. split; [exact Hcols|]. split; [reflexivity|].
  exact (Find_unmapped_fields_are_zero two_users_client example_User 0
           "SELECT id, name FROM users" [] example_store
           (Reference.stmt_returning two_users) two_users example_User_mapping
           2 eq_refl eq_refl eq_refl Hcols eq_refl).
Defined.

Lemma Find_no_row_gives_empty_slice_witness :
  Kind_of example_User = reflect.Struct ∧
  columns_err empty_users = None ∧
  pending empty_users = [] ∧
  lasterr empty_users = None ∧
  Find empty_users_client (AnyPtr (TSlice example_User) (Some 0%nat))
    "SELECT * FROM users WHERE id = ?" [DInt64 999] example_store
  = (Ok (), <[0%nat := VSlice (Some [])]> example_store) ∧
  VSlice (Some []) ≠ zero_value (TSlice example_User).
Proof.
  split; [reflexivity|]. split; [reflexivity|]. split; [reflexivity|].
  split; [reflexivity|].
  exact (Find_no_row_gives_empty_slice empty_users_client example_User 0
           "SELECT * FROM users WHERE id = ?" [DInt64 999] example_store
           (Reference.stmt_returning empty_users) empty_users
           eq_refl eq_refl eq_refl eq_refl eq_refl eq_refl).
Defined.

(** * Rows are materialised independently *)

Section Independence.
Context `{GoRuntime}.

Lemma convertAssign_stateless a b v :
  same_target a b → stateless a → convertAssign a v = convertAssign b v.
Proof. by destruct a, b. Qed.

Lemma same_target_stateless a b : same_target a b → stateless a → stateless b.
Proof. by destruct a, b. Qed.

Lemma scan_columns_stateless cols : ∀ (row : Row) index a b,
  Forall2 same_target a b → Forall stateless a →
  scan_columns index cols row a = scan_columns index cols row b.
Proof.
  induction row as [|v row IH]; intros index a b Hab Ha.
  - by destruct Hab.
  - destruct Hab as [|x y a b Hxy Hab]; [done|].
    apply Forall_cons in Ha as [Hx Ha]. simpl.
    rewrite (convertAssign_stateless x y v Hxy Hx).
    by rewrite (IH (S index) a b Hab Ha).
Qed.

Lemma Rows_Scan_stateless cols (row : Row) a b :
  Forall2 same_target a b → Forall stateless a →
  Rows_Scan cols row a = Rows_Scan cols row b.
Proof.
  intros Hab Ha. unfold Rows_Scan.
  rewrite (Forall2_length _ _ _ Hab).
  destruct (negb _); [done|]. by apply scan_columns_stateless.
Qed.

Lemma scanRows_loop_independent t mapping cols sd0 rows :
  ∀ scanDest results scanDest' results',
  Forall2 same_target sd0 scanDest →
  Forall stateless sd0 →
  for_rows_Next (scanRows_body t mapping cols) rows (scanDest, results)
  = Ok (scanDest', results') →
  ∃ items,
    results' = results ++ items ∧
    Forall2 (λ row item, ∃ after,
               scanRows_body t mapping cols row (sd0, []) = Ok (after, [item]))
      rows items.
Proof.
  induction rows as [|row rows IH]; cbn [for_rows_Next];
    intros sd acc sd' acc' Hsd Hsd0 Hloop.
  - simplify_eq. exists []. by rewrite app_nil_r.
  - apply bind_Ok_inv in Hloop as ([sd1 acc1] & Hbody & Hloop).
    unfold scanRows_body in Hbody.
    rewrite -(Rows_Scan_stateless cols row sd0 sd Hsd Hsd0) in Hbody.
    pose proof (Rows_Scan_same_target cols row sd0) as Hshape.
    destruct (Rows_Scan cols row sd0) as [sd2| |] eqn:Hscan; try done.
    simpl in Hbody.
    destruct (setColumns t mapping cols sd2 (zero_value t))
      as [[[]| |] item] eqn:Hset; simplify_eq.
    destruct (IH sd1 (acc ++ [item]) sd' acc' Hshape Hsd0 Hloop)
      as (items & -> & Hitems).
    exists (item :: items). split; [by rewrite -app_assoc|].
    constructor; [|done].
    exists sd1. unfold scanRows_body. by rewrite Hscan /= Hset.
Qed.

Lemma make_scanDest_stateless t mapping cols scanDest :
  (∀ i fieldType, Type_Field t i = Ok fieldType → null_scanned fieldType) →
  make_scanDest t mapping cols = Ok scanDest →
  Forall stateless scanDest.
Proof.
  intros Hfields. unfold make_scanDest. revert scanDest.
  induction cols as [|col cols IH]; intros scanDest; simpl.
  - by intros [= <-].
  - intros Hmake.
    apply bind_Ok_inv in Hmake as (scanner & Hcol & Hmake).
    apply bind_Ok_inv in Hmake as (scanners & Hrest & [= <-]).
    constructor; [|by apply IH].
    unfold columnScanner in Hcol.
    destruct (mapping !! col) as [i|]; [|by simplify_eq].
    apply bind_Ok_inv in Hcol as (fieldType & Hft & [= <-]).
    destruct (Hfields i fieldType Hft) as [v Hv].
    unfold createNullScanner.
    by destruct (Kind_of fieldType).
Qed.

(** X11. [scanRows] allocates its scan targets once and reuses them for
    every row, yet no row leaks into the next: when every field of the
    element type is of string, integer, float or bool kind, each item of
    a successful result is the item [scanRows] builds from a result set
    holding that row alone, in row order. *)
Theorem Find_items_depend_on_own_row
    (rows : Rows) (t : GoType) (results : list Value) :
  (∀ i fieldType, Type_Field t i = Ok fieldType → null_scanned fieldType) →
  scanRows_results rows t = Ok results →
  Forall2 (λ row item, scanRows_results (only_row rows row) t = Ok [item])
    (pending rows) results.
Proof.
  intros Hfields Hres.
  apply scanRows_results_succeeded in Hres
    as (mapping & sd0 & sd' & Hcolserr & Hmap & Hsd0 & Hloop & _ & _).
  pose proof (make_scanDest_stateless _ _ _ _ Hfields Hsd0) as Hstateless.
  destruct (scanRows_loop_independent t mapping (columns rows) sd0
              (pending rows) sd0 [] sd' results) as (items & -> & Hitems);
    [clear; induction sd0; constructor; [apply same_target_refl|done]
    |done|done|].
  simpl. eapply Forall2_impl; [exact Hitems|].
  intros row item [after Hbody].
  unfold scanRows_results, Rows_Columns, Rows_Err, only_row.
  cbn [columns_err columns pending lasterr].
  rewrite Hcolserr bind_Ok Hmap bind_Ok Hsd0 bind_Ok.
  cbn [for_rows_Next]. by rewrite Hbody.
Qed.

End Independence.

Lemma Find_items_depend_on_own_row_witness :
  (∀ i fieldType, Type_Field example_User i = Ok fieldType →
                  null_scanned fieldType) ∧
  scanRows_results two_users example_User
  = Ok [VStruct [VInt 1; VString "John"; VUint 0; VInt 0];
        VStruct [VInt 2; VString "Jane"; VUint 0; VInt 0]] ∧
  Forall2 (λ row item,
             scanRows_results (only_row two_users row) example_User = Ok [item])
    (pending two_users)
    [VStruct [VInt 1; VString "John"; VUint 0; VInt 0];
     VStruct [VInt 2; VString "Jane"; VUint 0; VInt 0]].
Proof.
  assert (∀ i fieldType, Type_Field example_User i = Ok fieldType →
                         null_scanned fieldType) as Hfields.
  { intros i fieldType Hft.
    destruct i as [|[|[|[|i]]]]; vm_compute in Hft; simplify_eq;
      by eexists. }
  split; [exact Hfields|]. split; [reflexivity|].
  apply (Find_items_depend_on_own_row two_users example_User);
    [exact Hfields|reflexivity].
Defined.

(** * The one-row paths *)

Section OneRow.
Context `{GoRuntime}.

(** X12. [First], [FirstCol] and [firstColAny] look at the column list
    and at the first row only.  Two results with the same columns and
    the same first row give the same outcome and the same store: the
    rows after the first are never scanned, and an error that ends the
    iteration is never reported, since [rows.Err] is not consulted. *)
Theorem one_row_paths_read_first_row_only
    (client client' : MySQLClient) (query query' : string)
    (args args' : list DriverValue) (stmt stmt' : Stmt) (rows rows' : Rows) :
  Prepare (DB client) query = inr stmt →
  Stmt_Query stmt args = inr rows →
  Prepare (DB client') query' = inr stmt' →
  Stmt_Query stmt' args' = inr rows' →
  columns_err rows = columns_err rows' →
  columns rows = columns rows' →
  head (pending rows) = head (pending rows') →
  (∀ dest store,
     First client dest query args store = First client' dest query' args' store) ∧
  (∀ dest store,
     FirstCol client dest query args store
     = FirstCol client' dest query' args' store) ∧
  (∀ T, firstColAny T client query args = firstColAny T client' query' args').
Proof.
  intros Hprep Hquery Hprep' Hquery' Hcolserr Hcols Hhead.
  assert (Rows_Columns rows = Rows_Columns rows') as HC.
  { unfold Rows_Columns. by rewrite Hcolserr Hcols. }
  assert (fst <$> Rows_Next rows = fst <$> Rows_Next rows') as HN.
  { unfold Rows_Next.
    destruct (pending rows), (pending rows'); simpl in *; congruence. }
  split; [|split].
  - intros dest store. unfold First.
    destruct (negb _ || negb _); [done|].
    destruct dest as [|t [l|]|]; try done.
    rewrite Hprep Hquery Hprep' Hquery'.
    unfold prepare_scan. rewrite HC.
    destruct (wrapErr _ (Rows_Columns rows') ≫= _) as [[[cols m] sd]| |];
      try done.
    destruct (Rows_Next rows) as [[row rest]|],
             (Rows_Next rows') as [[row' rest']|]; simplify_eq/=; done.
  - intros dest store. unfold FirstCol.
    destruct (negb _); [done|].
    rewrite Hprep Hprep'. cbv beta iota. rewrite Hquery Hquery'.
    cbv beta iota. rewrite HC.
    destruct (wrapErr _ (Rows_Columns rows')) as [cols| |]; try done.
    destruct (negb _); [done|].
    destruct (Rows_Next rows) as [[row rest]|],
             (Rows_Next rows') as [[row' rest']|]; simplify_eq/=; done.
  - intros T. unfold firstColAny.
    rewrite Hprep Hprep' /= Hquery Hquery' /= HC.
    destruct (wrapErr _ (Rows_Columns rows')) as [cols| |]; try done. simpl.
    destruct (negb _); [done|].
    destruct (Rows_Next rows) as [[row rest]|],
             (Rows_Next rows') as [[row' rest']|]; simplify_eq/=; done.
Qed.

End OneRow.

Lemma one_row_paths_read_first_row_only_witness :
  columns_err two_users = columns_err (only_row two_users john_row) ∧
  columns two_users = columns (only_row two_users john_row) ∧
  head (pending two_users) = head (pending (only_row two_users john_row)) ∧
  (∀ dest store,
     First two_users_client dest "SELECT id, name FROM users" [] store
     = First john_only_client dest "SELECT id, name FROM users LIMIT 1" [] store) ∧
  (∀ dest store,
     FirstCol two_users_client dest "SELECT id, name FROM users" [] store
     = FirstCol john_only_client dest "SELECT id, name FROM users LIMIT 1" []
         store) ∧
  (∀ T, firstColAny T two_users_client "SELECT id, name FROM users" []
        = firstColAny T john_only_client "SELECT id, name FROM users LIMIT 1" []).
Proof.
  split; [reflexivity|]. split; [reflexivity|]. split; [reflexivity|].
  exact (one_row_paths_read_first_row_only two_users_client john_only_client
           "SELECT id, name FROM users" "SELECT id, name FROM users LIMIT 1"
           [] [] (Reference.stmt_returning two_users)
           (Reference.stmt_returning (only_row two_users john_row))
           two_users (only_row two_users john_row)
           eq_refl eq_refl eq_refl eq_refl eq_refl eq_refl eq_refl).
Defined.

(** * Properties of [FirstCol] *)

Section SingleColumn.
Context `{GoRuntime}.

(** X13. [FirstCol] on a single-column query that yields no row returns
    [found = false] without error and leaves the store as it was.  The
    destination pointer is not followed on that path: it may even be
    nil. *)
Theorem FirstCol_no_row_keeps_destination
    (client : MySQLClient) (t : GoType) (p : option nat) (query : string)
    (args : list DriverValue) (store : gmap nat Value)
    (stmt : Stmt) (rows : Rows) (col : string) :
  Prepare (DB client) query = inr stmt →
  Stmt_Query stmt args = inr rows →
  columns_err rows = None →
  columns rows = [col] →
  pending rows = [] →
  FirstCol client (AnyPtr t p) query args store = (Ok false, store).
Proof.
  intros Hprep Hquery Hcolserr Hcols Hrows.
  unfold FirstCol, Rows_Columns, Rows_Next. simpl.
  by rewrite Hprep Hquery Hcolserr /= Hcols /= Hrows.
Qed.

(** X14. [FirstCol] changes the store on one path only, the one that
    returns [found = true], and then only the variable the destination
    points to.  Every error, every panic and the answer
    [found = false] leave the caller's variable untouched: there is no
    partial write. *)
Theorem FirstCol_writes_only_when_found
    (client : MySQLClient) (dest : GoAny) (query : string)
    (args : list DriverValue) (store : gmap nat Value) :
  match FirstCol client dest query args store with
  | (Ok true, store') =>
      ∃ t l v, dest = AnyPtr t (Some l) ∧ store' = <[l := v]> store
  | (_, store') => store' = store
  end.
Proof.
  unfold FirstCol.
  destruct (negb _); [done|].
  destruct (Prepare (DB client) query) as [e|stmt]; [done|].
  destruct (Stmt_Query stmt args) as [e|rows]; [done|].
  destruct (wrapErr _ (Rows_Columns rows)) as [cols| |]; try done.
  destruct (negb _); [done|].
  destruct (Rows_Next rows) as [[row rest]|]; [|done].
  destruct dest as [|t [l|]|]; try done.
  destruct (wrapErr _ (Rows_Scan cols row _)) as [scanned| |]; try done.
  destruct (head scanned) as [scanner'|]; [|done].
  destruct (store !! l) as [field|]; [|done].
  destruct (wrapErr _ (setFieldFromNullScanner field scanner' t)) as [v| |];
    try done.
  by exists t, l, v.
Qed.

(** X15. When the first row of a single-column result holds SQL NULL,
    [FirstCol] into a variable of string, integer, float or bool kind
    returns [found = true] and overwrites the variable with the zero
    value of its type, whatever it held before. *)
Theorem FirstCol_null_overwrites_with_zero
    (client : MySQLClient) (t : GoType) (l : nat) (query : string)
    (args : list DriverValue) (store : gmap nat Value)
    (stmt : Stmt) (rows : Rows) (col : string) (rest : list Row)
    (old v : Value) :
  Prepare (DB client) query = inr stmt →
  Stmt_Query stmt args = inr rows →
  columns_err rows = None →
  columns rows = [col] →
  pending rows = [DNull] :: rest →
  spec_null_value (Kind_of t) = Some v →
  store !! l = Some old →
  FirstCol client (AnyPtr t (Some l)) query args store
  = (Ok true, <[l := v]> store) ∧
  v = zero_value t.
Proof.
  intros Hprep Hquery Hcolserr Hcols Hrows Hkind Hold.
  unfold FirstCol, Rows_Columns, Rows_Next. simpl.
  rewrite Hprep Hquery Hcolserr /= Hcols /= Hrows Hold.
  destruct t as [k| | |]; simpl in Hkind; try discriminate.
  destruct k; simpl in Hkind; try discriminate; simplify_eq; done.
Qed.

(** X16. For a destination of type [*int64] or [*string], [FirstCol]
    and the generic [firstColAny] are one function in two shapes: they
    fail with the same error, and otherwise [FirstCol] returns the flag
    [firstColAny] returns and has stored, when the flag is true, the
    value [firstColAny] returns.  (The integer the driver delivers is
    an [int64]: it lies in the range of the type.) *)
Theorem FirstCol_agrees_with_firstColAny
    (T : ElemType) (client : MySQLClient) (l : nat) (query : string)
    (args : list DriverValue) (store : gmap nat Value) (old : Value) :
  store !! l = Some old →
  (∀ i, firstColAny T client query args = Ok (VInt i, true) →
        - 2 ^ 63 ≤ i < 2 ^ 63) →
  FirstCol client (AnyPtr (ElemType_type T) (Some l)) query args store
  = match firstColAny T client query args with
    | Ok (value, true) => (Ok true, <[l := value]> store)
    | Ok (_, false) => (Ok false, store)
    | Err e => (Err e, store)
    | Panic p => (Panic p, store)
    end.
Proof.
  intros Hold Hrange.
  unfold FirstCol, firstColAny, Rows_Columns, Rows_Next in *. simpl in *.
  destruct (Prepare (DB client) query) as [e|stmt]; [done|]. simpl in *.
  destruct (Stmt_Query stmt args) as [e|rows]; [done|]. simpl in *.
  destruct (columns_err rows) as [e|]; [done|]. simpl in *.
  destruct (negb _); [done|].
  destruct (pending rows) as [|row rest]; [done|].
  destruct row as [|src [|src' row]]; [by destruct T| |by destruct T].
  destruct T; simpl in *; unfold Rows_Scan in *; simpl in *.
  - destruct src; simpl in *;
      first
        [ match goal with
          | |- context [asInt64 ?src] =>
              destruct (asInt64 src) as [e|i]; simpl in *;
              [done|]; rewrite Hold /=; unfold SetInt; simpl;
              destruct (wrap_signed_spec 64 i ltac:(done)) as (_ & _ & Hsmall);
              by rewrite (Hsmall (Hrange i eq_refl))
          end
        | by rewrite Hold ].
  - by destruct src; simpl; rewrite Hold.
Qed.

End SingleColumn.

Lemma FirstCol_no_row_keeps_destination_witness :
  columns_err no_id = None ∧
  columns no_id = ["id"] ∧
  pending no_id = [] ∧
  FirstCol no_id_client (AnyPtr (TBasic reflect.Int64) None)
    "SELECT id FROM users WHERE id = ?" [DInt64 999] counter_store
  = (Ok false, counter_store).
Proof.
  split; [reflexivity|]. split; [reflexivity|]. split; [reflexivity|].
  apply (FirstCol_no_row_keeps_destination no_id_client (TBasic reflect.Int64)
           None "SELECT id FROM users WHERE id = ?" [DInt64 999] counter_store
           (Reference.stmt_returning no_id) no_id "id");
    reflexivity.
Defined.

Lemma FirstCol_null_overwrites_with_zero_witness :
  columns_err null_id = None ∧
  columns null_id = ["id"] ∧
  pending null_id = [DNull] :: [] ∧
  spec_null_value (Kind_of (TBasic reflect.Int64)) = Some (VInt 0) ∧
  counter_store !! 5%nat = Some (VInt 42) ∧
  FirstCol null_id_client (AnyPtr (TBasic reflect.Int64) (Some 5%nat))
    "SELECT NULL as id" [] counter_store
  = (Ok true, <[5%nat := VInt 0]> counter_store) ∧
  VInt 0 = zero_value (TBasic reflect.Int64).
Proof.
  split; [reflexivity|]. split; [reflexivity|]. split; [reflexivity|].
  split; [reflexivity|]. split; [reflexivity|].
  apply (FirstCol_null_overwrites_with_zero null_id_client
           (TBasic reflect.Int64) 5 "SELECT NULL as id" [] counter_store
           (Reference.stmt_returning null_id) null_id "id" [] (VInt 42) (VInt 0));
    reflexivity.
Defined.

Lemma FirstCol_agrees_with_firstColAny_witness :
  counter_store !! 5%nat = Some (VInt 42) ∧
  (∀ i, firstColAny T_int64 seven_id_client "SELECT id FROM users" []
        = Ok (VInt i, true) → - 2 ^ 63 ≤ i < 2 ^ 63) ∧
  firstColAny T_int64 seven_id_client "SELECT id FROM users" []
  = Ok (VInt 7, true) ∧
  FirstCol seven_id_client (AnyPtr (ElemType_type T_int64) (Some 5%nat))
    "SELECT id FROM users" [] counter_store
  = match firstColAny T_int64 seven_id_client "SELECT id FROM users" [] with
    | Ok (value, true) => (Ok true, <[5%nat := value]> counter_store)
    | Ok (_, false) => (Ok false, counter_store)
    | Err e => (Err e, counter_store)
    | Panic p => (Panic p, counter_store)
    end.
Proof.
  assert (∀ i, firstColAny T_int64 seven_id_client "SELECT id FROM users" []
               = Ok (VInt i, true) → - 2 ^ 63 ≤ i < 2 ^ 63) as Hrange.
  { intros i Hcall. vm_compute in Hcall. injection Hcall as <-. lia. }
  split; [reflexivity|]. split; [exact Hrange|]. split; [reflexivity|].
  exact (FirstCol_agrees_with_firstColAny T_int64 seven_id_client 5
           "SELECT id FROM users" [] counter_store (VInt 42) eq_refl Hrange).
Defined.

(** * Further properties of the multi-result-set dispatcher *)

Section Dispatcher2.
Context `{GoRuntime}.

(** X17. With one slice destination and a procedure that yields one
    result set, [FindMultipleProc] does what [FindProc] does: the same
    store on success and on failure, and the same error, prefixed with
    [failed to scan result set 0: ]. *)
Theorem FindMultipleProc_one_slice_is_FindProc
    (client : MySQLClient) (t : GoType) (l : nat) (procName : string)
    (args : list DriverValue) (store : gmap nat Value)
    (stmt : Stmt) (rows : Rows) :
  Prepare (DB client) (procQuery procName args) = inr stmt →
  Stmt_Query stmt args = inr rows →
  nextSets rows = [] →
  FindMultipleProc client [AnyPtr (TSlice t) (Some l)] procName args store
  = match FindProc client (AnyPtr (TSlice t) (Some l)) procName args store with
    | (Err e, store') =>
        (Err ("failed to scan result set 0: " +:+ e), store')
    | other => other
    end.
Proof.
  intros Hprep Hquery Hsets.
  unfold FindMultipleProc, FindProc, Find. simpl.
  rewrite Hprep Hquery Hsets /=.
  unfold dispatch_one. simpl.
  destruct (scanRows rows l t store) as [[[]|e|p] store']; try done.
  by destruct (lasterr rows).
Qed.

(** X18. A struct destination of [FindMultipleProc] is not filled in
    place as [First] fills it: when the result set has a row, the
    destination is replaced by a new item, so that a field no column is
    mapped to holds the zero value of its type afterwards, not what the
    caller had put there. *)
Theorem FindMultipleProc_rebuilds_struct
    (client : MySQLClient) (t : GoType) (l : nat) (procName : string)
    (args : list DriverValue) (store : gmap nat Value)
    (stmt : Stmt) (rows : Rows) (mapping : gmap string nat) (i : nat)
    (row : Row) (rest : list Row) :
  Kind_of t = reflect.Struct →
  Prepare (DB client) (procQuery procName args) = inr stmt →
  Stmt_Query stmt args = inr rows →
  nextSets rows = [] →
  getFieldsMapping t = Ok mapping →
  (∀ col, col ∈ columns rows → mapping !! col ≠ Some i) →
  pending rows = row :: rest →
  fst (FindMultipleProc client [AnyPtr t (Some l)] procName args store) = Ok () →
  ∃ item,
    snd (FindMultipleProc client [AnyPtr t (Some l)] procName args store) !! l
    = Some item ∧
    Value_Field item i = Value_Field (zero_value t) i.
Proof.
  intros Hkind Hprep Hquery Hsets Hmap Hcols Hrows.
  unfold FindMultipleProc. simpl. rewrite Hprep Hquery Hsets /=.
  unfold dispatch_one. simpl. rewrite Hkind /=.
  assert (match t with
          | TSlice sliceElemType =>
              match scanRows rows l sliceElemType store with
              | (Err e, store') =>
                  (Err ("failed to scan result set " +:+ pretty 0%nat +:+ ": " +:+ e),
                   store')
              | other => other
              end
          | _ => dispatch_struct rows l t store
          end = dispatch_struct rows l t store) as ->
    by by destruct t.
  unfold dispatch_struct.
  destruct (prepare_scan rows t) as [[[cols mapping'] scanDest]| |] eqn:Hscan;
    [|done..].
  apply prepare_scan_inv in Hscan as (_ & -> & Hmap' & _).
  assert (mapping' = mapping) as -> by congruence.
  unfold Rows_Next. rewrite Hrows.
  destruct (wrapErr _ (Rows_Scan _ _ _)) as [scanDest'| |]; [|done..].
  pose proof (setColumns_frame t mapping i (columns rows) scanDest'
                (zero_value t) Hcols) as Hframe.
  destruct (setColumns t mapping (columns rows) scanDest' (zero_value t))
    as [[[]| |] item']; try done.
  intros _. exists item'. destruct (lasterr rows); by rewrite /= lookup_insert_eq.
Qed.

End Dispatcher2.

Lemma FindMultipleProc_one_slice_is_FindProc_witness :
  nextSets users_only = [] ∧
  FindMultipleProc users_only_client [AnyPtr (TSlice example_User) (Some 0%nat)]
    "GetUsers" [DInt64 2023] example_store
  = match FindProc users_only_client (AnyPtr (TSlice example_User) (Some 0%nat))
            "GetUsers" [DInt64 2023] example_store with
    | (Err e, store') =>
        (Err ("failed to scan result set 0: " +:+ e), store')
    | other => other
    end.
Proof.
  split; [reflexivity|].
  exact (FindMultipleProc_one_slice_is_FindProc users_only_client example_User 0
           "GetUsers" [DInt64 2023] example_store
           (Reference.stmt_returning users_only) users_only
           eq_refl eq_refl eq_refl).
Defined.

Lemma FindMultipleProc_rebuilds_struct_witness :
  Kind_of example_User = reflect.Struct ∧
  getFieldsMapping example_User = Ok example_User_mapping ∧
  (∀ col, col ∈ columns two_users → example_User_mapping !! col ≠ Some 2%nat) ∧
  fst (FindMultipleProc two_users_client [AnyPtr example_User (Some 3%nat)]
         "GetUser" [DInt64 1] kept_user_store) = Ok () ∧
  ∃ item,
    snd (FindMultipleProc two_users_client [AnyPtr example_User (Some 3%nat)]
           "GetUser" [DInt64 1] kept_user_store) !! 3%nat = Some item ∧
    Value_Field item 2 = Value_Field (zero_value example_User) 2.
Proof.
  assert (∀ col, col ∈ columns two_users →
                 example_User_mapping !! col ≠ Some 2%nat) as Hcols.
  { intros col Hcol. cbv [two_users Reference.one_set columns] in Hcol.
    each_column Hcol. }
  split; [reflexivity|]. split; [reflexivity|]. split; [exact Hcols|].
  split; [reflexivity|].
  exact (FindMultipleProc_rebuilds_struct two_users_client example_User 3
           "GetUser" [DInt64 1] kept_user_store
           (Reference.stmt_returning two_users) two_users example_User_mapping 2
           john_row [[DInt64 2; DString "Jane"]]
           eq_refl eq_refl eq_refl eq_refl eq_refl Hcols eq_refl eq_refl).
Defined.

(** * Naming a column *)

Section Columns.
Context `{GoRuntime}.

Lemma lastIndexOf_snoc name cols c :
  lastIndexOf name (cols ++ [c])
  = if bool_decide (c = name) then Some (length cols) else lastIndexOf name cols.
Proof.
  unfold lastIndexOf. by rewrite imap_app fold_left_app /= Nat.add_0_r.
Qed.


Lemma lastIndexOf_None name cols :
  lastIndexOf name cols = None ↔ name ∉ cols.
Proof.
  induction cols as [|c cols IH] using rev_ind.
  - split; [intros _; apply not_elem_of_nil|done].
  - rewrite lastIndexOf_snoc not_elem_of_app not_elem_of_cons.
    case_bool_decide as Hc; [|rewrite IH].
    + split; [done|]. intros (_ & Hne & _). by destruct Hne.
    + split; [|tauto]. intros Hcols. split; [done|]. split; [done|].
      apply not_elem_of_nil.
Qed.


(** X20. [findArray] for a field name that is not among the columns of
    the result fails with [field '...' not found in query results],
    whatever the rows are, and also when there is none. *)
Theorem findArray_unknown_field
    (T : ElemType) (client : MySQLClient) (fieldName query : string)
    (args : list DriverValue) (stmt : Stmt) (rows : Rows) :
  Prepare (DB client) query = inr stmt →
  Stmt_Query stmt args = inr rows →
  columns_err rows = None →
  fieldName ∉ columns rows →
  findArray T client fieldName query args
  = Err ("field '" +:+ fieldName +:+ "' not found in query results").
Proof.
  intros Hprep Hquery Hcolserr Hmissing.
  unfold findArray, Rows_Columns.
  rewrite Hprep /= Hquery /= Hcolserr /=.
  destruct (list_find _ (columns rows)) as [[i c]|] eqn:Hfind; [|done].
  apply list_find_Some in Hfind as (Hi & -> & _).
  destruct Hmissing. by eapply list_elem_of_lookup_2.
Qed.

(** X21. [findMap] checks the key column before the value column: a key
    field that is not among the columns fails with
    [key field '...' not found in query results]; with the key column
    present, a named value field that is not among the columns fails
    with [value field '...' not found in query results].  No row is
    read in either case. *)
Theorem findMap_unknown_field
    (K Y : TypeParam) (client : MySQLClient)
    (keyField valueField query : string) (args : list DriverValue)
    (stmt : Stmt) (rows : Rows) :
  keyField ≠ "" →
  Prepare (DB client) query = inr stmt →
  Stmt_Query stmt args = inr rows →
  columns_err rows = None →
  (keyField ∉ columns rows →
   findMap K Y client keyField valueField query args
   = Err ("key field '" +:+ keyField +:+ "' not found in query results")) ∧
  (keyField ∈ columns rows → valueField ≠ "" → valueField ∉ columns rows →
   findMap K Y client keyField valueField query args
   = Err ("value field '" +:+ valueField +:+ "' not found in query results")).
Proof.
  intros Hkey Hprep Hquery Hcolserr.
  unfold findMap, Rows_Columns.
  rewrite (bool_decide_eq_false_2 _ Hkey) Hprep /= Hquery /= Hcolserr /=.
  split.
  - intros Hmissing%lastIndexOf_None. by rewrite Hmissing.
  - intros Hin Hvalue Hmissing%lastIndexOf_None.
    destruct (lastIndexOf keyField (columns rows)) as [keyIndex|] eqn:Hki;
      [|by apply lastIndexOf_None in Hki].
    by rewrite (bool_decide_eq_false_2 _ Hvalue) Hmissing.
Qed.

End Columns.


Lemma findArray_unknown_field_witness :
  columns_err two_users = None ∧
  ("age" ∉ columns two_users) ∧
  findArray T_int64 two_users_client "age" "SELECT id, name FROM users" []
  = Err ("field '" +:+ "age" +:+ "' not found in query results").
Proof.
  assert ("age" ∉ columns two_users) as Hmissing.
  { cbv [two_users Reference.one_set columns]. not_a_column. }
  split; [reflexivity|]. split; [exact Hmissing|].
  exact (findArray_unknown_field T_int64 two_users_client "age"
           "SELECT id, name FROM users" [] (Reference.stmt_returning two_users)
           two_users eq_refl eq_refl eq_refl Hmissing).
Defined.

Lemma findMap_unknown_field_witness :
  "id" ≠ "" ∧
  columns_err two_users = None ∧
  ("id" ∉ columns two_users →
   findMap P_int64 P_string two_users_client "id" "city"
     "SELECT id, name FROM users" []
   = Err ("key field '" +:+ "id" +:+ "' not found in query results")) ∧
  ("id" ∈ columns two_users → "city" ≠ "" → "city" ∉ columns two_users →
   findMap P_int64 P_string two_users_client "id" "city"
     "SELECT id, name FROM users" []
   = Err ("value field '" +:+ "city" +:+ "' not found in query results")).
Proof.
  split; [done|]. split; [reflexivity|].
  apply (findMap_unknown_field P_int64 P_string two_users_client "id" "city"
           "SELECT id, name FROM users" [] (Reference.stmt_returning two_users)
           two_users); [done|reflexivity..].
Defined.

(** * Further properties of the key-value map retrieval *)

Section MapRetrieval2.
Context `{GoRuntime}.

Lemma findMap_text_call K Y client keyField valueField query args stmt rows
    keyIndex valueIndex :
  keyField ≠ "" →
  valueField ≠ "" →
  Prepare (DB client) query = inr stmt →
  Stmt_Query stmt args = inr rows →
  columns_err rows = None →
  lastIndexOf keyField (columns rows) = Some keyIndex →
  lastIndexOf valueField (columns rows) = Some valueIndex →
  lasterr rows = None →
  Forall (λ row : Row, length row = length (columns rows)) (pending rows) →
  findMap K Y client keyField valueField query args
  = Ok (let m := fold_left (findMap_text_row K Y keyIndex valueIndex)
                   (pending rows) ∅ in
        if bool_decide (size m = 0%nat) then None else Some m).
Proof.
  intros Hkey Hvalue Hprep Hquery Hcolserr Hki Hvi Herr Hrows.
  unfold findMap, Rows_Columns, Rows_Err.
  rewrite (bool_decide_eq_false_2 _ Hkey) Hprep /= Hquery /= Hcolserr /=.
  rewrite Hki (bool_decide_eq_false_2 _ Hvalue) Hvi /=.
  assert (∃ fieldsMapping,
            (if bool_decide (Kind_of (reflect_Type Y) = reflect.Struct)
             then getFieldsMapping (reflect_Type Y) else Ok ∅)
            = Ok fieldsMapping) as [fieldsMapping ->].
  { case_bool_decide as Hstruct; [|by eexists].
    destruct (struct_fields_of_struct _ Hstruct) as [fields Hfields].
    unfold getFieldsMapping. rewrite Hfields /=. by eexists. }
  rewrite bind_Ok findMap_loop_text //;
    [by eapply lookup_lt_Some, lastIndexOf_lookup
    |by eapply lookup_lt_Some, lastIndexOf_lookup|].
  rewrite bind_Ok Herr. by case_bool_decide.
Qed.

Lemma findMap_text_row_lookup K Y keyIndex valueIndex result (row : Row) k :
  findMap_text_row K Y keyIndex valueIndex result row !! k
  = match findMap_text_entry K Y keyIndex valueIndex k row with
    | Some v => Some v
    | None => result !! k
    end.
Proof.
  unfold findMap_text_row, findMap_text_entry.
  destruct (row !! keyIndex) as [[]|]; try done;
    (case_bool_decide as Hk;
     [by rewrite Hk lookup_insert_eq|by rewrite lookup_insert_ne]).
Qed.

Lemma findMap_text_rows_lookup K Y keyIndex valueIndex rows k :
  fold_left (findMap_text_row K Y keyIndex valueIndex) rows ∅ !! k
  = last (omap (findMap_text_entry K Y keyIndex valueIndex k) rows).
Proof.
  induction rows as [|row rows IH] using rev_ind; [done|].
  rewrite fold_left_app /= findMap_text_row_lookup IH omap_app /=.
  destruct (findMap_text_entry K Y keyIndex valueIndex k row) as [v|]; simpl.
  - by rewrite last_snoc.
  - by rewrite app_nil_r.
Qed.

(** X22. With a value column named, the map [findMap] returns holds,
    under each key, the value of the last row that has this key: rows
    with a NULL key contribute nothing, and of several rows with the
    same key the later one overwrites the earlier.  A map without
    entries is returned as nil. *)
Theorem findMap_last_row_wins
    (K Y : TypeParam) (client : MySQLClient)
    (keyField valueField query : string) (args : list DriverValue)
    (stmt : Stmt) (rows : Rows) (keyIndex valueIndex : nat) :
  keyField ≠ "" →
  valueField ≠ "" →
  Prepare (DB client) query = inr stmt →
  Stmt_Query stmt args = inr rows →
  columns_err rows = None →
  lastIndexOf keyField (columns rows) = Some keyIndex →
  lastIndexOf valueField (columns rows) = Some valueIndex →
  lasterr rows = None →
  Forall (λ row : Row, length row = length (columns rows)) (pending rows) →
  ∃ m,
    findMap K Y client keyField valueField query args
    = Ok (if bool_decide (m = ∅) then None else Some m) ∧
    ∀ k, m !! k
         = last (omap (findMap_text_entry K Y keyIndex valueIndex k)
                   (pending rows)).
Proof.
  intros Hkey Hvalue Hprep Hquery Hcolserr Hki Hvi Herr Hrows.
  exists (fold_left (findMap_text_row K Y keyIndex valueIndex) (pending rows) ∅).
  split; [|intros k; apply findMap_text_rows_lookup].
  rewrite (findMap_text_call K Y client keyField valueField query args stmt rows
             keyIndex valueIndex) //.
  cbv zeta. f_equal.
  case_bool_decide as Hsize.
  - apply map_size_empty_iff in Hsize. by rewrite bool_decide_eq_true_2.
  - rewrite bool_decide_eq_false_2 //. intros Hm. apply Hsize.
    by rewrite Hm map_size_empty.
Qed.

(** X23. With a value column named, when the key column is NULL in
    every row, or there is no row, [findMap] returns the nil map
    without error, and not an empty map that is not nil. *)
Theorem findMap_without_keys_is_nil
    (K Y : TypeParam) (client : MySQLClient)
    (keyField valueField query : string) (args : list DriverValue)
    (stmt : Stmt) (rows : Rows) (keyIndex valueIndex : nat) :
  keyField ≠ "" →
  valueField ≠ "" →
  Prepare (DB client) query = inr stmt →
  Stmt_Query stmt args = inr rows →
  columns_err rows = None →
  lastIndexOf keyField (columns rows) = Some keyIndex →
  lastIndexOf valueField (columns rows) = Some valueIndex →
  lasterr rows = None →
  Forall (λ row : Row, length row = length (columns rows)) (pending rows) →
  Forall (λ row : Row, row !! keyIndex = Some DNull) (pending rows) →
  findMap K Y client keyField valueField query args = Ok None ∧
  findMap K Y client keyField valueField query args ≠ Ok (Some ∅).
Proof.
  intros Hkey Hvalue Hprep Hquery Hcolserr Hki Hvi Herr Hrows Hnull.
  assert (findMap K Y client keyField valueField query args = Ok None) as Hnil.
  { rewrite (findMap_text_call K Y client keyField valueField query args stmt
               rows keyIndex valueIndex) //.
    assert (fold_left (findMap_text_row K Y keyIndex valueIndex) (pending rows) ∅
            = ∅) as ->; [|done].
    clear -Hnull. generalize (∅ : gmap MapKey Value).
    induction Hnull as [|row rows' Hrow _ IH]; intros m; [done|].
    simpl. rewrite IH. unfold findMap_text_row. by rewrite Hrow. }
  split; [done|]. by rewrite Hnil.
Qed.


Lemma mapM_lookup {A B} (f : A → outcome B) (l : list A) : ∀ k i x,
  mapM f l = Ok k → l !! i = Some x → ∃ y, f x = Ok y ∧ k !! i = Some y.
Proof.
  induction l as [|a l IH]; intros k i x Hmap Hi; [done|].
  simpl in Hmap.
  apply bind_Ok_inv in Hmap as (y & Hy & Hmap).
  apply bind_Ok_inv in Hmap as (k' & Hk' & [= <-]).
  destruct i as [|i]; simpl in *; simplify_eq; [by exists y|].
  by eapply IH.
Qed.

Lemma GoType_eqb_ne a b : a ≠ b → GoType_eqb a b = false.
Proof.
  intros Hne. destruct (GoType_eqb a b) eqn:Heq; [|done].
  by apply GoType_eqb_eq in Heq.
Qed.

(** A row whose key sits in the scan target of a field that is neither
    a string nor an integer is skipped. *)
Lemma findMap_body_skips_untyped_key K Y keyIndex mapping cols fi ft
    (row : Row) result keyField targets targets' :
  Kind_of (reflect_Type Y) = reflect.Struct →
  cols !! keyIndex = Some keyField →
  mapping !! keyField = Some fi →
  Type_Field (reflect_Type Y) fi = Ok ft →
  Kind_of ft ≠ reflect.String →
  is_signed (Kind_of ft) = false →
  is_unsigned (Kind_of ft) = false →
  ft ≠ sql_NullString →
  ft ≠ sql_NullInt64 →
  findMap_scanDest Y "" mapping cols = Ok targets →
  Rows_Scan cols row targets = Ok targets' →
  findMap_body K Y "" keyIndex None mapping cols row result = Ok result.
Proof.
  intros Hstruct Hcol Hfi Hft Hstr Hsig Huns Hns%GoType_eqb_ne Hni%GoType_eqb_ne
    Hsd Hscan.
  unfold findMap_body. rewrite Hsd /= Hscan /=.
  unfold findMap_scanDest in Hsd.
  rewrite (bool_decide_eq_true_2 _ Hstruct) /= in Hsd.
  destruct (mapM_lookup _ _ _ _ _ Hsd Hcol) as (scanner & Hscanner & Hk).
  unfold columnScanner in Hscanner. rewrite Hfi Hft /= in Hscanner.
  injection Hscanner as <-.
  pose proof (Rows_Scan_same_target cols row targets) as Hshape.
  rewrite Hscan in Hshape.
  destruct (Forall2_lookup_l _ _ _ _ _ Hshape Hk) as (scanner' & -> & Hsame).
  unfold createNullScanner, reflect_New in Hsame. rewrite Hns Hni in Hsame.
  destruct (Kind_of ft); try done;
    repeat (destruct (GoType_eqb ft _); simpl in Hsame);
    by destruct scanner'.
Qed.

(** X25. With the whole row as the value, the key is read from the scan
    target of the struct field the key column is mapped to, and only
    the targets for string and integer fields are understood.  When the
    key column is mapped to a field of any other kind (a float, a bool,
    a time), and the field is not declared [sql.NullString] or
    [sql.NullInt64], every row is skipped as if its key were NULL:
    each row that scans leaves the map as it was; when all rows scan
    and the iteration ends without error the call returns the nil map
    without error, whatever keys the rows hold; and in no case does the
    call return a map with an entry. *)
Theorem findMap_struct_key_of_other_kind_yields_nothing
    (K Y : TypeParam) (client : MySQLClient) (keyField query : string)
    (args : list DriverValue) (stmt : Stmt) (rows : Rows)
    (mapping : gmap string nat) (fi : nat) (ft : GoType) :
  keyField ≠ "" →
  Kind_of (reflect_Type Y) = reflect.Struct →
  Prepare (DB client) query = inr stmt →
  Stmt_Query stmt args = inr rows →
  getFieldsMapping (reflect_Type Y) = Ok mapping →
  mapping !! keyField = Some fi →
  Type_Field (reflect_Type Y) fi = Ok ft →
  Kind_of ft ≠ reflect.String →
  is_signed (Kind_of ft) = false →
  is_unsigned (Kind_of ft) = false →
  ft ≠ sql_NullString →
  ft ≠ sql_NullInt64 →
  (∀ keyIndex targets targets' row result,
     lastIndexOf keyField (columns rows) = Some keyIndex →
     findMap_scanDest Y "" mapping (columns rows) = Ok targets →
     Rows_Scan (columns rows) row targets = Ok targets' →
     findMap_body K Y "" keyIndex None mapping (columns rows) row result
     = Ok result) ∧
  (∀ keyIndex targets,
     columns_err rows = None →
     lastIndexOf keyField (columns rows) = Some keyIndex →
     findMap_scanDest Y "" mapping (columns rows) = Ok targets →
     Forall (λ row, is_Ok (Rows_Scan (columns rows) row targets) = true)
       (pending rows) →
     lasterr rows = None →
     findMap K Y client keyField "" query args = Ok None) ∧
  ∀ m, findMap K Y client keyField "" query args ≠ Ok (Some m).
Proof.
  intros Hkey Hstruct Hprep Hquery Hmap Hfi Hft Hstr Hsig Huns Hns Hni.
  assert (∀ keyIndex targets targets' row result,
            lastIndexOf keyField (columns rows) = Some keyIndex →
            findMap_scanDest Y "" mapping (columns rows) = Ok targets →
            Rows_Scan (columns rows) row targets = Ok targets' →
            findMap_body K Y "" keyIndex None mapping (columns rows) row result
            = Ok result) as Hskip.
  { intros keyIndex targets targets' row result Hki%lastIndexOf_lookup Hsd Hscan.
    by eapply findMap_body_skips_untyped_key. }
  split; [exact Hskip|]. split.
  - intros keyIndex targets Hcolserr Hki Hsd Hrows Herr.
    unfold findMap, Rows_Columns, Rows_Err.
    rewrite (bool_decide_eq_false_2 _ Hkey) Hprep /= Hquery /= Hcolserr /= Hki /=.
    rewrite (bool_decide_eq_true_2 _ Hstruct) Hmap /=.
    assert (for_rows_Next
              (findMap_body K Y "" keyIndex None mapping (columns rows))
              (pending rows) ∅ = Ok ∅) as ->.
    { generalize (∅ : gmap MapKey Value).
      induction Hrows as [|row rs Hrow _ IH]; intros result; [done|].
      cbn [for_rows_Next].
      destruct (Rows_Scan (columns rows) row targets) as [targets'| |] eqn:Hscan;
        try done.
      by rewrite (Hskip keyIndex targets targets' row result Hki Hsd Hscan) /=. }
    by rewrite /= Herr.
  - intros m. unfold findMap, Rows_Columns, Rows_Err.
    rewrite (bool_decide_eq_false_2 _ Hkey) Hprep /= Hquery /=.
    destruct (columns_err rows); [done|]. simpl.
    destruct (lastIndexOf keyField (columns rows)) as [keyIndex|] eqn:Hki;
      [|done].
    rewrite (bool_decide_eq_true_2 _ Hstruct) Hmap /=.
    assert (∀ rs result result',
              for_rows_Next (findMap_body K Y "" keyIndex None mapping (columns rows))
                rs result = Ok result' → result' = result) as Hloop.
    { induction rs as [|row rs IH]; intros result result'; cbn [for_rows_Next].
      - by intros [= <-].
      - intros (mid & Hbody & Hrest)%bind_Ok_inv.
        apply IH in Hrest as ->.
        pose proof Hbody as Hbody'. unfold findMap_body in Hbody'.
        apply bind_Ok_inv in Hbody' as (sd & Hsd & Hbody').
        apply bind_Ok_inv in Hbody' as (sd' & Hscan%wrapErr_Ok_inv & _).
        rewrite (Hskip keyIndex sd sd' row result eq_refl Hsd Hscan) in Hbody.
        by simplify_eq. }
    destruct (for_rows_Next _ (pending rows) ∅) as [result| |] eqn:Hrun;
      try done.
    apply Hloop in Hrun as ->. simpl.
    by destruct (lasterr rows).
Qed.

End MapRetrieval2.

Lemma findMap_last_row_wins_witness :
  columns_err repeated_key = None ∧
  lastIndexOf "code" (columns repeated_key) = Some 0%nat ∧
  lastIndexOf "city" (columns repeated_key) = Some 1%nat ∧
  lasterr repeated_key = None ∧
  Forall (λ row : Row, length row = length (columns repeated_key))
    (pending repeated_key) ∧
  ∃ m,
    findMap P_string P_string repeated_key_client "code" "city"
      "SELECT code, city FROM offices" []
    = Ok (if bool_decide (m = ∅) then None else Some m) ∧
    ∀ k, m !! k
         = last (omap (findMap_text_entry P_string P_string 0 1 k)
                   (pending repeated_key)).
Proof.
  assert (Forall (λ row : Row, length row = length (columns repeated_key))
            (pending repeated_key)) as Hrows.
  { repeat apply Forall_cons_2; try apply Forall_nil_2; reflexivity. }
  split; [reflexivity|]. split; [reflexivity|]. split; [reflexivity|].
  split; [reflexivity|]. split; [exact Hrows|].
  exact (findMap_last_row_wins P_string P_string repeated_key_client "code" "city"
           "SELECT code, city FROM offices" []
           (Reference.stmt_returning repeated_key) repeated_key 0%nat 1%nat
           ltac:(done) ltac:(done) eq_refl eq_refl eq_refl eq_refl eq_refl
           eq_refl Hrows).
Defined.

(** The second office of code [a] is the one that stays. *)
Example findMap_repeated_key :
  findMap P_string P_string repeated_key_client "code" "city"
    "SELECT code, city FROM offices" []
  = Ok (Some {[KeyStr "a" := VString "Bern"; KeyStr "b" := VString "Rome"]}).
Proof. vm_compute. reflexivity. Qed.

Lemma findMap_without_keys_is_nil_witness :
  columns_err null_key = None ∧
  lastIndexOf "code" (columns null_key) = Some 0%nat ∧
  lastIndexOf "city" (columns null_key) = Some 1%nat ∧
  lasterr null_key = None ∧
  Forall (λ row : Row, length row = length (columns null_key)) (pending null_key) ∧
  Forall (λ row : Row, row !! 0%nat = Some DNull) (pending null_key) ∧
  findMap P_string P_string null_key_client "code" "city"
    "SELECT code, city FROM offices" [] = Ok None ∧
  findMap P_string P_string null_key_client "code" "city"
    "SELECT code, city FROM offices" [] ≠ Ok (Some ∅).
Proof.
  assert (Forall (λ row : Row, length row = length (columns null_key))
            (pending null_key)) as Hrows.
  { repeat apply Forall_cons_2; try apply Forall_nil_2; reflexivity. }
  assert (Forall (λ row : Row, row !! 0%nat = Some DNull) (pending null_key))
    as Hnull.
  { repeat apply Forall_cons_2; try apply Forall_nil_2; reflexivity. }
  split; [reflexivity|]. split; [reflexivity|]. split; [reflexivity|].
  split; [reflexivity|]. split; [exact Hrows|]. split; [exact Hnull|].
  exact (findMap_without_keys_is_nil P_string P_string null_key_client
           "code" "city" "SELECT code, city FROM offices" []
           (Reference.stmt_returning null_key) null_key 0%nat 1%nat
           ltac:(done) ltac:(done) eq_refl eq_refl eq_refl eq_refl eq_refl
           eq_refl Hrows Hnull).
Defined.


Lemma findMap_struct_key_of_other_kind_yields_nothing_witness :
  "price" ≠ "" ∧
  Kind_of (reflect_Type (P_other example_Price)) = reflect.Struct ∧
  getFieldsMapping (reflect_Type (P_other example_Price))
  = Ok example_Price_mapping ∧
  example_Price_mapping !! "price" = Some 0%nat ∧
  Type_Field (reflect_Type (P_other example_Price)) 0
  = Ok (TBasic reflect.Float64) ∧
  findMap_scanDest (P_other example_Price) "" example_Price_mapping
    (columns prices)
  = Ok [NullFloat64 float_zero false; NullString "" false] ∧
  Forall (λ row, is_Ok (Rows_Scan (columns prices) row
                          [NullFloat64 float_zero false; NullString "" false])
                 = true) (pending prices) ∧
  findMap P_string (P_other example_Price) prices_client "price" ""
    "SELECT price, label FROM prices" [] = Ok None ∧
  ∀ m, findMap P_string (P_other example_Price) prices_client "price" ""
         "SELECT price, label FROM prices" [] ≠ Ok (Some m).
Proof.
  assert (findMap_scanDest (P_other example_Price) "" example_Price_mapping
            (columns prices)
          = Ok [NullFloat64 float_zero false; NullString "" false]) as Htargets
    by (vm_compute; reflexivity).
  assert (Forall (λ row, is_Ok (Rows_Scan (columns prices) row
                                  [NullFloat64 float_zero false; NullString "" false])
                         = true) (pending prices)) as Hrows.
  { repeat apply Forall_cons_2; try apply Forall_nil_2; vm_compute; reflexivity. }
  destruct (findMap_struct_key_of_other_kind_yields_nothing P_string
              (P_other example_Price) prices_client "price"
              "SELECT price, label FROM prices" []
              (Reference.stmt_returning prices) prices
              example_Price_mapping 0%nat (TBasic reflect.Float64)
              ltac:(done) eq_refl eq_refl eq_refl eq_refl eq_refl eq_refl
              ltac:(done) eq_refl eq_refl ltac:(done) ltac:(done))
    as (_ & Hnil & Hnever).
  split; [done|]. split; [reflexivity|]. split; [reflexivity|].
  split; [reflexivity|]. split; [reflexivity|]. split; [exact Htargets|].
  split; [exact Hrows|]. split; [|exact Hnever].
  exact (Hnil 0%nat _ eq_refl eq_refl Htargets Hrows eq_refl).
Defined.

(** * Keys and decimal text *)

(** A no-break space (U+00A0) and an ideographic space (U+3000) before
    the digits are skipped as the ASCII blanks are. *)
Example Sscanf_d_skips_wide_blanks :
  Sscanf_d (String (ascii_of_nat 194) (String (ascii_of_nat 160) "5")) = Some 5 ∧
  Sscanf_d (String (ascii_of_nat 227) (String (ascii_of_nat 128)
              (String (ascii_of_nat 128) " -12x"))) = Some (-12) ∧
  Sscanf_d (String (ascii_of_nat 194) (String (ascii_of_nat 161) "5")) = None.
Proof. repeat split; vm_compute; reflexivity. Qed.

Lemma pretty_N_char_digit d :
  (d < 10)%N →
  is_digit (pretty_N_char d) = true ∧
  Z.of_nat (nat_of_ascii (pretty_N_char d)) - 48 = Z.of_N d.
Proof.
  intros Hd.
  assert (d = 0 ∨ d = 1 ∨ d = 2 ∨ d = 3 ∨ d = 4 ∨ d = 5 ∨ d = 6 ∨ d = 7
          ∨ d = 8 ∨ d = 9)%N as Hcases by lia.
  repeat (destruct Hcases as [->|Hcases]); [..|subst d]; by vm_compute.
Qed.

Lemma pretty_N_go_append x : ∀ s rest,
  pretty_N_go x s +:+ rest = pretty_N_go x (s +:+ rest).
Proof.
  induction (N.lt_wf_0 x) as [x _ IH]; intros s rest.
  destruct (decide (x = 0)%N) as [->|Hx]; [by rewrite !pretty_N_go_0|].
  rewrite (pretty_N_go_step x s); [lia|].
  rewrite (pretty_N_go_step x (s +:+ rest)); [lia|].
  rewrite IH; [apply N.div_lt; lia|done].
Qed.

Lemma pretty_N_go_head x : ∀ s,
  (0 < x)%N →
  ∃ d t, (d < 10)%N ∧ pretty_N_go x s = String (pretty_N_char d) t.
Proof.
  induction (N.lt_wf_0 x) as [x _ IH]; intros s Hx.
  rewrite pretty_N_go_step //.
  destruct (decide (x `div` 10 = 0)%N) as [Hsmall|Hbig].
  - rewrite Hsmall pretty_N_go_0. eexists _, _. split; [|done].
    by apply N.mod_lt.
  - apply IH; [apply N.div_lt; lia|by apply N.neq_0_lt_0].
Qed.

Lemma scanNumber_pretty_N_go x : ∀ s,
  ∃ k, 0 ≤ k ∧
    ∀ acc, scanNumber acc (pretty_N_go x s)
           = scanNumber (acc * 10 ^ k + Z.of_N x) s.
Proof.
  induction (N.lt_wf_0 x) as [x _ IH]; intros s.
  destruct (decide (x = 0)%N) as [->|Hx].
  - exists 0. split; [done|]. intros acc. rewrite pretty_N_go_0. f_equal. lia.
  - rewrite pretty_N_go_step; [lia|].
    destruct (IH (x `div` 10)%N ltac:(apply N.div_lt; lia)
                (String (pretty_N_char (x `mod` 10)) s)) as (k & Hk & Hscan).
    exists (k + 1). split; [lia|]. intros acc. rewrite Hscan.
    destruct (pretty_N_char_digit (x `mod` 10)%N) as (Hdigit & Hval).
    { by apply N.mod_lt. }
    cbn [scanNumber]. rewrite Hdigit Hval. f_equal.
    rewrite Z.pow_add_r // Z.pow_1_r.
    pose proof (N.div_mod x 10 ltac:(done)) as Hdiv.
    assert (Z.of_N x = 10 * Z.of_N (x `div` 10) + Z.of_N (x `mod` 10)) as ->
      by lia.
    lia.
Qed.

Lemma scanNumber_no_digit acc s : no_digit_ahead s → scanNumber acc s = acc.
Proof. destruct s as [|c s]; [done|]. simpl. by intros ->. Qed.

Lemma Sscanf_d_digits p rest :
  no_digit_ahead rest →
  ∃ d t, (d < 10)%N ∧
    pretty_N_go (N.pos p) rest = String (pretty_N_char d) t ∧
    scanNumber 0 (pretty_N_go (N.pos p) rest) = Z.pos p.
Proof.
  intros Hrest.
  destruct (pretty_N_go_head (N.pos p) rest) as (d & t & Hd & Hhead); [lia|].
  exists d, t. split; [done|]. split; [done|].
  destruct (scanNumber_pretty_N_go (N.pos p) rest) as (k & _ & ->).
  rewrite scanNumber_no_digit //.
Qed.

Lemma Sscanf_d_unsigned c t :
  is_digit c = true →
  Sscanf_d (String c t)
  = (let i := scanNumber 0 (String c t) in
     if (- 2 ^ 63 <=? i) && (i <=? 2 ^ 63 - 1) then Some i else None).
Proof.
  destruct c as [[] [] [] [] [] [] [] []]; intros Hdigit;
    try (by vm_compute in Hdigit); reflexivity.
Qed.

Lemma Sscanf_d_negative c t :
  is_digit c = true →
  Sscanf_d (String "-" (String c t))
  = (let i := - scanNumber 0 (String c t) in
     if (- 2 ^ 63 <=? i) && (i <=? 2 ^ 63 - 1) then Some i else None).
Proof.
  destruct c as [[] [] [] [] [] [] [] []]; intros Hdigit;
    try (by vm_compute in Hdigit); reflexivity.
Qed.

(** X26. Keys go through decimal text without loss.  The text
    [findMap] makes of an integer key column for a [string] key type,
    read back for an [int64] key type, is the integer itself, for every
    [int64].  The reading takes the leading number and ignores what
    follows it: a key text that goes on after the digits with anything
    but a digit gives the same key. *)
Theorem integer_key_text_round_trip (n : Z) (rest : string) :
  - 2 ^ 63 ≤ n ≤ 2 ^ 63 - 1 →
  no_digit_ahead rest →
  (∀ text,
     findMap_key P_string (Some (NullInt64 n true)) = Ok (KeyStr text, true) →
     findMap_key P_int64 (Some (NullString text true)) = Ok (KeyInt n, true)) ∧
  Sscanf_d (pretty n +:+ rest) = Some n ∧
  findMap_key P_int64 (Some (NullString (pretty n +:+ rest) true))
  = Ok (KeyInt n, true).
Proof.
  intros Hrange Hrest.
  assert (∀ i, - 2 ^ 63 ≤ i ≤ 2 ^ 63 - 1 →
               (- 2 ^ 63 <=? i) && (i <=? 2 ^ 63 - 1) = true) as Hfits.
  { intros i Hi. apply andb_true_iff. split; apply Z.leb_le; lia. }
  assert (∀ tail, no_digit_ahead tail → Sscanf_d (pretty n +:+ tail) = Some n)
    as Hparse.
  { intros tail Htail. destruct n as [|p|p].
    - change (pretty 0 +:+ tail) with (String "0" tail).
      rewrite Sscanf_d_unsigned //. cbn [scanNumber].
      change (is_digit "0") with true. cbv iota.
      by rewrite scanNumber_no_digit.
    - change (pretty (Z.pos p)) with (pretty_N_go (N.pos p) "").
      rewrite pretty_N_go_append.
      change ("" +:+ tail) with tail.
      destruct (Sscanf_d_digits p tail Htail) as (d & t & Hd & Hhead & Hscan).
      destruct (pretty_N_char_digit d Hd) as (Hdigit & _).
      rewrite Hhead in Hscan |- *.
      rewrite Sscanf_d_unsigned // Hscan. cbv zeta. by rewrite Hfits.
    - change (pretty (Z.neg p)) with ("-" +:+ pretty_N_go (N.pos p) "").
      change (("-" +:+ pretty_N_go (N.pos p) "") +:+ tail)
        with (String "-" (pretty_N_go (N.pos p) "" +:+ tail)).
      rewrite pretty_N_go_append.
      change ("" +:+ tail) with tail.
      destruct (Sscanf_d_digits p tail Htail) as (d & t & Hd & Hhead & Hscan).
      destruct (pretty_N_char_digit d Hd) as (Hdigit & _).
      rewrite Hhead in Hscan |- *.
      rewrite Sscanf_d_negative // Hscan. cbv zeta.
      change (- Z.pos p) with (Z.neg p). by rewrite Hfits. }
  split; [|split].
  - intros text [= <-]. cbn [findMap_key].
    assert (pretty n = pretty n +:+ "") as ->.
    { generalize (pretty n). intros s. induction s as [|c s IH]; [done|].
      change (String c s +:+ "") with (String c (s +:+ "")). by rewrite -IH. }
    by rewrite (Hparse "").
  - by apply Hparse.
  - cbn [findMap_key]. by rewrite Hparse.
Qed.

Lemma integer_key_text_round_trip_witness :
  - 2 ^ 63 ≤ -42 ≤ 2 ^ 63 - 1 ∧
  no_digit_ahead " units" ∧
  (∀ text,
     findMap_key P_string (Some (NullInt64 (-42) true)) = Ok (KeyStr text, true) →
     findMap_key P_int64 (Some (NullString text true)) = Ok (KeyInt (-42), true)) ∧
  Sscanf_d (pretty (-42) +:+ " units") = Some (-42) ∧
  findMap_key P_int64 (Some (NullString (pretty (-42) +:+ " units") true))
  = Ok (KeyInt (-42), true).
Proof.
  split; [lia|]. split; [reflexivity|].
  apply (integer_key_text_round_trip (-42) " units"); [lia|reflexivity].
Defined.

(** * Row objects of the raw JSON projection *)

Section Projection2.
Context `{GoRuntime}.

Lemma make_rowMap_snoc cols (row : Row) c v :
  length row = length cols →
  make_rowMap (cols ++ [c]) (row ++ [v]) = <[c := v]> (make_rowMap cols row).
Proof.
  intros Hlen. unfold make_rowMap.
  rewrite zip_with_app; [done|]. by rewrite fold_left_app.
Qed.

(** X27. The row object [ExecByte] builds has one member per column
    name.  When a name comes several times among the columns, its
    member holds the value of the last column of that name; the values
    of the earlier ones are dropped from the output. *)
Theorem ExecByte_repeated_column_keeps_last
    (cols : list string) (row : Row) (c : string) :
  length row = length cols →
  make_rowMap cols row !! c = (i ← lastIndexOf c cols; row !! i).
Proof.
  revert row. induction cols as [|col cols IH] using rev_ind; intros row Hlen.
  - by destruct row.
  - destruct row as [|v row _] using rev_ind.
    { rewrite length_app /= in Hlen. lia. }
    rewrite !length_app /= in Hlen.
    assert (length row = length cols) as Hlen' by lia.
    rewrite make_rowMap_snoc // lastIndexOf_snoc.
    case_bool_decide as Hc.
    + subst col. rewrite lookup_insert_eq /=.
      by rewrite lookup_app_r -Hlen' // Nat.sub_diag.
    + rewrite lookup_insert_ne // IH //.
      destruct (lastIndexOf c cols) as [i|] eqn:Hi; [|done]. simpl.
      apply lastIndexOf_lookup, lookup_lt_Some in Hi.
      rewrite lookup_app_l //. lia.
Qed.

End Projection2.

Lemma ExecByte_repeated_column_keeps_last_witness :
  length [DInt64 1; DString "John"; DInt64 7] = length ["id"; "name"; "id"] ∧
  make_rowMap ["id"; "name"; "id"] [DInt64 1; DString "John"; DInt64 7] !! "id"
  = (i ← lastIndexOf "id" ["id"; "name"; "id"];
     [DInt64 1; DString "John"; DInt64 7] !! i) ∧
  lastIndexOf "id" ["id"; "name"; "id"] = Some 2%nat.
Proof.
  split; [reflexivity|]. split; [|reflexivity].
  apply (ExecByte_repeated_column_keeps_last ["id"; "name"; "id"]
           [DInt64 1; DString "John"; DInt64 7] "id").
  reflexivity.
Defined.

(** The same row through [ExecByte]: the first [id] is gone. *)
Example ExecByte_repeated_column :
  ExecByte
    (Reference.client_returning
       (Reference.one_set ["id"; "name"; "id"]
          [[DInt64 1; DString "John"; DInt64 7]]))
    "SELECT u.id, u.name, o.id FROM users u JOIN orders o ON o.user_id = u.id"
    HAS_ONE []
  = Ok ("{" +:+ Reference.quote "id" +:+ ":7," +:+
        Reference.quote "name" +:+ ":" +:+ Reference.quote "John" +:+ "}").
Proof. vm_compute. reflexivity. Qed.
